(** * Grade-sheet OCR pipeline: a shallow embedding and its properties

    The development follows the three TypeScript services of the task pane:
    - [TableDetectionService] (grid builder, structure identifier, record
      extractor),
    - [OCRService] (pipeline coordinator, pattern-based and basic extractors,
      numeral normalisation),
    - [ExcelService] (fuzzy matching of a recovered student against the
      roster read from the worksheet, the column finders of the worksheet
      structure and the insertion of the marks).

    JavaScript strings are sequences of UTF-16 code units; they are modelled
    as lists of code units ([N]).  JavaScript numbers that hold counts and
    indices are modelled by [nat] or [Z]; numbers that hold marks are modelled
    by exact rationals ([Q]).  Every mark the code builds is the value of a
    decimal literal; for the short literals the mark patterns match (at most
    two digits on each side of the separator) the comparisons with 0 and 20
    have the same outcome on the exact value as on the IEEE double, and so
    has the comparison of a quotient of two string lengths with 0.7.  A
    longer literal is taken at its exact value. *)

From Stdlib Require Import ZArith NArith QArith Qround Lia Ascii String DecimalString.
From stdpp Require Import base option list gmap sorting.

#[local] Open Scope nat_scope.

(** ** JavaScript strings *)

Module JsString.

(** A UTF-16 code unit, and a string of them. *)
Abbreviation char := N (only parsing).
Abbreviation jsstring := (list N) (only parsing).

(** Source literals are written in this file as UTF-8 text; [utf8_decode]
    turns the bytes into the UTF-16 code units the JavaScript engine sees.
    Code points beyond the basic plane become a surrogate pair. *)
Fixpoint utf8_decode (bs : list N) : jsstring :=
  match bs with
  | [] => []
  | b0 :: r0 =>
      if (b0 <? 0x80)%N then b0 :: utf8_decode r0
      else match r0 with
      | [] => [b0]
      | b1 :: r1 =>
          if (b0 <? 0xE0)%N
          then ((b0 - 0xC0) * 64 + (b1 - 0x80))%N :: utf8_decode r1
          else match r1 with
          | [] => [b0; b1]
          | b2 :: r2 =>
              if (b0 <? 0xF0)%N
              then ((b0 - 0xE0) * 4096 + (b1 - 0x80) * 64 + (b2 - 0x80))%N
                     :: utf8_decode r2
              else match r2 with
              | [] => [b0; b1; b2]
              | b3 :: r3 =>
                  let cp := ((b0 - 0xF0) * 262144 + (b1 - 0x80) * 4096
                             + (b2 - 0x80) * 64 + (b3 - 0x80))%N in
                  let v := (cp - 0x10000)%N in
                  (0xD800 + v / 1024)%N :: (0xDC00 + v mod 1024)%N
                    :: utf8_decode r3
              end
          end
      end
  end.

Definition js (s : string) : jsstring :=
  utf8_decode (map N_of_ascii (list_ascii_of_string s)).

(** [s.charAt(i)]: the one-unit string at [i], the empty string out of
    range. *)
Definition charAt (s : jsstring) (i : nat) : jsstring :=
  match s !! i with Some c => [c] | None => [] end.

(** [a === b] on strings. *)
Definition str_eqb (a b : jsstring) : bool := bool_decide (a = b).

(** [s.startsWith(p)] *)
Fixpoint startsWith (s p : jsstring) : bool :=
  match p, s with
  | [], _ => true
  | _ :: _, [] => false
  | c :: p', d :: s' => bool_decide (c = d) && startsWith s' p'
  end.

(** [s.includes(p)] *)
Fixpoint includes (s p : jsstring) : bool :=
  startsWith s p ||
  match s with
  | [] => false
  | _ :: s' => includes s' p
  end.

(** [s.endsWith(p)] *)
Definition endsWith (s p : jsstring) : bool :=
  bool_decide (length p <= length s) &&
  str_eqb (drop (length s - length p) s) p.

(** Character classes of the regular expressions in the source. *)
Definition isDigit (c : char) : bool := (0x30 <=? c)%N && (c <=? 0x39)%N.

(** [\w] *)
Definition isWord (c : char) : bool :=
  isDigit c || ((0x41 <=? c)%N && (c <=? 0x5A)%N)
  || ((0x61 <=? c)%N && (c <=? 0x7A)%N) || (c =? 0x5F)%N.

(** [\s], which is also what [trim] removes: white space and line
    terminators. *)
Definition isSpace (c : char) : bool :=
  ((0x09 <=? c)%N && (c <=? 0x0D)%N) || (c =? 0x20)%N || (c =? 0xA0)%N
  || (c =? 0x1680)%N || ((0x2000 <=? c)%N && (c <=? 0x200A)%N)
  || (c =? 0x2028)%N || (c =? 0x2029)%N || (c =? 0x202F)%N
  || (c =? 0x205F)%N || (c =? 0x3000)%N || (c =? 0xFEFF)%N.

(** [[؀-ۿ]] *)
Definition isArabic (c : char) : bool := (0x0600 <=? c)%N && (c <=? 0x06FF)%N.

Fixpoint trimStart (s : jsstring) : jsstring :=
  match s with
  | c :: s' => if isSpace c then trimStart s' else s
  | [] => []
  end.

Definition trimEnd (s : jsstring) : jsstring := rev (trimStart (rev s)).

(** [s.trim()] *)
Definition trim (s : jsstring) : jsstring := trimEnd (trimStart s).

(** The longest prefix whose units satisfy [p], and what follows it. *)
Fixpoint span_of (p : char -> bool) (s : jsstring) : jsstring * jsstring :=
  match s with
  | c :: s' =>
      if p c then let '(a, b) := span_of p s' in (c :: a, b) else ([], s)
  | [] => ([], [])
  end.

(** [s.toLowerCase()].  The services lower-case a line only to search it
    for Arabic keywords; Arabic has no case, so the model lower-cases the
    ASCII letters and leaves every other unit as it is. *)
Definition toLowerCase (s : jsstring) : jsstring :=
  map (fun c => if (0x41 <=? c)%N && (c <=? 0x5A)%N then (c + 0x20)%N else c) s.

(** [s.split(c)] for a one-unit separator. *)
Fixpoint splitOn (sep : char) (s : jsstring) (cur : jsstring) : list jsstring :=
  match s with
  | [] => [rev cur]
  | c :: s' =>
      if (c =? sep)%N then rev cur :: splitOn sep s' []
      else splitOn sep s' (c :: cur)
  end.

(** [s.replace(pat, rep)] with a string pattern: the first occurrence. *)
Fixpoint replaceFirst (pat rep s : jsstring) : jsstring :=
  if startsWith s pat then rep ++ drop (length pat) s
  else match s with
       | [] => []
       | c :: s' => c :: replaceFirst pat rep s'
       end.

(** [parts.join(sep)] *)
Fixpoint join (sep : jsstring) (parts : list jsstring) : jsstring :=
  match parts with
  | [] => []
  | [x] => x
  | x :: rest => x ++ sep ++ join sep rest
  end.

(** A pattern without anchor matches if it matches at some position. *)
Fixpoint matchesSomewhere (at_start : jsstring -> bool) (s : jsstring) : bool :=
  at_start s ||
  match s with
  | [] => false
  | _ :: s' => matchesSomewhere at_start s'
  end.

End JsString.
Import JsString.

(** ** JavaScript numbers that hold marks *)

Module JsNumber.

(** The value of a string of decimal digits. *)
Definition digitsValue (ds : jsstring) : Z :=
  foldl (fun acc c => (acc * 10 + (Z.of_N c - 0x30))%Z) 0%Z ds.

(** The value of the literal [ip.fp]. *)
Definition decimalValue (ip fp : jsstring) : Q :=
  Qred (inject_Z (digitsValue ip)
        + inject_Z (digitsValue fp) / inject_Z (10 ^ Z.of_nat (length fp))).

(** [parseFloat(s)] on the strings the services pass to it: an unsigned
    decimal literal without exponent, possibly followed by other text.
    [None] is NaN. *)
Definition parseFloat (s : jsstring) : option Q :=
  let '(ip, r) := span_of isDigit s in
  match r with
  | c :: r' =>
      if (c =? 0x2E)%N then
        let fp := (span_of isDigit r').1 in
        if bool_decide (ip = []) && bool_decide (fp = []) then None
        else Some (decimalValue ip fp)
      else if bool_decide (ip = []) then None
      else Some (decimalValue ip [])
  | [] => if bool_decide (ip = []) then None else Some (decimalValue ip [])
  end.

(** [parseInt(s, 10)] on a string of digits; [None] is NaN (no digit at
    the start).  The integer is taken at its exact value (a double holds it
    exactly below 2^53). *)
Definition parseInt10 (s : jsstring) : option Z :=
  let ds := (span_of isDigit (trimStart s)).1 in
  if bool_decide (ds = []) then None else Some (digitsValue ds).

(** [0 <= v && v <= 20] *)
Definition inMarkRange (v : Q) : bool := Qle_bool 0 v && Qle_bool v 20.

(** [parseFloat(v.toFixed(2))] for [v >= 0]: the nearest multiple of
    1/100, the larger one on a tie.  The rounding is done on the exact
    value. *)
Definition toFixed2 (v : Q) : Q :=
  Qred (inject_Z (Qfloor (v * 100 + (1 # 2))) / 100).

(** Decimal digits of a natural number. *)
Definition natDigits (n : Z) : jsstring :=
  js (NilZero.string_of_uint (N.to_uint (Z.to_N n))).

Fixpoint fractionDigits (fuel : nat) (num den : Z) : jsstring :=
  match fuel with
  | 0 => []
  | S fuel' =>
      if (num =? 0)%Z then []
      else ((0x30 + Z.to_N (num * 10 / den))%N
              :: fractionDigits fuel' ((num * 10) mod den)%Z den)
  end.

(** [String(v)] for a non-negative [v] that a short decimal literal
    denotes: the integer part, then the fraction if there is one. *)
Definition numberToString (v : Q) : jsstring :=
  let ip := Qfloor v in
  let num := (Qnum v - ip * Zpos (Qden v))%Z in
  natDigits ip ++
  (if (num =? 0)%Z then []
   else 0x2E%N :: fractionDigits 20 num (Zpos (Qden v))).

End JsNumber.
Import JsNumber.

(** ** Arrays *)

Module JsArray.

(** [l[z]] for an index held in a JavaScript number. *)
Definition at_index {A} (l : list A) (z : Z) : option A :=
  if (z <? 0)%Z then None else l !! Z.to_nat z.

(** [Array.prototype.sort] is stable; [le a b] says that the comparator
    does not put [b] before [a] ([compare(a, b) <= 0]). *)
Fixpoint insertBy {A} (le : A -> A -> bool) (x : A) (l : list A) : list A :=
  match l with
  | [] => [x]
  | y :: l' => if le x y then x :: y :: l' else y :: insertBy le x l'
  end.

Definition sortBy {A} (le : A -> A -> bool) (l : list A) : list A :=
  foldr (insertBy le) [] l.

(** [l.findIndex(p)], counted from [i]. *)
Fixpoint findIndexFrom {A} (p : A -> bool) (l : list A) (i : nat) : option nat :=
  match l with
  | [] => None
  | x :: l' => if p x then Some i else findIndexFrom p l' (S i)
  end.

(** The indices [i] of [l], counted from [i0], whose element satisfies
    [p]. *)
Fixpoint indicesWhere {A} (p : A -> bool) (l : list A) (i0 : nat) : list nat :=
  match l with
  | [] => []
  | x :: l' =>
      if p x then i0 :: indicesWhere p l' (S i0) else indicesWhere p l' (S i0)
  end.

End JsArray.
Import JsArray.

(** ** Regular expressions of the services *)

Module Patterns.

Definition PIPE : char := 0x7C%N.
Definition DOT : char := 0x2E%N.
Definition COMMA : char := 0x2C%N.

(** [[.,]] *)
Definition isSep (c : char) : bool := (c =? DOT)%N || (c =? COMMA)%N.

Definition nonEmpty (s : jsstring) : bool := negb (bool_decide (s = [])).

(** [/^\s*(\d+)\s/]: the digits, when the pattern matches. *)
Definition leadingNumber (s : jsstring) : option jsstring :=
  let '(ds, r) := span_of isDigit (span_of isSpace s).2 in
  match r with
  | c :: _ => if nonEmpty ds && isSpace c then Some ds else None
  | [] => None
  end.

(** [/^\d+/] *)
Definition startsWithDigit (s : jsstring) : bool :=
  match s with c :: _ => isDigit c | [] => false end.

(** [/^\|\s*\d+/] *)
Definition startsWithPipeNumber (s : jsstring) : bool :=
  match s with
  | c :: r => (c =? PIPE)%N && startsWithDigit (span_of isSpace r).2
  | [] => false
  end.

(** [/^[؀-ۿ\s]+$/] *)
Definition arabicOnly (s : jsstring) : bool :=
  nonEmpty s && forallb (fun c => isArabic c || isSpace c) s.

(** [/[؀-ۿ]/] and [/\d/] *)
Definition hasArabic (s : jsstring) : bool := existsb isArabic s.
Definition hasDigit (s : jsstring) : bool := existsb isDigit s.

(** [[.,]\d{2}] at the start. *)
Definition sepTwoDigits (s : jsstring) : bool :=
  match s with
  | c :: a :: b :: _ => isSep c && isDigit a && isDigit b
  | _ => false
  end.

(** [/\d{1,2}[.,]\d{2}/] *)
Definition hasMarkLike (s : jsstring) : bool :=
  matchesSomewhere
    (fun t => match t with
              | d1 :: r =>
                  isDigit d1 &&
                  (match r with
                   | d2 :: r' => isDigit d2 && sepTwoDigits r'
                   | [] => false
                   end || sepTwoDigits r)
              | [] => false
              end) s.

(** [/\d{7,}/] and [/[Gg]\d{7,}/] *)
Definition sevenDigitsAt (s : jsstring) : bool :=
  bool_decide (7 <= length (span_of isDigit s).1).
Definition hasLongNumber (s : jsstring) : bool :=
  matchesSomewhere sevenDigitsAt s.
Definition hasGNumber (s : jsstring) : bool :=
  matchesSomewhere
    (fun t => match t with
              | c :: r => ((c =? 0x47)%N || (c =? 0x67)%N) && sevenDigitsAt r
              | [] => false
              end) s.

(** [line.split(/\s{2,}|\|/)].  [inRun] is set while a run of white space
    that began a separator is being consumed. *)
Fixpoint splitColumns (s : jsstring) (cur : jsstring) (inRun : bool)
  : list jsstring :=
  match s with
  | [] => [rev cur]
  | c :: s' =>
      if inRun && isSpace c then splitColumns s' cur true
      else if (c =? PIPE)%N then rev cur :: splitColumns s' [] false
      else if isSpace c && match s' with d :: _ => isSpace d | [] => false end
      then rev cur :: splitColumns s' [] true
      else splitColumns s' (c :: cur) false
  end.

(** [\d{n}] at the start: the digits and the rest. *)
Definition digitsExactly (n : nat) (s : jsstring) : option (jsstring * jsstring) :=
  if bool_decide (n <= length s) && forallb isDigit (take n s)
  then Some (take n s, drop n s) else None.

(** [\b] after a digit: the end of the text or a unit outside [\w]. *)
Definition boundaryAfter (rest : jsstring) : bool :=
  match rest with [] => true | c :: _ => negb (isWord c) end.

(** [\b] before a digit. *)
Definition boundaryBefore (prev : option char) : bool :=
  match prev with None => true | Some c => negb (isWord c) end.

(** One way for [\d{1,2}(?:[.,]\d{1,2})?\b] to match at the start: [n1]
    digits, then either a separator and [n2] digits or no fraction. *)
Definition markShape (n1 : nat) (n2 : option nat) (s : jsstring)
  : option jsstring :=
  '(a, r) ← digitsExactly n1 s;
  match n2 with
  | None => if boundaryAfter r then Some a else None
  | Some k =>
      match r with
      | c :: r' =>
          if isSep c then
            '(b, r'') ← digitsExactly k r';
            if boundaryAfter r'' then Some (a ++ c :: b) else None
          else None
      | [] => None
      end
  end.

Fixpoint firstShape (shapes : list (nat * option nat)) (s : jsstring)
  : option jsstring :=
  match shapes with
  | [] => None
  | (n1, n2) :: rest =>
      match markShape n1 n2 s with
      | Some tok => Some tok
      | None => firstShape rest s
      end
  end.

(** [\d{1,2}(?:[.,]\d{1,2})?\b] at the start, the alternatives in the
    order a backtracking matcher tries them (greedy first). *)
Definition markTokenAt : jsstring -> option jsstring :=
  firstShape [(2, Some 2); (2, Some 1); (2, None);
              (1, Some 2); (1, Some 1); (1, None)].

(** [\d{1,2}[.,]\d{1,2}\b] at the start. *)
Definition decimalTokenAt : jsstring -> option jsstring :=
  firstShape [(2, Some 2); (2, Some 1); (1, Some 2); (1, Some 1)].

(** All matches of [/\b(token)/g], left to right, none overlapping:
    [prev] is the unit before the position, [skip] the number of units
    still inside the last match. *)
Fixpoint scanTokens (tokenAt : jsstring -> option jsstring)
    (prev : option char) (s : jsstring) (skip : nat) : list jsstring :=
  match s with
  | [] => []
  | c :: s' =>
      match skip with
      | S k => scanTokens tokenAt (Some c) s' k
      | 0 =>
          match (if boundaryBefore prev then tokenAt s else None) with
          | Some tok => tok :: scanTokens tokenAt (Some c) s' (length tok - 1)
          | None => scanTokens tokenAt (Some c) s' 0
          end
      end
  end.

(** The matches of [/\b(\d{1,2}(?:[.,]\d{1,2})?)\b/g]. *)
Definition markTokens (s : jsstring) : list jsstring :=
  scanTokens markTokenAt None s 0.

(** The matches of [/\b(\d{1,2}[.,]\d{1,2})\b/g]. *)
Definition decimalTokens (s : jsstring) : list jsstring :=
  scanTokens decimalTokenAt None s 0.

(** [/^\d+(\.\d+)?$/] *)
Definition isPlainNumber (s : jsstring) : bool :=
  let '(ip, r) := span_of isDigit s in
  nonEmpty ip &&
  match r with
  | [] => true
  | c :: r' => (c =? DOT)%N && nonEmpty r' && forallb isDigit r'
  end.

(** [(\d{1,2})[.,](\d{1,2})] at the start: the two groups. *)
Definition markPairAt (s : jsstring) : option (jsstring * jsstring) :=
  let '(ds, _) := span_of isDigit (take 2 s) in
  if nonEmpty ds then
    match drop (length ds) s with
    | c :: r =>
        let '(fs, _) := span_of isDigit (take 2 r) in
        if isSep c && nonEmpty fs then Some (ds, fs) else None
    | [] => None
    end
  else None.

(** [s.match(/(\d{1,2})[.,](\d{1,2})/)]: the groups of the leftmost
    match. *)
Fixpoint firstMarkPair (s : jsstring) : option (jsstring * jsstring) :=
  match markPairAt s with
  | Some g => Some g
  | None => match s with
            | [] => None
            | _ :: s' => firstMarkPair s'
            end
  end.

End Patterns.
Import Patterns.

(** ** The records handed to the caller *)

Module Types.

Record StudentMarks := {
  fard1 : option Q;
  fard2 : option Q;
  fard3 : option Q;
  activities : option Q
}.

Record Student := {
  number : Q;
  name : jsstring;
  marks : StudentMarks
}.

Definition noMarks : StudentMarks :=
  {| fard1 := None; fard2 := None; fard3 := None; activities := None |}.

(** The four slots in their positional order. *)
Definition slots (m : StudentMarks) : list (option Q) :=
  [fard1 m; fard2 m; fard3 m; activities m].

End Types.
Import Types.

(** ** TableDetectionService *)

Module TableDetectionService.

Record GridPosition := { row : nat; col : nat }.

Record TableCell := {
  text : jsstring;
  position : GridPosition;
  isNumeric : bool;
  value : option Q
}.

Record TableStructure := {
  headerRow : nat;
  studentIdColumn : Z;
  studentNameColumn : Z;
  markColumns : list nat;
  rowCount : nat;
  colCount : nat;
  cells : list (list TableCell)
}.

(** *** Grid builder *)

(** [parseNumericValue].  [parseFloat] is applied to a text that matched
    the pattern, so it never yields NaN here. *)
Definition parseNumericValue (text : jsstring) : option Q :=
  let cleanedText :=
    trim (map (fun c => if (c =? COMMA)%N then DOT else c) text) in
  if isPlainNumber cleanedText then parseFloat cleanedText
  else match firstMarkPair cleanedText with
       | Some (g1, g2) => parseFloat (g1 ++ DOT :: g2)
       | None => None
       end.

Definition notBlank (s : jsstring) : bool := nonEmpty (trim s).

(** The segments [parseLine] cuts a line into. *)
Definition lineSegments (line : jsstring) : list jsstring :=
  let segments := filter (fun s => notBlank s) (splitColumns line [] false) in
  if bool_decide (length segments <= 1) then
    let marks := markTokens line in
    if bool_decide (0 < length marks) then
      let textContent :=
        foldl (fun t mark => replaceFirst mark [PIPE] t) line marks in
      filter (fun s => notBlank s) (splitOn PIPE textContent []) ++ marks
    else segments
  else segments.

(** The cell [parseLine] makes of the segment at [colIndex], if any. *)
Definition segmentCell (rowIndex colIndex : nat) (segment : jsstring)
  : option TableCell :=
  let text := trim segment in
  if bool_decide (length text = 0) then None
  else
    let numericValue := parseNumericValue text in
    Some {| text := text;
            position := {| row := rowIndex; col := colIndex |};
            isNumeric := bool_decide (numericValue ≠ None);
            value := numericValue |}.

Definition parseLine (line : jsstring) (rowIndex : nat) : list TableCell :=
  omap id (imap (segmentCell rowIndex) (lineSegments line)).

Definition emptyCell (rowIndex colIndex : nat) : TableCell :=
  {| text := [];
     position := {| row := rowIndex; col := colIndex |};
     isNumeric := false;
     value := None |}.

Definition refineGrid (grid : list (list TableCell)) : list (list TableCell) :=
  match grid with
  | [] => grid
  | _ =>
      let maxColumns := foldl (fun m r => Nat.max m (length r)) 0 grid in
      imap (fun rowIndex r =>
              imap (fun colIndex c =>
                      {| text := text c;
                         position := {| row := rowIndex; col := colIndex |};
                         isNumeric := isNumeric c;
                         value := value c |}) r
              ++ map (emptyCell rowIndex)
                     (seq (length r) (maxColumns - length r)))
           grid
  end.

Definition tableStartKeyword (line : jsstring) : bool :=
  includes line (js "رقم") || includes line (js "اسم")
  || includes line (js "الفرض") || includes line (js "ر.ت").

(** The two scans for [dataStartLine]; [None] is the -1 that remains when
    both fail. *)
Definition dataStartLine (lines : list jsstring) : option nat :=
  match findIndexFrom tableStartKeyword lines 0 with
  | Some i => Some i
  | None =>
      match findIndexFrom (fun l => bool_decide (leadingNumber l ≠ None)) lines 0 with
      | Some i => Some (Nat.max 0 (i - 1))
      | None => None
      end
  end.

Definition looksLikeRow (raw : jsstring) : bool :=
  let line := trim raw in
  negb (bool_decide (length line = 0)) &&
  (startsWithDigit line || startsWithPipeNumber line
   || arabicOnly line || hasMarkLike line).

Definition looksLikeRowLoose (raw : jsstring) : bool :=
  let line := trim raw in
  negb (bool_decide (100 < length line) || bool_decide (length line < 2)) &&
  (hasArabic line || hasDigit line).

Definition createPreliminaryGrid (lines : list jsstring)
  : list (list TableCell) :=
  match dataStartLine lines with
  | None => []
  | Some start =>
      let processedLines := drop start lines in
      let tableRowIndices := indicesWhere looksLikeRow processedLines 0 in
      let tableRowIndices :=
        if bool_decide (length tableRowIndices < 5)
           && bool_decide (10 < length processedLines)
        then indicesWhere looksLikeRowLoose processedLines 0
        else tableRowIndices in
      refineGrid
        (imap (fun rowIndex lineIndex =>
                 parseLine (processedLines !!! lineIndex) rowIndex)
              tableRowIndices)
  end.

(** *** Structure identifier *)

Definition headerIndicators : list jsstring :=
  [js "رقم"; js "اسم"; js "التلميذ"; js "الفرض"; js "النقطة"; js "المادة";
   js "الأنشطة"].

Definition isHeaderRow (r : list TableCell) : bool :=
  let rowText := toLowerCase (join (js " ") (map text r)) in
  existsb (fun indicator => includes rowText (toLowerCase indicator))
          headerIndicators.

Definition findHeaderRow (grid : list (list TableCell)) : nat :=
  match findIndexFrom isHeaderRow (take (Nat.min 5 (length grid)) grid) 0 with
  | Some rowIndex => rowIndex
  | None => 0
  end.

(** The three results of [identifyColumns] while they are being worked
    out; -1 is a column not found yet. *)
Record Columns := {
  idColumn : Z;
  nameColumn : Z;
  marksColumns : list nat
}.

(** One step of the loop over the header row. *)
Definition headerStep (acc : Columns) (colIndex : nat) (c : TableCell) : Columns :=
  let cellText := toLowerCase (text c) in
  let acc :=
    if includes cellText (js "رقم") || includes cellText (js "ر.ت")
    then {| idColumn := Z.of_nat colIndex; nameColumn := nameColumn acc;
            marksColumns := marksColumns acc |}
    else acc in
  let acc :=
    if includes cellText (js "اسم") || includes cellText (js "التلميذ")
    then {| idColumn := idColumn acc; nameColumn := Z.of_nat colIndex;
            marksColumns := marksColumns acc |}
    else acc in
  if includes cellText (js "فرض") || includes cellText (js "الفرض")
     || includes cellText (js "نقطة") || includes cellText (js "الأنشطة")
     || includes cellText (js "نشاط")
  then {| idColumn := idColumn acc; nameColumn := nameColumn acc;
          marksColumns := marksColumns acc ++ [colIndex] |}
  else acc.

Definition headerPass (grid : list (list TableCell)) (headerRow : nat) : Columns :=
  let start := {| idColumn := -1; nameColumn := -1; marksColumns := [] |} in
  match grid !! headerRow with
  | Some r => foldl (fun acc '(colIndex, c) => headerStep acc colIndex c)
                    start (imap pair r)
  | None => start
  end.

(** [counts[colIndex]++] for every cell of the content rows that satisfies
    [p].  An index beyond the array (a row longer than the first one)
    leaves the model unchanged; the source stores NaN there, which none of
    the later tests [count > 0] accepts. *)
Definition countCells (p : TableCell -> bool) (width : nat)
    (contentRows : list (list TableCell)) : list nat :=
  foldl (fun counts r =>
           foldl (fun counts '(colIndex, c) =>
                    if p c then alter S colIndex counts else counts)
                 counts (imap pair r))
        (replicate width 0) contentRows.

Definition isMarkCell (c : TableCell) : bool :=
  isNumeric c &&
  match value c with Some v => inMarkRange v | None => false end.

(** [counts.map((count, index) => ({index, count})).filter(keep)
    .sort((a, b) => b.count - a.count)] *)
Definition candidates (keep : nat * nat -> bool) (counts : list nat)
  : list (nat * nat) :=
  sortBy (fun a b => (b.2 <=? a.2)) (filter (fun c => keep c) (imap pair counts)).

Definition isColumn (colIndex : nat) (column : Z) : bool :=
  (Z.of_nat colIndex =? column)%Z.

(** The pass over the content of the rows below the header. *)
Definition contentPass (grid : list (list TableCell)) (headerRow width : nat)
    (acc : Columns) : Columns :=
  let contentRows := drop (headerRow + 1) grid in
  let numericCounts := countCells isNumeric width contentRows in
  let arabicTextCounts := countCells (fun c => hasArabic (text c)) width contentRows in
  let idPatternCounts :=
    countCells (fun c => hasGNumber (text c) || hasLongNumber (text c))
               width contentRows in
  let markRangeCounts := countCells isMarkCell width contentRows in
  let studentIdColumn :=
    if (idColumn acc =? -1)%Z then
      match candidates (fun c => 0 <? c.2) idPatternCounts with
      | c :: _ => Z.of_nat c.1
      | [] => 0%Z
      end
    else idColumn acc in
  let studentNameColumn :=
    if (nameColumn acc =? -1)%Z then
      match candidates (fun c => (0 <? c.2) && negb (isColumn c.1 studentIdColumn))
                       arabicTextCounts with
      | c :: _ => Z.of_nat c.1
      | [] => (-1)%Z
      end
    else nameColumn acc in
  let free colIndex :=
    negb (isColumn colIndex studentIdColumn || isColumn colIndex studentNameColumn) in
  let markColumns :=
    if bool_decide (length (marksColumns acc) = 0) then
      let totalRows := length contentRows in
      (* [markRangeCounts[colIndex] > totalRows * 0.3] *)
      let byRange :=
        filter (fun colIndex =>
                  free colIndex &&
                  (3 * totalRows <? 10 * (markRangeCounts !!! colIndex)))
               (seq 0 width) in
      if bool_decide (length byRange = 0) then
        filter (fun colIndex =>
                  free colIndex && (0 <? numericCounts !!! colIndex))
               (seq 0 width)
      else byRange
    else marksColumns acc in
  {| idColumn := studentIdColumn; nameColumn := studentNameColumn;
     marksColumns := markColumns |}.

(** [identifyColumns].  [None] is the TypeError of reading [grid[0].length]
    on an empty grid. *)
Definition identifyColumns (grid : list (list TableCell)) (headerRow : nat)
  : option Columns :=
  match grid with
  | [] => None
  | row0 :: _ =>
      let width := length row0 in
      let acc := headerPass grid headerRow in
      let acc :=
        if (idColumn acc =? -1)%Z || (nameColumn acc =? -1)%Z
           || bool_decide (length (marksColumns acc) = 0)
        then contentPass grid headerRow width acc
        else acc in
      let studentIdColumn := if (idColumn acc =? -1)%Z then 0%Z else idColumn acc in
      let studentNameColumn :=
        if (nameColumn acc =? -1)%Z then 1%Z else nameColumn acc in
      let markColumns := sortBy Nat.leb (marksColumns acc) in
      let markColumns :=
        if bool_decide (length markColumns = 0) then
          filter (fun colIndex =>
                    negb (isColumn colIndex studentIdColumn)
                    && negb (isColumn colIndex studentNameColumn))
                 (seq 0 width)
        else markColumns in
      Some {| idColumn := studentIdColumn; nameColumn := studentNameColumn;
              marksColumns := markColumns |}
  end.

Definition identifyTableStructure (grid : list (list TableCell))
  : option TableStructure :=
  match grid with
  | [] => None
  | row0 :: _ =>
      let headerRow := findHeaderRow grid in
      columns ← identifyColumns grid headerRow;
      Some {| headerRow := headerRow;
              studentIdColumn := idColumn columns;
              studentNameColumn := nameColumn columns;
              markColumns := marksColumns columns;
              rowCount := length grid;
              colCount := length row0;
              cells := grid |}
  end.

Definition detectTable (lines : list jsstring) : option TableStructure :=
  let preliminaryGrid := createPreliminaryGrid lines in
  if bool_decide (length preliminaryGrid = 0) then None
  else identifyTableStructure preliminaryGrid.

(** *** Record extractor *)

(** [cell?.text] as a condition. *)
Definition hasText (c : option TableCell) : bool :=
  match c with Some c => nonEmpty (text c) | None => false end.

(** The student number of a row.  [parseInt(numericPart, 10)] is applied
    to a non-empty string of digits, whose value it returns. *)
Definition studentIdOf (rowIndex headerRow : nat) (idCell : option TableCell) : Q :=
  let fallback := inject_Z (Z.of_nat rowIndex - Z.of_nat headerRow) in
  match idCell with
  | Some c =>
      match (if isNumeric c then value c else None) with
      | Some v => v
      | None =>
          if nonEmpty (text c) then
            let numericPart := filter (fun u => isDigit u) (text c) in
            if bool_decide (0 < length numericPart)
            then inject_Z (digitsValue numericPart)
            else fallback
          else fallback
      end
  | None => fallback
  end.

(** The [switch] on [markIndex]. *)
Definition setMark (m : StudentMarks) (markIndex : nat) (markValue : Q)
  : StudentMarks :=
  match markIndex with
  | 0 => {| fard1 := Some markValue; fard2 := fard2 m; fard3 := fard3 m;
            activities := activities m |}
  | 1 => {| fard1 := fard1 m; fard2 := Some markValue; fard3 := fard3 m;
            activities := activities m |}
  | 2 => {| fard1 := fard1 m; fard2 := fard2 m; fard3 := Some markValue;
            activities := activities m |}
  | 3 => {| fard1 := fard1 m; fard2 := fard2 m; fard3 := fard3 m;
            activities := Some markValue |}
  | _ => m
  end.

(** The body of [markColumns.forEach((colIndex, markIndex) => ...)]. *)
Definition markStep (r : list TableCell) (m : StudentMarks)
    (markIndex colIndex : nat) : StudentMarks :=
  if bool_decide (colIndex < length r) then
    match r !! colIndex with
    | Some markCell =>
        match (if isNumeric markCell then value markCell else None) with
        | Some v => setMark m markIndex (toFixed2 v)
        | None => m
        end
    | None => m
    end
  else m.

Definition rowMarks (r : list TableCell) (markColumns : list nat) : StudentMarks :=
  foldl (fun m '(markIndex, colIndex) => markStep r m markIndex colIndex)
        noMarks (imap pair markColumns).

(** The student of one row, or nothing when the row is skipped. *)
Definition rowStudent (ts : TableStructure) (rowIndex : nat) (r : list TableCell)
  : option Student :=
  let idCell := at_index r (studentIdColumn ts) in
  let nameCell := at_index r (studentNameColumn ts) in
  if negb (hasText idCell) && negb (hasText nameCell) then None
  else
    let studentId := studentIdOf rowIndex (headerRow ts) idCell in
    let studentName :=
      if hasText nameCell
      then match nameCell with Some c => text c | None => [] end
      else js "Student " ++ numberToString studentId in
    Some {| number := studentId;
            name := studentName;
            marks := rowMarks r (markColumns ts) |}.

Definition extractStudentData (ts : TableStructure) : list Student :=
  omap id
    (imap (fun k r => rowStudent ts (headerRow ts + 1 + k) r)
          (drop (headerRow ts + 1) (cells ts))).

End TableDetectionService.

(** ** OCRService *)

Module OCRService.
Import TableDetectionService.

(** *** Numeral normalisation *)

(** [numeralMap]: the ten Arabic-Indic digits, U+0660 to U+0669. *)
Definition numeralMap : gmap N N :=
  list_to_map
    [(0x0660, 0x30); (0x0661, 0x31); (0x0662, 0x32); (0x0663, 0x33);
     (0x0664, 0x34); (0x0665, 0x35); (0x0666, 0x36); (0x0667, 0x37);
     (0x0668, 0x38); (0x0669, 0x39)]%N.

(** [text.replace(/[٠-٩]/g, (d) => numeralMap[d] || d)] *)
Definition normalizeArabicNumber (text : jsstring) : jsstring :=
  map (fun d => if (0x0660 <=? d)%N && (d <=? 0x0669)%N
                then default d (numeralMap !! d) else d) text.

(** The first statement of [processOCRWithMultipleApproaches]. *)
Definition textLines (extractedText : jsstring) : list jsstring :=
  filter (fun line => bool_decide (0 < length line))
         (map (fun line => normalizeArabicNumber (trim line))
              (splitOn 0x0A%N extractedText [])).

(** *** Pattern-based extractor *)

Definition isListHeader (line : jsstring) : bool :=
  includes line (js "اسم التلميذ") || includes line (js "ر.ت")
  || (includes line (js "رقم") && includes line (js "اسم")).

Definition isFooter (line : jsstring) : bool :=
  includes line (js "توقيع") || includes line (js "الأستاذ")
  || includes line (js "المدير") || includes line (js "ملاحظة").

Definition isBlank (line : option jsstring) : bool :=
  match line with Some l => bool_decide (length (trim l) = 0) | None => false end.

(** The index at which the student section ends, scanning from [i]. *)
Fixpoint sectionEnd (start : nat) (rest : list jsstring) (i : nat) (len : nat) : nat :=
  match rest with
  | [] => len
  | line :: rest' =>
      if isFooter line
         || (bool_decide (start + 5 < i) && isBlank (Some line)
             && isBlank (head rest'))
      then i
      else sectionEnd start rest' (S i) len
  end.

Definition findStudentSection (lines : list jsstring) : option (list jsstring) :=
  let studentSectionStart :=
    match findIndexFrom (fun l => isListHeader (toLowerCase l)) lines 0 with
    | Some i => Some i
    | None => findIndexFrom (fun l => bool_decide (leadingNumber l ≠ None)) lines 0
    end in
  match studentSectionStart with
  | None => None
  | Some start =>
      let studentSectionEnd :=
        sectionEnd start (drop (start + 1) lines) (start + 1) (length lines) in
      Some (take (studentSectionEnd - start) (drop start lines))
  end.

(** A [Record<string, string>] as the list of its entries in the order
    [Object.entries] yields them: the keys that are array indices in
    increasing order, then the other keys in the order of creation. *)
Definition isArrayIndex (k : jsstring) : bool :=
  nonEmpty k && forallb isDigit k
  && (bool_decide (k = [0x30%N])
      || negb (bool_decide (head k = Some 0x30%N)))
  && (digitsValue k <? 2 ^ 32 - 1)%Z.

Fixpoint insertIndexKey (k v : jsstring) (obj : list (jsstring * jsstring))
  : list (jsstring * jsstring) :=
  match obj with
  | [] => [(k, v)]
  | e :: obj' =>
      if isArrayIndex e.1 && (digitsValue e.1 <? digitsValue k)%Z
      then e :: insertIndexKey k v obj'
      else (k, v) :: e :: obj'
  end.

(** [obj[k] = v] *)
Definition setProperty (k v : jsstring) (obj : list (jsstring * jsstring))
  : list (jsstring * jsstring) :=
  if existsb (fun e => bool_decide (e.1 = k)) obj
  then map (fun e => if bool_decide (e.1 = k) then (k, v) else e) obj
  else if isArrayIndex k then insertIndexKey k v obj
  else obj ++ [(k, v)].

(** [/^\s*(\d+)\s*[\|\s]*([؀-ۿ\s]+)/]: the two groups.  When no Arabic
    letter follows the separators, the matcher backtracks and the second
    group is the last white-space unit among them. *)
Definition numberThenName (line : jsstring) : option (jsstring * jsstring) :=
  let '(ds, r) := span_of isDigit (span_of isSpace line).2 in
  if nonEmpty ds then
    let '(w, r') := span_of (fun c => isSpace c || (c =? PIPE)%N) r in
    let '(a, _) := span_of (fun c => isArabic c || isSpace c) r' in
    if nonEmpty a then Some (ds, a)
    else match filter (fun c => isSpace c) (rev w) with
         | c :: _ => Some (ds, [c])
         | [] => None
         end
  else None.

(** [/^\s*(\d+)\s*$/]: the group. *)
Definition numberAlone (line : jsstring) : option jsstring :=
  let '(ds, r) := span_of isDigit (span_of isSpace line).2 in
  if nonEmpty ds && bool_decide ((span_of isSpace r).2 = []) then Some ds
  else None.

(** [line.match(/\d+/g)[0]] *)
Fixpoint firstDigitRun (s : jsstring) : option jsstring :=
  match s with
  | [] => None
  | c :: s' => if isDigit c then Some (span_of isDigit s).1 else firstDigitRun s'
  end.

(** The loop of [extractStudentInfoFromSection]; [skip] is set when the
    previous line has used this one as its name. *)
Fixpoint studentInfoLoop (section : list jsstring)
    (studentInfo : list (jsstring * jsstring)) (skip : bool)
  : list (jsstring * jsstring) :=
  match section with
  | [] => studentInfo
  | raw :: rest =>
      if skip then studentInfoLoop rest studentInfo false
      else
        let line := trim raw in
        if isListHeader line then studentInfoLoop rest studentInfo false
        else match numberThenName line with
        | Some (id, g2) =>
            studentInfoLoop rest (setProperty id (trim g2) studentInfo) false
        | None =>
            match numberAlone line with
            | Some id =>
                match rest with
                | next :: _ =>
                    if arabicOnly next
                    then studentInfoLoop rest
                           (setProperty id (trim next) studentInfo) true
                    else studentInfoLoop rest
                           (setProperty id (js "طالب " ++ id) studentInfo) false
                | [] =>
                    studentInfoLoop rest
                      (setProperty id (js "طالب " ++ id) studentInfo) false
                end
            | None =>
                if hasArabic line then
                  match firstDigitRun line with
                  | Some id =>
                      let name := trim (filter (fun c => negb (isDigit c)) line) in
                      if bool_decide (2 < length name)
                      then studentInfoLoop rest (setProperty id name studentInfo) false
                      else studentInfoLoop rest studentInfo false
                  | None => studentInfoLoop rest studentInfo false
                  end
                else studentInfoLoop rest studentInfo false
            end
        end
  end.

Definition extractStudentInfoFromSection (section : list jsstring)
  : list (jsstring * jsstring) :=
  studentInfoLoop section [] false.

Definition isMetadataLine (line : jsstring) : bool :=
  includes line (js "تاريخ") || includes line (js "الموسم")
  || includes line (js "الدراسي") || includes line (js "المملكة")
  || includes line (js "وزارة").

(** The marks a list of matched tokens contributes: each token with its
    first comma turned into a period, parsed, and kept when it is a
    number in the range 0 to 20. *)
Definition tokenMarks (tokens : list jsstring) : list Q :=
  omap (fun tok =>
          match parseFloat (replaceFirst [COMMA] [DOT] tok) with
          | Some markValue =>
              if inMarkRange markValue then Some markValue else None
          | None => None
          end) tokens.

Definition extractMarkValues (lines : list jsstring) : list Q :=
  concat (map (fun line =>
                 if isMetadataLine line then []
                 else tokenMarks (markTokens line)) lines).

(** The inner loop of [assignMarksToStudents]: the marks taken for one
    student and the new [markIndex]. *)
Definition takeMarks (markValues : list Q) (expected markIndex : nat)
  : list Q * nat :=
  foldl (fun '(studentMarks, markIndex) _ =>
           if bool_decide (markIndex < length markValues) then
             match markValues !! markIndex with
             | Some v => (studentMarks ++ [v], S markIndex)
             | None => (studentMarks, markIndex)
             end
           else (studentMarks, markIndex))
        ([], markIndex) (seq 0 expected).

(** [{ fard1: marks[0] !== undefined ? marks[0] : null, ... }] *)
Definition firstFour (marks : list Q) : StudentMarks :=
  {| fard1 := marks !! 0; fard2 := marks !! 1; fard3 := marks !! 2;
     activities := marks !! 3 |}.

(** [assignMarksToStudents].  An identifier that [parseInt] does not read
    would be NaN, for which the order [sort] produces is left to the
    implementation; the model stops with [None] there.  With no student at
    all the quotient is not used and the result is empty. *)
Definition assignMarksToStudents (studentInfo : list (jsstring * jsstring))
    (markValues : list Q) : option (list Student) :=
  entries ← mapM (fun e => id ← parseInt10 e.1; Some (id, e.2)) studentInfo;
  let studentEntries := sortBy (fun a b => (a.1 <=? b.1)%Z) entries in
  let expectedMarksPerStudent :=
    Nat.min 4 (length markValues / length studentEntries) in
  Some (foldl (fun '(students, markIndex) e =>
                 let '(studentMarks, markIndex') :=
                   takeMarks markValues expectedMarksPerStudent markIndex in
                 (students ++ [{| number := inject_Z e.1; name := e.2;
                                  marks := firstFour studentMarks |}],
                  markIndex'))
              ([], 0) studentEntries).1.

(** [extractStudentsByPatterns].  The keys that
    [extractStudentInfoFromSection] stores are strings of digits, so the
    last case does not arise. *)
Definition extractStudentsByPatterns (lines : list jsstring) : list Student :=
  match findStudentSection lines with
  | None => []
  | Some studentSection =>
      let studentInfo := extractStudentInfoFromSection studentSection in
      if bool_decide (length studentInfo = 0) then []
      else
        let markValues := extractMarkValues lines in
        match assignMarksToStudents studentInfo markValues with
        | Some students => students
        | None => []
        end
  end.

(** *** Basic extractor *)

(** The length of the match of [\d+([.,]\d+)?] at a digit. *)
Definition numberTokenLength (s : jsstring) : nat :=
  let '(ds, r) := span_of isDigit s in
  match r with
  | c :: r' =>
      let fs := (span_of isDigit r').1 in
      if isSep c && nonEmpty fs then length ds + 1 + length fs else length ds
  | [] => length ds
  end.

(** [s.replace(/\d+([.,]\d+)?/g, "")] *)
Fixpoint stripNumbers (s : jsstring) (skip : nat) : jsstring :=
  match s with
  | [] => []
  | c :: s' =>
      match skip with
      | S k => stripNumbers s' k
      | 0 =>
          if isDigit c then stripNumbers s' (numberTokenLength s - 1)
          else c :: stripNumbers s' 0
      end
  end.

(** The student of the line at [i] of [studentLines], if the line yields
    one. *)
Definition basicStudent (studentLines : list jsstring) (i : nat) (line : jsstring)
  : option Student :=
  match leadingNumber line with
  | None => None
  | Some digits =>
      let studentNumber := digitsValue digits in
      let studentName := trim (stripNumbers line 0) in
      let studentName :=
        if bool_decide (length studentName < 3)
           && bool_decide (i + 1 < length studentLines)
        then match studentLines !! (i + 1) with
             | Some next =>
                 if negb (bool_decide (leadingNumber next ≠ None))
                 then trim next else studentName
             | None => studentName
             end
        else studentName in
      let studentName :=
        if bool_decide (length studentName < 3)
        then js "طالب " ++ natDigits studentNumber
        else studentName in
      Some {| number := inject_Z studentNumber;
              name := studentName;
              marks := firstFour (tokenMarks (decimalTokens line)) |}
  end.

Definition extractBasicStudentData (lines : list jsstring) : list Student :=
  let studentLines :=
    filter (fun l => bool_decide (leadingNumber l ≠ None)) lines in
  omap id (imap (basicStudent studentLines) studentLines).

(** *** Pipeline coordinator *)

(** The strategies the coordinator can invoke. *)
Inductive Strategy := TableBased | PatternBased | Basic.

(** A computation together with the strategies it has invoked, in
    order. *)
Definition Traced (A : Type) : Type := list Strategy * A.

#[local] Instance traced_ret : MRet Traced := fun A x => ([], x).

#[local] Instance traced_bind : MBind Traced := fun A B k m =>
  let '(log1, x) := m in
  let '(log2, y) := k x in
  (log1 ++ log2, y).

Definition invoke {A} (s : Strategy) (result : A) : Traced A := ([s], result).

Section Coordinator.
(** The strategies, as the coordinator sees them: functions of the
    lines.  The table-based strategy yields nothing ([None]) when
    [detectTable] returns null. *)
Variable tableStrategy : list jsstring -> option (list Student).
Variable patternStrategy : list jsstring -> list Student.
Variable basicStrategy : list jsstring -> list Student.

(** Approaches 2 and 3. *)
Definition afterTable (lines : list jsstring) : Traced (list Student) :=
  studentsFromPatterns ← invoke PatternBased (patternStrategy lines);
  if bool_decide (0 < length studentsFromPatterns)
  then mret studentsFromPatterns
  else invoke Basic (basicStrategy lines).

(** The body of [processOCRWithMultipleApproaches] once the lines are
    built. *)
Definition coordinate (lines : list jsstring) : Traced (list Student) :=
  fromTable ← invoke TableBased (tableStrategy lines);
  match fromTable with
  | Some studentsFromTable =>
      if bool_decide (0 < length studentsFromTable)
      then mret studentsFromTable
      else afterTable lines
  | None => afterTable lines
  end.

End Coordinator.

(** [detectTable] followed, when it finds a structure, by
    [extractStudentData]. *)
Definition tableBased (lines : list jsstring) : option (list Student) :=
  extractStudentData <$> detectTable lines.

Definition processLines (lines : list jsstring) : Traced (list Student) :=
  coordinate tableBased extractStudentsByPatterns extractBasicStudentData lines.

Definition processOCRWithMultipleApproaches (extractedText : jsstring)
  : list Student :=
  (processLines (textLines extractedText)).2.

End OCRService.

(** ** Edit distance: the reference *)

Module Levenshtein.

Section Reference.
Context {A : Type} `{EqDecision A}.

Definition min3 (a b c : nat) : nat := Nat.min (Nat.min a b) c.

(** The textbook recurrence, on the first elements of both sequences. *)
Fixpoint lev (s : list A) : list A -> nat :=
  match s with
  | [] => fun t => length t
  | a :: s' =>
      fix lev_inner (t : list A) : nat :=
        match t with
        | [] => length s
        | b :: t' =>
            min3 (lev s' t + 1) (lev_inner t' + 1)
                 (lev s' t' + (if decide (a = b) then 0 else 1))
        end
  end.

(** One edit: insert, delete or replace a single element anywhere. *)
Inductive edit1 : list A -> list A -> Prop :=
| edit1_insert c l : edit1 l (c :: l)
| edit1_delete c l : edit1 (c :: l) l
| edit1_replace c d l : edit1 (c :: l) (d :: l)
| edit1_skip c l l' : edit1 l l' -> edit1 (c :: l) (c :: l').

(** [edits n s t]: [t] is reached from [s] by [n] successive edits. *)
Inductive edits : nat -> list A -> list A -> Prop :=
| edits_done s : edits 0 s s
| edits_more n s t u : edits n s t -> edit1 t u -> edits (S n) s u.

(** [aligned n s t]: a left-to-right alignment of [s] with [t] that
    costs [n]. *)
Inductive aligned : nat -> list A -> list A -> Prop :=
| al_nil : aligned 0 [] []
| al_keep n a s t : aligned n s t -> aligned n (a :: s) (a :: t)
| al_sub n a b s t : aligned n s t -> aligned (S n) (a :: s) (b :: t)
| al_ins n b s t : aligned n s t -> aligned (S n) s (b :: t)
| al_del n a s t : aligned n s t -> aligned (S n) (a :: s) t.

(** [s] becomes [t] in [n] edits and in no fewer. *)
Definition is_edit_distance (n : nat) (s t : list A) : Prop :=
  edits n s t /\ forall m, edits m s t -> n <= m.

End Reference.

(** Entry [(i, j)] of the dynamic-programming table of two strings: the
    distance between the prefixes of lengths [i] and [j]. *)
Definition lev_table (s1 s2 : list N) (i j : nat) : nat :=
  lev (take i s1) (take j s2).

End Levenshtein.
Import Levenshtein.

(** ** ExcelService: fuzzy matching *)

Module ExcelService.

(** [costs[j]]: reading an index that was never written yields
    [undefined]; the model stops with [None] there.  *)
Definition read (costs : gmap nat nat) (j : nat) : option nat := costs !! j.

(** The state of the inner loop: the array and [lastValue]. *)
Record row_state := RowState { costs : gmap nat nat; lastValue : nat }.

(** Body of [for (let j = 0; j <= s2.length; j++)]. *)
Definition inner_body (s1 s2 : jsstring) (i : nat) (st : row_state) (j : nat)
  : option row_state :=
  if bool_decide (i = 0) then
    Some (RowState (<[j := j]> (costs st)) (lastValue st))
  else if bool_decide (0 < j) then
    newValue ← read (costs st) (j - 1);
    newValue' ←
      (if bool_decide (charAt s1 (i - 1) ≠ charAt s2 (j - 1)) then
         cj ← read (costs st) j;
         Some (Nat.min (Nat.min newValue (lastValue st)) cj + 1)
       else Some newValue);
    Some (RowState (<[j - 1 := lastValue st]> (costs st)) newValue')
  else Some st.

Definition inner_loop (s1 s2 : jsstring) (i : nat) (st : row_state)
  : option row_state :=
  foldl (fun acc j => st' ← acc; inner_body s1 s2 i st' j)
        (Some st) (seq 0 (S (length s2))).

(** Body of [for (let i = 0; i <= s1.length; i++)]. *)
Definition outer_body (s1 s2 : jsstring) (cs : gmap nat nat) (i : nat)
  : option (gmap nat nat) :=
  st ← inner_loop s1 s2 i (RowState cs i);
  if bool_decide (0 < i)
  then Some (<[length s2 := lastValue st]> (costs st))
  else Some (costs st).

Definition editDistance (s1 s2 : jsstring) : option nat :=
  cs ← foldl (fun acc i => cs ← acc; outer_body s1 s2 cs i)
             (Some ∅) (seq 0 (S (length s1)));
  read cs (length s2).

(** [calculateSimilarity]: the quotient is an exact rational. *)
Definition calculateSimilarity (s1 s2 : jsstring) : option Q :=
  if str_eqb s1 s2 then Some 1%Q
  else
    let longer := if bool_decide (length s2 < length s1) then s1 else s2 in
    let shorter := if bool_decide (length s2 < length s1) then s2 else s1 in
    if bool_decide (length longer = 0) then Some 1%Q
    else if includes longer shorter then Some (9 # 10)%Q
    else
      d ← editDistance longer shorter;
      Some ((inject_Z (Z.of_nat (length longer)) - inject_Z (Z.of_nat d))
            / inject_Z (Z.of_nat (length longer)))%Q.

(** [similarity > 0.7].  The similarity is 1, 0.9 or a quotient of two
    string lengths, which exceeds the double 0.7 exactly when the exact
    quotient exceeds 7/10. *)
Definition compareNames (name1 name2 : jsstring) : option bool :=
  similarity ← calculateSimilarity name1 name2;
  Some (negb (Qle_bool similarity (7 # 10))).

(** A raw worksheet value ([any] in the source): text, a number or a
    boolean; a missing element ([undefined]) is [None] of the option type.
    Numbers are those a roster holds in an identifier column: integers. *)
Inductive CellValue :=
| VStr (s : jsstring)
| VNum (n : Z)
| VBool (b : bool).

(** [ToBoolean] *)
Definition truthy (v : option CellValue) : bool :=
  match v with
  | None => false
  | Some (VStr s) => negb (bool_decide (s = []))
  | Some (VNum n) => negb (n =? 0)%Z
  | Some (VBool b) => b
  end.

(** [v.toString()] *)
Definition toString (v : CellValue) : jsstring :=
  match v with
  | VStr s => s
  | VNum n => js (NilZero.string_of_int (Z.to_int n))
  | VBool true => js "true"
  | VBool false => js "false"
  end.

(** [row[c]], for a column number that may be negative (ExcelService uses
    -1 for a column it did not find). *)
Definition at_column (row : list CellValue) (c : Z) : option CellValue :=
  if (c <? 0)%Z then None else row !! Z.to_nat c.

(** [c < row.length] *)
Definition column_below_length (row : list CellValue) (c : Z) : bool :=
  (c <? Z.of_nat (length row))%Z.

(** [s.replace(/[^0-9]/g, "")] *)
Definition digitsOnly (s : jsstring) : jsstring := filter (fun c => isDigit c) s.

(** The test of one roster row in [findStudentRowByNumber]. *)
Definition numberRowTest (numColumn : Z) (cleanStudentNum : jsstring)
    (row : list CellValue) : bool :=
  column_below_length row numColumn &&
  match at_column row numColumn with
  | Some cellValue =>
      truthy (Some cellValue) &&
      (let cellStrValue := digitsOnly (toString cellValue) in
       endsWith cellStrValue cleanStudentNum
       || endsWith cleanStudentNum cellStrValue)
  | None => false
  end.

(** [for (let i = ...; i < values.length; i++) { if (test) return i; }
    return -1;] over the rows that remain, [i] being the index of the
    first of them. *)
Fixpoint scanRows {A} (test : A -> bool) (rows : list A) (i : nat) : Z :=
  match rows with
  | [] => (-1)%Z
  | row :: rest => if test row then Z.of_nat i else scanRows test rest (S i)
  end.

(** [numColumn] is [worksheetStructure.studentNumberColumn]. *)
Definition findStudentRowByNumber (numColumn : Z) (studentNum : jsstring)
    (values : list (list CellValue)) : Z :=
  let cleanStudentNum := digitsOnly studentNum in
  scanRows (numberRowTest numColumn cleanStudentNum) (drop 1 values) 1.

Section NameMatching.
(** Two functions of the JavaScript runtime are taken as given:
    [String.prototype.normalize("NFKD")] and
    [String.prototype.toLowerCase]. *)
Variable nfkd : jsstring -> jsstring.
Variable toLowerCase : jsstring -> jsstring.

(** The chain of [replace] calls of [normalizeArabicText]. *)
Definition stripMarks (s : jsstring) : jsstring :=
  filter (fun c => negb ((0x0300 <=? c)%N && (c <=? 0x036F)%N)) s.

Definition foldLetter (c : char) : char :=
  if (c =? 0x0623)%N || (c =? 0x0625)%N || (c =? 0x0622)%N then 0x0627%N
  else if (c =? 0x0629)%N then 0x0647%N
  else if (c =? 0x0649)%N then 0x064A%N
  else c.

(** [normalizeArabicText].  [None] is the TypeError of calling
    [normalize] on a truthy value that is not a string. *)
Definition normalizeArabicText (text : option CellValue) : option jsstring :=
  if negb (truthy text) then Some []
  else match text with
       | Some (VStr s) =>
           Some (toLowerCase (trim (map foldLetter (stripMarks (nfkd s)))))
       | _ => None
       end.

(** The test of one roster row in [findStudentRowByName]. *)
Definition nameRowTest (nameColumn : Z) (nameToFind : jsstring)
    (row : list CellValue) : option bool :=
  if column_below_length row nameColumn then
    cellName ← normalizeArabicText (at_column row nameColumn);
    compareNames nameToFind cellName
  else Some false.

(** The same loop as [scanRows], with a test that may throw. *)
Fixpoint scanRowsExn {A} (test : A -> option bool) (rows : list A) (i : nat)
  : option Z :=
  match rows with
  | [] => Some (-1)%Z
  | row :: rest =>
      b ← test row;
      if b : bool then Some (Z.of_nat i) else scanRowsExn test rest (S i)
  end.

(** [nameColumn] is [worksheetStructure.studentNameColumn]. *)
Definition findStudentRowByName (nameColumn : Z) (studentName : jsstring)
    (values : list (list CellValue)) : option Z :=
  nameToFind ← normalizeArabicText (Some (VStr studentName));
  scanRowsExn (nameRowTest nameColumn nameToFind) (drop 1 values) 1.

End NameMatching.

End ExcelService.

(** ** Specification of the matching *)

Module MatchingSpec.
Import ExcelService.

(** [p] occurs in [s] as a contiguous substring. *)
Definition is_substring (p s : jsstring) : Prop :=
  exists a b, s = a ++ p ++ b.

(** [r] is the index of the first row of [values], from row 1 down, that
    [accepts] takes, and -1 when it takes none. *)
Definition FirstMatch (accepts : list CellValue -> Prop)
    (values : list (list CellValue)) (r : Z) : Prop :=
  (r = (-1)%Z /\
   forall i row, 1 <= i -> values !! i = Some row -> ~ accepts row)
  \/
  (exists i row,
      r = Z.of_nat i /\ 1 <= i /\ values !! i = Some row /\ accepts row /\
      forall j row', 1 <= j < i -> values !! j = Some row' -> ~ accepts row').

(** One cleaned string is a suffix of the other. *)
Definition suffixEitherWay (a b : jsstring) : Prop :=
  a `suffix_of` b \/ b `suffix_of` a.

(** The row has a cell in the identifier column whose digits and those of
    the target are one a suffix of the other. *)
Definition idSuffixRow (numColumn : Z) (studentNum : jsstring)
    (row : list CellValue) : Prop :=
  exists cell,
    at_column row numColumn = Some cell /\
    suffixEitherWay (digitsOnly studentNum) (digitsOnly (toString cell)).

(** The same, for a cell that is not empty (truthy). *)
Definition idAcceptedRow (numColumn : Z) (studentNum : jsstring)
    (row : list CellValue) : Prop :=
  exists cell,
    at_column row numColumn = Some cell /\
    truthy (Some cell) = true /\
    suffixEitherWay (digitsOnly studentNum) (digitsOnly (toString cell)).

(** The identifier cell of the row is not empty. *)
Definition idCellFilled (numColumn : Z) (row : list CellValue) : Prop :=
  truthy (at_column row numColumn) = true.

(** The name column of the roster holds text: every cell of it, from row 1
    down, is a string or is empty. *)
Definition nameColumnIsText (nameColumn : Z) (values : list (list CellValue))
  : Prop :=
  forall i row, 1 <= i -> values !! i = Some row ->
    truthy (at_column row nameColumn) = true ->
    exists s, at_column row nameColumn = Some (VStr s).

(** The similarity the specification gives for two normalised names, [longer]
    being one of the longest of the two and [shorter] the other. *)
Definition similarityScore (s1 s2 longer shorter : jsstring) (q : Q) : Prop :=
  (s1 = s2 -> q = 1%Q) /\
  (s1 <> s2 -> is_substring shorter longer -> q = (9 # 10)%Q) /\
  (s1 <> s2 -> ~ is_substring shorter longer ->
   q = ((inject_Z (Z.of_nat (length longer))
         - inject_Z (Z.of_nat (lev longer shorter)))
        / inject_Z (Z.of_nat (length longer)))%Q).

Section Names.
Variable nfkd : jsstring -> jsstring.
Variable toLowerCase : jsstring -> jsstring.

(** The similarity of the normalised name of the row to the normalised
    target exceeds 0.70. *)
Definition nameQualifiedRow (nameColumn : Z) (studentName : jsstring)
    (row : list CellValue) : Prop :=
  (nameColumn < Z.of_nat (length row))%Z /\
  exists target cellName similarity,
    normalizeArabicText nfkd toLowerCase (Some (VStr studentName)) = Some target /\
    normalizeArabicText nfkd toLowerCase (at_column row nameColumn) = Some cellName /\
    calculateSimilarity target cellName = Some similarity /\
    (7 # 10 < similarity)%Q.

(** What the test of one row amounts to when its name cell is text. *)
Definition nameRowVerdict (nameColumn : Z) (target : jsstring)
    (row : list CellValue) : bool :=
  column_below_length row nameColumn &&
  match normalizeArabicText nfkd toLowerCase (at_column row nameColumn) with
  | Some cellName =>
      match compareNames target cellName with
      | Some b => b
      | None => false
      end
  | None => false
  end.

End Names.

End MatchingSpec.
Import MatchingSpec.

(** ** Specification of the numeric cells *)

Module GridSpec.

(** The text of a cell with its decimal commas turned into periods and
    trimmed. *)
Definition cleaned (text : jsstring) : jsstring :=
  trim (map (fun c => if (c =? COMMA)%N then DOT else c) text).

Definition digitString (ds : jsstring) : Prop :=
  ds <> [] /\ forallb isDigit ds = true.

(** The whole text is digits, optionally followed by a period and
    digits. *)
Definition plainDecimal (s : jsstring) : Prop :=
  exists ip, digitString ip /\
    (s = ip \/ exists fp, digitString fp /\ s = ip ++ DOT :: fp).

(** Somewhere in the text a digit, a period or comma, and a digit follow
    one another: that is where [\d{1,2}[.,]\d{1,2}] finds a match. *)
Definition hasDecimalPair (s : jsstring) : Prop :=
  exists pre d1 c d2 post,
    s = pre ++ d1 :: c :: d2 :: post
    /\ isDigit d1 = true /\ isSep c = true /\ isDigit d2 = true.

End GridSpec.
Import GridSpec.

(** ** Specification of the distribution and of the mark bounds *)

Module DistributionSpec.

(** The record the distribution stage builds for the student at position
    [k] of the sorted list, [m] marks being given to each student. *)
Definition studentAt (markValues : list Q) (m k : nat) (e : Z * jsstring)
  : Student :=
  {| number := inject_Z e.1;
     name := e.2;
     marks := OCRService.firstFour (take m (drop (k * m) markValues)) |}.

(** Ascending numeric identifiers. *)
Definition byId (a b : Z * jsstring) : Prop := (a.1 <= b.1)%Z.

(** No non-null slot of the record is outside 0 to 20. *)
Definition marksInRange (st : Student) : Prop :=
  forall v, Some v ∈ slots (marks st) -> (0 <= v)%Q /\ (v <= 20)%Q.

(** No non-null slot of the record is negative. *)
Definition marksNonNegative (st : Student) : Prop :=
  forall v, Some v ∈ slots (marks st) -> (0 <= v)%Q.

(** The value of the cell, if it has one, is not negative. *)
Definition cellNonNegative (c : TableDetectionService.TableCell) : Prop :=
  forall v, TableDetectionService.value c = Some v -> (0 <= v)%Q.

End DistributionSpec.
Import DistributionSpec.

(** ** Specification of the table structure *)

Module StructureSpec.
Import TableDetectionService.

(** [c] is the index of a column of the table. *)
Definition validColumn (ts : TableStructure) (c : Z) : Prop :=
  (0 <= c < Z.of_nat (colCount ts))%Z.

(** The identifier column, the name column and the mark columns are valid
    column indices, no two of them the same. *)
Definition columnsDistinctAndValid (ts : TableStructure) : Prop :=
  validColumn ts (studentIdColumn ts)
  /\ validColumn ts (studentNameColumn ts)
  /\ studentIdColumn ts <> studentNameColumn ts
  /\ NoDup (markColumns ts)
  /\ Forall (fun m => validColumn ts (Z.of_nat m)
                      /\ Z.of_nat m <> studentIdColumn ts
                      /\ Z.of_nat m <> studentNameColumn ts)
            (markColumns ts).

(** The columns of a structure, for display. *)
Definition columnsOf (ts : TableStructure) : Z * Z * list nat * nat :=
  (studentIdColumn ts, studentNameColumn ts, markColumns ts, colCount ts).

End StructureSpec.
Import StructureSpec.

(** ** ExcelService: the worksheet structure and the insertion of marks *)

Module ExcelInsertion.
Import ExcelService.

(** [cell ? cell.toString() : ""] *)
Definition cellText (cell : CellValue) : jsstring :=
  if truthy (Some cell) then toString cell else [].

(** [cell && typeof cell === "string" && p(cell.toString())] *)
Definition stringCell (p : jsstring -> bool) (cell : option CellValue) : bool :=
  match cell with
  | Some (VStr s) => nonEmpty s && p s
  | _ => false
  end.

Definition headerKeywords : list jsstring :=
  [js "رقم التلميذ"; js "إسم التلميذ"; js "تاريخ"; js "الفرض"].

(** The test [extractHeaders] applies to a row. *)
Definition hasHeaderKeyword (row : list CellValue) : bool :=
  existsb (fun cell =>
             stringCell (fun s => existsb (fun keyword => includes s keyword)
                                          headerKeywords)
                        (Some cell))
          row.

(** [extractHeaders].  [None] is the TypeError of [values[0].map] when
    [values] is empty. *)
Definition extractHeaders (values : list (list CellValue))
  : option (list jsstring) :=
  match findIndexFrom hasHeaderKeyword
          (take (Nat.min 10 (length values)) values) 0 with
  | Some i => map cellText <$> values !! i
  | None => map cellText <$> values !! 0
  end.

(** [headers.findIndex((h) => keywords.some((k) => h && includes(h, k)))],
    where [includes(h, k)] is [h.toString().includes(k)]; [None] is -1. *)
Definition headerIndex (keywords headers : list jsstring) : option nat :=
  findIndexFrom
    (fun h => existsb (fun k => nonEmpty h && includes h k) keywords)
    headers 0.

(** The counter of the inner loop of the two column finders: the rows 1
    to [Math.min(values.length, 10) - 1] whose cell
    [values[rowIndex][colIndex]] passes the test. *)
Definition sampleCount (test : option CellValue -> bool)
    (values : list (list CellValue)) (colIndex : nat) : nat :=
  length (filter (fun row => test (row !! colIndex))
                 (drop 1 (take (Nat.min (length values) 10) values))).

(** The first column below [limit] whose counter exceeds 5. *)
Definition sampledColumn (test : option CellValue -> bool)
    (values : list (list CellValue)) (limit : nat) : option nat :=
  findIndexFrom
    (fun colIndex => bool_decide (5 < sampleCount test values colIndex))
    (seq 0 limit) 0.

Definition nameHeaders : list jsstring :=
  [js "الاسم الكامل"; js "اسم التلميذ"; js "إسم التلميذ"; js "الاسم"; js "اسم";
   js "التلميذ"].

(** [findStudentNameColumn]; the pattern is [/^[؀-ۿ\s]+$/]. *)
Definition findStudentNameColumn (values : list (list CellValue)) : option Z :=
  headers ← extractHeaders values;
  match headerIndex nameHeaders headers with
  | Some i => Some (Z.of_nat i)
  | None =>
      match sampledColumn (stringCell arabicOnly) values
              (Nat.min (length headers) 10) with
      | Some colIndex => Some (Z.of_nat colIndex)
      | None => Some (-1)%Z
      end
  end.

Definition numberHeaders : list jsstring :=
  [js "رقم التلميذ"; js "رقم"; js "ر.ت"; js "الرقم"].

(** [/^[GgJj]?\d{7,}$|^\d{1,2}$/] *)
Definition manyDigits (s : jsstring) : bool :=
  bool_decide (7 <= length s) && forallb isDigit s.

Definition numberPattern (s : jsstring) : bool :=
  manyDigits s
  || match s with
     | c :: r =>
         ((c =? 0x47)%N || (c =? 0x67)%N || (c =? 0x4A)%N || (c =? 0x6A)%N)
         && manyDigits r
     | [] => false
     end
  || (bool_decide (1 <= length s) && bool_decide (length s <= 2)
      && forallb isDigit s).

(** [cell && (typeof cell === "number" || (typeof cell === "string"
    && numberPattern.test(cell.toString())))] *)
Definition numberCell (cell : option CellValue) : bool :=
  match cell with
  | Some (VNum n) => negb (n =? 0)%Z
  | Some (VStr s) => nonEmpty s && numberPattern s
  | _ => false
  end.

(** [findStudentNumberColumn] *)
Definition findStudentNumberColumn (values : list (list CellValue)) : option Z :=
  headers ← extractHeaders values;
  match headerIndex numberHeaders headers with
  | Some i => Some (Z.of_nat i)
  | None =>
      match sampledColumn numberCell values (Nat.min (length headers) 5) with
      | Some colIndex => Some (Z.of_nat colIndex)
      | None => Some 0%Z
      end
  end.

(** [MarkType] *)
Inductive MarkType := Fard1 | Fard2 | Fard3 | Activities.

(** [WorksheetStructure]; [markColumns] is a [Record<MarkType, number>]. *)
Record WorksheetStructure := {
  headers : list jsstring;
  studentNameColumn : Z;
  studentNumberColumn : Z;
  totalRows : nat;
  markColumns : MarkType -> Z
}.

Record MarkInsertionResults := {
  success : nat;
  notFound : nat;
  notFoundStudents : list jsstring
}.

Definition markTypeMap : list (jsstring * MarkType) :=
  [(js "الفرض 1", Fard1); (js "الفرض الأول", Fard1);
   (js "الفرض 2", Fard2); (js "الفرض الثاني", Fard2);
   (js "الفرض 3", Fard3); (js "الفرض الثالث", Fard3);
   (js "الأنشطة", Activities); (js "النشاط", Activities)].

(** The names every object literal inherits from [Object.prototype]; what
    they give is a function or an object. *)
Definition inheritedNames : list jsstring :=
  [js "constructor"; js "hasOwnProperty"; js "isPrototypeOf";
   js "propertyIsEnumerable"; js "toLocaleString"; js "toString";
   js "valueOf"; js "__proto__"; js "__defineGetter__";
   js "__defineSetter__"; js "__lookupGetter__"; js "__lookupSetter__"].

(** What [markTypeMap[arabicMarkType] || null] can be: a mark type, an
    inherited function or object (which is truthy), or null. *)
Inductive MarkTypeLookup :=
| OwnMarkType (t : MarkType)
| InheritedValue
| NoMarkType.

Definition getInternalMarkType (arabicMarkType : jsstring) : MarkTypeLookup :=
  match find (fun e => str_eqb e.1 arabicMarkType) markTypeMap with
  | Some e => OwnMarkType e.2
  | None =>
      if existsb (fun k => str_eqb k arabicMarkType) inheritedNames
      then InheritedValue else NoMarkType
  end.

(** [student.marks[internalMarkType]] *)
Definition markOfType (m : StudentMarks) (t : MarkType) : option Q :=
  match t with
  | Fard1 => fard1 m
  | Fard2 => fard2 m
  | Fard3 => fard3 m
  | Activities => activities m
  end.

(** [String(v)], with the sign [numberToString] leaves out. *)
Definition numberString (v : Q) : jsstring :=
  if Qle_bool 0 v then numberToString v
  else 0x2D%N :: numberToString (- v).

(** [formatMarkForMassar]: [parseFloat(mark.toString())] is [mark], and
    [toFixed(2)] writes the nearest multiple of 1/100 (the larger one on a
    tie, taken on the exact value) with two decimals.  *)
Definition formatMarkForMassar (mark : Q) : jsstring :=
  let x := if Qle_bool 0 mark then mark else (- mark)%Q in
  let n := Qfloor (x * 100 + (1 # 2)) in
  (if Qle_bool 0 mark then [] else [0x2D%N])
  ++ natDigits (n / 100)
  ++ [DOT; (0x30 + Z.to_N (n mod 100 / 10))%N; (0x30 + Z.to_N (n mod 10))%N].

(** [sheet.getCell(rowIndex, columnIndex).values = [[text]]] *)
Record CellWrite := {
  writeRow : Z;
  writeColumn : Z;
  writeText : jsstring
}.

Section Insertion.
Variable nfkd : jsstring -> jsstring.
Variable toLowerCase : jsstring -> jsstring.

(** The row [insertMarks] finds for a student: by number, and by name when
    the number gives -1.  [None] is the exception of the name search. *)
Definition studentRow (ws : WorksheetStructure) (values : list (list CellValue))
    (student : Student) : option Z :=
  let rowIndex :=
    findStudentRowByNumber (studentNumberColumn ws)
      (numberString (number student)) values in
  if (rowIndex =? -1)%Z
  then findStudentRowByName nfkd toLowerCase (studentNameColumn ws)
         (name student) values
  else Some rowIndex.

(** The body of [for (const student of extractedData)]: the results and
    the cells written so far.  With an inherited value for the mark type,
    [markColumns] and [student.marks] give [undefined] and
    [formatMarkForMassar(undefined)] throws. *)
Definition insertMark (ws : WorksheetStructure) (markType : jsstring)
    (values : list (list CellValue))
    (acc : MarkInsertionResults * list CellWrite) (student : Student)
  : option (MarkInsertionResults * list CellWrite) :=
  let '(results, writes) := acc in
  rowIndex ← studentRow ws values student;
  if (rowIndex =? -1)%Z then
    Some ({| success := success results;
             notFound := S (notFound results);
             notFoundStudents := notFoundStudents results ++ [name student] |},
          writes)
  else
    match getInternalMarkType markType with
    | NoMarkType => Some acc
    | InheritedValue => None
    | OwnMarkType internalMarkType =>
        let columnIndex := markColumns ws internalMarkType in
        if (columnIndex =? -1)%Z then Some acc
        else
          match markOfType (marks student) internalMarkType with
          | Some markValue =>
              Some ({| success := S (success results);
                       notFound := notFound results;
                       notFoundStudents := notFoundStudents results |},
                    writes ++ [{| writeRow := rowIndex;
                                  writeColumn := columnIndex;
                                  writeText := formatMarkForMassar markValue |}])
          | None => Some acc
          end
    end.

(** [insertMarks]: the results, and the cells written in order.  [None]
    is a rejected promise: no worksheet structure, or an exception in the
    loop. *)
Definition insertMarks (worksheetStructure : option WorksheetStructure)
    (extractedData : list Student) (markType : jsstring)
    (values : list (list CellValue))
  : option (MarkInsertionResults * list CellWrite) :=
  ws ← worksheetStructure;
  foldl (fun acc student => a ← acc; insertMark ws markType values a student)
        (Some ({| success := 0; notFound := 0; notFoundStudents := [] |}, []))
        extractedData.

End Insertion.

End ExcelInsertion.

(** * Properties *)

(** ** The reference distance is the least number of edits *)

Section LevenshteinFacts.
Context {A : Type} `{EqDecision A}.
Implicit Types (s t u : list A) (a b c : A) (n m : nat).

Lemma lev_nil_l t : lev [] t = length t.
Proof. reflexivity. Qed.

Lemma lev_nil_r s : lev s [] = length s.
Proof. destruct s; reflexivity. Qed.

Lemma lev_cons a s b t :
  lev (a :: s) (b :: t) =
  min3 (lev s (b :: t) + 1) (lev (a :: s) t + 1)
       (lev s t + (if decide (a = b) then 0 else 1)).
Proof. reflexivity. Qed.

#[local] Opaque lev.

Lemma aligned_nil_l t : aligned (length t) [] t.
Proof. induction t; simpl; constructor; assumption. Qed.

Lemma aligned_nil_r s : aligned (length s) s [].
Proof. induction s; simpl; constructor; assumption. Qed.

Lemma aligned_refl s : aligned 0 s s.
Proof. induction s; constructor; assumption. Qed.

Lemma aligned_sym n s t : aligned n s t -> aligned n t s.
Proof. induction 1; constructor; assumption. Qed.

Lemma aligned_app n s t m s' t' :
  aligned n s t -> aligned m s' t' -> aligned (n + m) (s ++ s') (t ++ t').
Proof.
  intros H1 H2. induction H1; simpl; try (constructor; assumption).
  assumption.
Qed.

Lemma aligned_rev n s t : aligned n s t -> aligned n (rev s) (rev t).
Proof.
  induction 1; simpl.
  - constructor.
  - replace n with (n + 0) by lia. apply aligned_app; [assumption|].
    apply aligned_refl.
  - replace (S n) with (n + 1) by lia. apply aligned_app; [assumption|].
    apply al_sub, al_nil.
  - replace (S n) with (n + 1) by lia.
    rewrite <- (app_nil_r (rev s)). apply aligned_app; [assumption|].
    apply al_ins, al_nil.
  - replace (S n) with (n + 1) by lia.
    rewrite <- (app_nil_r (rev t)). apply aligned_app; [assumption|].
    apply al_del, al_nil.
Qed.

(** The recurrence builds an alignment of its own cost ... *)
Lemma lev_aligned s t : aligned (lev s t) s t.
Proof.
  revert t. induction s as [|a s IHs]; intros t.
  - rewrite lev_nil_l. apply aligned_nil_l.
  - induction t as [|b t IHt].
    + rewrite lev_nil_r. apply aligned_nil_r.
    + rewrite lev_cons. unfold min3.
      destruct (Nat.min_spec (lev s (b :: t) + 1) (lev (a :: s) t + 1))
        as [[_ ->]|[_ ->]];
      match goal with |- context [Nat.min ?x ?y] =>
        destruct (Nat.min_spec x y) as [[_ ->]|[_ ->]] end.
      * rewrite Nat.add_1_r. apply al_del, IHs.
      * destruct (decide (a = b)) as [->|_].
        -- rewrite Nat.add_0_r. apply al_keep, IHs.
        -- rewrite Nat.add_1_r. apply al_sub, IHs.
      * rewrite Nat.add_1_r. apply al_ins, IHt.
      * destruct (decide (a = b)) as [->|_].
        -- rewrite Nat.add_0_r. apply al_keep, IHs.
        -- rewrite Nat.add_1_r. apply al_sub, IHs.
Qed.

(** ... and no alignment is cheaper. *)
Lemma lev_le_aligned n s t : aligned n s t -> lev s t <= n.
Proof.
  induction 1 as [|n a s t _ IH|n a b s t _ IH|n b s t _ IH|n a s t _ IH].
  - rewrite lev_nil_l. simpl. lia.
  - rewrite lev_cons. unfold min3. rewrite decide_True by reflexivity. lia.
  - rewrite lev_cons. unfold min3. destruct (decide (a = b)); lia.
  - destruct s as [|a s].
    + rewrite lev_nil_l in *. simpl. lia.
    + rewrite lev_cons. unfold min3. lia.
  - destruct t as [|b t].
    + rewrite lev_nil_r in *. simpl. lia.
    + rewrite lev_cons. unfold min3. lia.
Qed.

Lemma lev_sym s t : lev s t = lev t s.
Proof.
  apply Nat.le_antisymm; apply lev_le_aligned, aligned_sym, lev_aligned.
Qed.

Lemma lev_rev s t : lev (rev s) (rev t) = lev s t.
Proof.
  apply Nat.le_antisymm.
  - apply lev_le_aligned, aligned_rev, lev_aligned.
  - rewrite <- (rev_involutive s), <- (rev_involutive t) at 1.
    apply lev_le_aligned, aligned_rev, lev_aligned.
Qed.

(** An alignment followed by one more edit is an alignment that costs at
    most one more. *)
Lemma aligned_edit1 n s t u :
  aligned n s t -> edit1 t u -> exists m, m <= S n /\ aligned m s u.
Proof.
  intros Hal. revert u.
  induction Hal as [|n a s t Hal IH|n a b s t Hal IH|n b s t Hal IH
                   |n a s t Hal IH]; intros u Hu.
  - inversion Hu; subst. exists 1. split; [lia|]. apply al_ins, al_nil.
  - inversion Hu; subst.
    + exists (S n). split; [lia|]. apply al_ins, al_keep, Hal.
    + exists (S n). split; [lia|]. apply al_del, Hal.
    + exists (S n). split; [lia|]. apply al_sub, Hal.
    + destruct (IH _ ltac:(eassumption)) as (m & Hm & Hal').
      exists m. split; [lia|]. apply al_keep, Hal'.
  - inversion Hu; subst.
    + exists (S (S n)). split; [lia|]. apply al_ins, al_sub, Hal.
    + exists (S n). split; [lia|]. apply al_del, Hal.
    + exists (S n). split; [lia|]. apply al_sub, Hal.
    + destruct (IH _ ltac:(eassumption)) as (m & Hm & Hal').
      exists (S m). split; [lia|]. apply al_sub, Hal'.
  - inversion Hu; subst.
    + exists (S (S n)). split; [lia|]. apply al_ins, al_ins, Hal.
    + exists n. split; [lia|]. exact Hal.
    + exists (S n). split; [lia|]. apply al_ins, Hal.
    + destruct (IH _ ltac:(eassumption)) as (m & Hm & Hal').
      exists (S m). split; [lia|]. apply al_ins, Hal'.
  - destruct (IH _ Hu) as (m & Hm & Hal').
    exists (S m). split; [lia|]. apply al_del, Hal'.
Qed.

Lemma edits_aligned n s t : edits n s t -> exists m, m <= n /\ aligned m s t.
Proof.
  induction 1 as [s|n s t u _ (m & Hm & Hal) Hu].
  - exists 0. split; [lia|]. apply aligned_refl.
  - destruct (aligned_edit1 _ _ _ _ Hal Hu) as (m' & Hm' & Hal').
    exists m'. split; [lia|]. exact Hal'.
Qed.

Lemma edits_skip n a s t : edits n s t -> edits n (a :: s) (a :: t).
Proof.
  induction 1 as [|n s t u _ IH Hu]; [constructor|].
  eapply edits_more; [exact IH|]. apply edit1_skip, Hu.
Qed.

Lemma aligned_edits n s t : aligned n s t -> edits n s t.
Proof.
  induction 1 as [|n a s t _ IH|n a b s t _ IH|n b s t _ IH|n a s t _ IH].
  - constructor.
  - apply edits_skip, IH.
  - eapply edits_more; [apply (edits_skip _ a), IH|]. apply edit1_replace.
  - eapply edits_more; [exact IH|]. apply edit1_insert.
  - eapply edits_more; [apply (edits_skip _ a), IH|]. apply edit1_delete.
Qed.

Theorem lev_is_edit_distance s t : is_edit_distance (lev s t) s t.
Proof.
  split.
  - apply aligned_edits, lev_aligned.
  - intros m Hm. destruct (edits_aligned _ _ _ Hm) as (k & Hk & Hal).
    apply lev_le_aligned in Hal. lia.
Qed.

Lemma is_edit_distance_unique n m s t :
  is_edit_distance n s t -> is_edit_distance m s t -> n = m.
Proof.
  intros [H1 H2] [H3 H4]. apply Nat.le_antisymm; auto.
Qed.

Lemma edit1_drop_last t b : edit1 (t ++ [b]) t.
Proof. induction t; simpl; constructor; assumption. Qed.

Lemma lev_drop_last_r s t b : lev s t <= lev s (t ++ [b]) + 1.
Proof.
  destruct (aligned_edit1 _ _ _ _ (lev_aligned s (t ++ [b]))
              (edit1_drop_last t b)) as (m & Hm & Hal).
  apply lev_le_aligned in Hal. lia.
Qed.

Lemma lev_drop_last_l s t a : lev s t <= lev (s ++ [a]) t + 1.
Proof.
  rewrite (lev_sym s t), (lev_sym (s ++ [a]) t). apply lev_drop_last_r.
Qed.

(** The recurrence read on the last elements, in the shape the loop of
    [editDistance] evaluates it. *)
Lemma lev_snoc s a t b :
  lev (s ++ [a]) (t ++ [b]) =
  if decide (a = b) then lev s t
  else Nat.min (Nat.min (lev s t) (lev (s ++ [a]) t)) (lev s (t ++ [b])) + 1.
Proof.
  rewrite <- (lev_rev (s ++ [a]) (t ++ [b])), !rev_unit, lev_cons.
  replace (b :: rev t) with (rev (t ++ [b])) by apply rev_unit.
  replace (a :: rev s) with (rev (s ++ [a])) by apply rev_unit.
  rewrite !lev_rev. unfold min3.
  pose proof (lev_drop_last_r s t b). pose proof (lev_drop_last_l s t a).
  destruct (decide (a = b)); lia.
Qed.

End LevenshteinFacts.

(** ** [editDistance] computes the reference distance *)

Section EditDistance.
Import ExcelService.
Variables s1 s2 : jsstring.

#[local] Abbreviation table := (lev_table s1 s2).

Lemma table_0_l j : j <= length s2 -> table 0 j = j.
Proof. intros. unfold lev_table. rewrite take_0, lev_nil_l. by apply length_take_le. Qed.

Lemma table_0_r i : i <= length s1 -> table i 0 = i.
Proof. intros. unfold lev_table. rewrite take_0, lev_nil_r. by apply length_take_le. Qed.

Lemma table_S i j c d :
  s1 !! i = Some c -> s2 !! j = Some d ->
  table (S i) (S j) =
  if decide (c = d) then table i j
  else Nat.min (Nat.min (table i j) (table (S i) j)) (table i (S j)) + 1.
Proof.
  intros Hc Hd. unfold lev_table.
  rewrite (take_S_r _ _ _ Hc), (take_S_r _ _ _ Hd). apply lev_snoc.
Qed.

Lemma loop_snoc {S} (f : S -> nat -> S) a k :
  foldl f a (seq 0 (Datatypes.S k)) = f (foldl f a (seq 0 k)) k.
Proof. by rewrite seq_S, foldl_snoc. Qed.

(** The first pass ([i = 0]) fills the row with [0, 1, ..., s2.length]. *)
Lemma inner_loop_first cs lv k :
  exists st,
    foldl (fun acc j => st' ← acc; inner_body s1 s2 0 st' j)
          (Some (RowState cs lv)) (seq 0 k) = Some st
    /\ lastValue st = lv
    /\ forall j, j < k -> costs st !! j = Some j.
Proof.
  induction k as [|k (st & Hst & Hlv & Hcs)].
  - eexists. split; [reflexivity|]. split; [reflexivity|]. intros; lia.
  - rewrite loop_snoc, Hst. simpl. eexists. split; [reflexivity|].
    split; [exact Hlv|]. intros j Hj. simpl.
    destruct (decide (j = k)) as [->|Hne].
    + apply lookup_insert_eq.
    + rewrite lookup_insert_ne by congruence. apply Hcs. lia.
Qed.

(** A later pass ([i = S i']) turns row [i'] into row [S i'], from left to
    right; [lastValue] runs one entry ahead of the array. *)
Lemma inner_loop_next i' cs k :
  i' < length s1 ->
  (forall j, j <= length s2 -> cs !! j = Some (table i' j)) ->
  k <= length s2 ->
  exists st,
    foldl (fun acc j => st' ← acc; inner_body s1 s2 (S i') st' j)
          (Some (RowState cs (S i'))) (seq 0 (S k)) = Some st
    /\ lastValue st = table (S i') k
    /\ (forall j, j < k -> costs st !! j = Some (table (S i') j))
    /\ (forall j, k <= j -> costs st !! j = cs !! j).
Proof.
  intros Hi Hrow. induction k as [|k IH]; intros Hk.
  - eexists. split; [reflexivity|]. simpl.
    split; [by rewrite table_0_r by lia|]. split; [intros; lia|done].
  - destruct IH as (st & Hst & Hlv & Hnew & Hold); [lia|].
    rewrite loop_snoc, Hst. simpl. unfold inner_body.
    rewrite bool_decide_eq_false_2 by lia.
    rewrite bool_decide_eq_true_2 by lia.
    replace (S i' - 1) with i' by lia. replace (S k - 1) with k by lia.
    destruct (lookup_lt_is_Some_2 s1 i' Hi) as [c Hc].
    destruct (lookup_lt_is_Some_2 s2 k ltac:(lia)) as [d Hd].
    unfold read, charAt. rewrite Hc, Hd.
    rewrite (Hold k), (Hold (S k)), !Hrow by lia. simpl.
    pose proof (table_S _ _ _ _ Hc Hd) as Hrec. rewrite <- Hlv in Hrec.
    assert (exists v,
      (if bool_decide ([c] ≠ [d])
       then Some (Nat.min (Nat.min (table i' k) (lastValue st))
                          (table i' (S k)) + 1)
       else Some (table i' k)) = Some v /\ v = table (S i') (S k))
      as (v & -> & Hv).
    { destruct (decide (c = d)) as [->|Hne].
      - rewrite bool_decide_eq_false_2 by (intros ?; congruence). eauto.
      - rewrite bool_decide_eq_true_2 by congruence. eauto. }
    eexists. split; [reflexivity|]. simpl.
    split; [exact Hv|split].
    + intros j Hj. destruct (decide (j = k)) as [->|Hne].
      * by rewrite lookup_insert_eq, Hlv.
      * rewrite lookup_insert_ne by congruence. apply Hnew. lia.
    + intros j Hj. rewrite lookup_insert_ne by lia. apply Hold. lia.
Qed.

Lemma outer_body_first cs :
  exists cs', outer_body s1 s2 cs 0 = Some cs'
    /\ forall j, j <= length s2 -> cs' !! j = Some (table 0 j).
Proof.
  destruct (inner_loop_first cs 0 (S (length s2))) as (st & Hst & _ & Hcs).
  unfold outer_body, inner_loop. rewrite Hst. simpl.
  eexists. split; [reflexivity|]. intros j Hj.
  rewrite table_0_l by done. apply Hcs. lia.
Qed.

Lemma outer_body_next i' cs :
  i' < length s1 ->
  (forall j, j <= length s2 -> cs !! j = Some (table i' j)) ->
  exists cs', outer_body s1 s2 cs (S i') = Some cs'
    /\ forall j, j <= length s2 -> cs' !! j = Some (table (S i') j).
Proof.
  intros Hi Hrow.
  destruct (inner_loop_next i' cs (length s2) Hi Hrow ltac:(lia))
    as (st & Hst & Hlv & Hnew & _).
  unfold outer_body, inner_loop. rewrite Hst. simpl.
  eexists. split; [reflexivity|]. intros j Hj.
  destruct (decide (j = length s2)) as [->|Hne].
  - by rewrite lookup_insert_eq, Hlv.
  - rewrite lookup_insert_ne by congruence. apply Hnew. lia.
Qed.

Lemma outer_loop_rows k :
  k <= length s1 ->
  exists cs,
    foldl (fun acc i => cs ← acc; outer_body s1 s2 cs i)
          (Some ∅) (seq 0 (S k)) = Some cs
    /\ forall j, j <= length s2 -> cs !! j = Some (table k j).
Proof.
  induction k as [|k IH]; intros Hk.
  - simpl. apply outer_body_first.
  - destruct IH as (cs & Hcs & Hrow); [lia|].
    rewrite loop_snoc, Hcs. simpl. apply outer_body_next; [lia|done].
Qed.

Lemma editDistance_lev : editDistance s1 s2 = Some (lev s1 s2).
Proof.
  destruct (outer_loop_rows (length s1) ltac:(lia)) as (cs & Hcs & Hrow).
  unfold editDistance. rewrite Hcs. simpl. unfold read.
  rewrite Hrow by lia. unfold lev_table. by rewrite !take_ge by lia.
Qed.

End EditDistance.

(** C4.  For every pair of strings, [editDistance] returns a number, and that
    number is the Levenshtein distance of the two strings: the first string
    becomes the second by that many single-unit insertions, deletions and
    replacements, and by no fewer.  It returns 3 on ("", "abc") and on
    ("kitten", "sitting").  (Strings are compared code unit by code unit, as
    [charAt] does.) *)
Theorem editDistance_is_levenshtein :
  (forall s1 s2 : jsstring,
      exists n, ExcelService.editDistance s1 s2 = Some n
                /\ n = lev s1 s2
                /\ is_edit_distance n s1 s2)
  /\ ExcelService.editDistance (js "") (js "abc") = Some 3
  /\ ExcelService.editDistance (js "kitten") (js "sitting") = Some 3.
Proof.
  split; [|split; vm_compute; reflexivity].
  intros s1 s2. exists (lev s1 s2).
  split; [apply editDistance_lev|]. split; [reflexivity|].
  apply lev_is_edit_distance.
Qed.


(** ** String primitives *)

Section StringFacts.
Implicit Types s p : list N.

Lemma startsWith_prefix s p : startsWith s p = true <-> p `prefix_of` s.
Proof.
  revert s. induction p as [|c p IH]; intros s.
  - destruct s; simpl; split; auto using prefix_nil.
  - destruct s as [|d s]; simpl.
    + split; [discriminate|]. intros H. by apply prefix_nil_inv in H.
    + rewrite andb_true_iff, bool_decide_eq_true, IH. split.
      * intros [-> H]. by apply prefix_cons.
      * intros H. split; [by apply prefix_cons_inv_1 in H|].
        by apply prefix_cons_inv_2 in H.
Qed.

Lemma includes_substring s p : includes s p = true <-> is_substring p s.
Proof.
  split.
  - induction s as [|c s IH]; cbn [includes]; rewrite orb_true_iff.
    + intros [H|H]; [|discriminate].
      apply startsWith_prefix in H as [k ->]. by exists [], k.
    + intros [H|H].
      * apply startsWith_prefix in H as [k Hk]. exists [], k. by rewrite Hk.
      * destruct (IH H) as (a & b & ->). by exists (c :: a), b.
  - intros (a & b & ->). induction a as [|c a IH].
    + assert (startsWith (p ++ b) p = true) as Hp
        by (apply startsWith_prefix; by apply prefix_app_r).
      simpl. destruct (p ++ b); cbn [includes]; by rewrite Hp.
    + cbn [app includes]. rewrite IH. apply orb_true_r.
Qed.

Lemma endsWith_suffix s p : endsWith s p = true <-> p `suffix_of` s.
Proof.
  unfold endsWith, str_eqb.
  rewrite andb_true_iff, !bool_decide_eq_true. split.
  - intros [Hlen Hdrop]. exists (take (length s - length p) s).
    by rewrite <- Hdrop at 2; rewrite take_drop.
  - intros [k ->]. rewrite length_app. split; [lia|].
    replace (length k + length p - length p) with (length k) by lia.
    by rewrite drop_app_length.
Qed.

End StringFacts.

(** ** Scanning the roster *)

Section RosterScan.
Import ExcelService.

Lemma scanRows_first {A} (p : A -> bool) rows i :
  (scanRows p rows i = (-1)%Z /\
   forall k row, rows !! k = Some row -> p row = false)
  \/
  (exists k row,
      scanRows p rows i = Z.of_nat (i + k) /\ rows !! k = Some row /\
      p row = true /\
      forall k' row', k' < k -> rows !! k' = Some row' -> p row' = false).
Proof.
  revert i. induction rows as [|row rows IH]; intros i; simpl.
  - left. split; [done|]. intros k r Hk. by rewrite lookup_nil in Hk.
  - destruct (p row) eqn:Hrow.
    + right. exists 0, row. rewrite Nat.add_0_r.
      split; [done|]. split; [done|]. split; [done|]. intros; lia.
    + destruct (IH (S i)) as [[Hm Hnone]|(k & r & Hm & Hk & Hr & Hbefore)];
        rewrite Hm.
      * left. split; [done|]. intros [|k] r Hk; simplify_eq/=; eauto.
      * right. exists (S k), r.
        split; [f_equal; lia|]. split; [done|]. split; [done|].
        intros [|k'] r' Hlt Hk'; simplify_eq/=; auto.
        apply (Hbefore k'); [lia|done].
Qed.

(** The loop returns the first row, from row 1 down, that the test takes. *)
Lemma scanRows_FirstMatch (p : list CellValue -> bool)
    (accepts : list CellValue -> Prop) values :
  (forall row, p row = true <-> accepts row) ->
  FirstMatch accepts values (scanRows p (drop 1 values) 1).
Proof.
  intros Hp.
  assert (Hfalse : forall row, p row = false -> ~ accepts row).
  { intros row Hrow Hacc. apply Hp in Hacc. congruence. }
  destruct (scanRows_first p (drop 1 values) 1)
    as [[-> Hnone]|(k & row & -> & Hk & Hrow & Hbefore)].
  - left. split; [done|]. intros i row Hi Hrow. apply Hfalse.
    apply (Hnone (i - 1)). rewrite lookup_drop.
    by replace (1 + (i - 1)) with i by lia.
  - right. exists (1 + k), row. rewrite lookup_drop in Hk.
    split; [done|]. split; [lia|]. split; [done|]. split; [by apply Hp|].
    intros j row' Hj Hrow'. apply Hfalse, (Hbefore (j - 1)); [lia|].
    rewrite lookup_drop. by replace (1 + (j - 1)) with j by lia.
Qed.

Lemma scanRowsExn_pure {A} (test : A -> option bool) (p : A -> bool) rows i :
  Forall (fun row => test row = Some (p row)) rows ->
  scanRowsExn test rows i = Some (scanRows p rows i).
Proof.
  intros H. revert i. induction H as [|row rows Hrow _ IH]; intros i; simpl.
  - done.
  - rewrite Hrow. simpl. destruct (p row); [done|apply IH].
Qed.

Lemma numberRowTest_accepts numColumn studentNum row :
  numberRowTest numColumn (digitsOnly studentNum) row = true
  <-> idAcceptedRow numColumn studentNum row.
Proof.
  unfold numberRowTest, idAcceptedRow, suffixEitherWay, column_below_length.
  split.
  - rewrite andb_true_iff. intros [_ H].
    destruct (at_column row numColumn) as [cell|]; [|discriminate].
    apply andb_true_iff in H as [Ht H]. exists cell.
    split; [done|]. split; [done|].
    apply orb_true_iff in H as [H|H]; apply endsWith_suffix in H; auto.
  - intros (cell & Hcell & Ht & Hs). rewrite Hcell, Ht. simpl.
    rewrite andb_true_iff. split.
    + unfold at_column in Hcell. apply Z.ltb_lt.
      destruct (numColumn <? 0)%Z eqn:E; [discriminate|].
      apply Z.ltb_ge in E. apply lookup_lt_Some in Hcell. lia.
    + apply orb_true_iff.
      destruct Hs as [H|H]; apply endsWith_suffix in H; auto.
Qed.

Lemma FirstMatch_iff (P Q : list CellValue -> Prop) values r :
  (forall row, P row <-> Q row) -> FirstMatch P values r -> FirstMatch Q values r.
Proof.
  intros HPQ [[-> Hnone]|(i & row & -> & Hi & Hrow & Hacc & Hbefore)].
  - left. split; [done|]. intros i row Hi Hrow HQ.
    apply (Hnone i row Hi Hrow), HPQ, HQ.
  - right. exists i, row.
    split; [done|]. split; [done|]. split; [done|]. split; [by apply HPQ|].
    intros j row' Hj Hrow' HQ. apply (Hbefore j row' Hj Hrow'), HPQ, HQ.
Qed.

Lemma findStudentRowByNumber_FirstMatch numColumn studentNum values :
  FirstMatch (idAcceptedRow numColumn studentNum) values
             (findStudentRowByNumber numColumn studentNum values).
Proof.
  unfold findStudentRowByNumber. apply scanRows_FirstMatch.
  intros row. apply numberRowTest_accepts.
Qed.

End RosterScan.

(** C6 (as amended).  For every target identifier and roster,
    [findStudentRowByNumber] strips the non-digits from the target and from
    the identifier cell of each row, and returns the index of the first row,
    from row 1 down, whose identifier cell is present and not empty (truthy)
    and for which one cleaned string is a suffix of the other; it returns -1
    when there is no such row.  The target "123456789" matches the cell
    "G000123456789". *)
Theorem findStudentRowByNumber_first_filled_suffix_row :
  (forall numColumn studentNum values,
      FirstMatch (idAcceptedRow numColumn studentNum) values
        (ExcelService.findStudentRowByNumber numColumn studentNum values))
  /\ ExcelService.findStudentRowByNumber 0 (js "123456789")
       [[ExcelService.VStr (js "رقم التلميذ")];
        [ExcelService.VStr (js "G000123456789")]] = 1%Z.
Proof.
  split; [apply findStudentRowByNumber_FirstMatch|].
  vm_compute. reflexivity.
Qed.

(** C6 as stated fails: a row whose identifier cell is empty has the empty
    string as cleaned identifier, which is a suffix of every target, yet the
    code passes over it.  Here row 1 is such a row and the code returns row
    2. *)
Lemma findStudentRowByNumber_passes_over_empty_cell :
  let values := [[ExcelService.VStr (js "رقم")];
                 [ExcelService.VStr []];
                 [ExcelService.VStr (js "5")]] in
  ExcelService.findStudentRowByNumber 0 (js "5") values = 2%Z
  /\ idSuffixRow 0 (js "5") [ExcelService.VStr []]
  /\ ~ FirstMatch (idSuffixRow 0 (js "5")) values
         (ExcelService.findStudentRowByNumber 0 (js "5") values).
Proof.
  assert (Hrow1 : idSuffixRow 0 (js "5") [ExcelService.VStr []]).
  { exists (ExcelService.VStr []). split; [reflexivity|].
    right. apply suffix_nil. }
  split; [vm_compute; reflexivity|]. split; [exact Hrow1|].
  replace (ExcelService.findStudentRowByNumber _ _ _) with 2%Z
    by (vm_compute; reflexivity).
  intros [[H _]|(i & row & Hi & _ & _ & _ & Hbefore)]; [discriminate|].
  assert (i = 2) as -> by lia.
  apply (Hbefore 1 [ExcelService.VStr []]); [lia|reflexivity|exact Hrow1].
Qed.

(** C10.  When the target has no digit, [findStudentRowByNumber] returns the
    index of the first row, from row 1 down, whose identifier cell is not
    empty (truthy), and -1 only when there is no such row. *)
Theorem findStudentRowByNumber_no_digit_target numColumn studentNum values :
  ExcelService.digitsOnly studentNum = [] ->
  FirstMatch (idCellFilled numColumn) values
    (ExcelService.findStudentRowByNumber numColumn studentNum values).
Proof.
  intros Hclean.
  apply (FirstMatch_iff (idAcceptedRow numColumn studentNum));
    [|apply findStudentRowByNumber_FirstMatch].
  intros row. unfold idAcceptedRow, idCellFilled. rewrite Hclean. split.
  - intros (cell & -> & Ht & _). exact Ht.
  - intros Ht. destruct (ExcelService.at_column row numColumn) as [cell|] eqn:E;
      [|discriminate].
    exists cell. split; [done|]. split; [done|]. left. apply suffix_nil.
Qed.

Lemma findStudentRowByNumber_no_digit_target_witness :
  ExcelService.digitsOnly (js "n/a") = []
  /\ FirstMatch (idCellFilled 0)
       [[ExcelService.VStr (js "رقم")]; [ExcelService.VStr []];
        [ExcelService.VStr (js "G1")]]
       (ExcelService.findStudentRowByNumber 0 (js "n/a")
          [[ExcelService.VStr (js "رقم")]; [ExcelService.VStr []];
           [ExcelService.VStr (js "G1")]]).
Proof.
  split; [reflexivity|].
  apply (findStudentRowByNumber_no_digit_target 0 (js "n/a")). reflexivity.
Defined.

(** ** Similarity and name matching *)

Section Similarity.
Import ExcelService.

Lemma is_substring_same_length (p s : list N) :
  length p = length s -> is_substring p s -> p = s.
Proof.
  intros Hlen (a & b & ->). rewrite !length_app in Hlen.
  destruct a; [|simpl in Hlen; lia]. destruct b; [|simpl in Hlen; lia].
  simpl. by rewrite app_nil_r.
Qed.

(** The part of [calculateSimilarity] that follows the choice of
    [longer] and [shorter]. *)
Lemma similarity_of_ordered (longer shorter : list N) :
  longer <> shorter -> length shorter <= length longer ->
  exists q,
    (if bool_decide (length longer = 0) then Some 1%Q
     else if includes longer shorter then Some (9 # 10)%Q
     else d ← editDistance longer shorter;
          Some ((inject_Z (Z.of_nat (length longer)) - inject_Z (Z.of_nat d))
                / inject_Z (Z.of_nat (length longer)))%Q) = Some q
    /\ (is_substring shorter longer -> q = (9 # 10)%Q)
    /\ (~ is_substring shorter longer ->
        q = ((inject_Z (Z.of_nat (length longer))
              - inject_Z (Z.of_nat (lev longer shorter)))
             / inject_Z (Z.of_nat (length longer)))%Q).
Proof.
  intros Hne Hlen.
  rewrite bool_decide_eq_false_2.
  2:{ intros H0. apply Hne. destruct longer, shorter; simpl in *; done || lia. }
  destruct (includes longer shorter) eqn:Hinc.
  - exists (9 # 10)%Q. apply includes_substring in Hinc. by repeat split.
  - rewrite editDistance_lev. simpl. eexists. split; [reflexivity|].
    split; [|done]. intros Hyes. apply includes_substring in Hyes. congruence.
Qed.

Lemma calculateSimilarity_score s1 s2 longer shorter :
  (longer = s1 /\ shorter = s2) \/ (longer = s2 /\ shorter = s1) ->
  length shorter <= length longer ->
  exists q, calculateSimilarity s1 s2 = Some q
            /\ similarityScore s1 s2 longer shorter q.
Proof.
  intros Hwhich Hlen. unfold calculateSimilarity, str_eqb, similarityScore.
  destruct (decide (s1 = s2)) as [->|Hne].
  { rewrite bool_decide_eq_true_2 by done. exists 1%Q.
    split; [done|]. repeat split; congruence. }
  rewrite bool_decide_eq_false_2 by done.
  assert (Hflip : forall a b : list N,
             a <> b -> length a = length b ->
             ~ is_substring a b /\ ~ is_substring b a).
  { intros a b Hab Hl. split; intros H;
      apply is_substring_same_length in H; congruence. }
  destruct (decide (length s2 < length s1)) as [Hcmp|Hcmp];
    [rewrite !(bool_decide_eq_true_2 _ Hcmp)
    |rewrite !(bool_decide_eq_false_2 _ Hcmp)].
  - (* s1 is strictly longer *)
    destruct Hwhich as [[-> ->]|[-> ->]]; [|exfalso; lia].
    destruct (similarity_of_ordered s1 s2) as (q & -> & Hs & Hn); [done|lia|].
    exists q. split; [done|]. split; [done|]. split; auto.
  - (* s2 is at least as long *)
    destruct (similarity_of_ordered s2 s1) as (q & -> & Hs & Hn);
      [congruence|lia|].
    exists q. split; [done|]. split; [done|].
    destruct Hwhich as [[-> ->]|[-> ->]]; [|split; auto].
    assert (length s1 = length s2) as Heq by lia.
    destruct (Hflip s1 s2 Hne Heq) as [H12 H21].
    split; [intros _ H; by apply H21 in H|].
    intros _ _. rewrite (Hn H12), Heq. by rewrite (lev_sym s1 s2).
Qed.

Lemma calculateSimilarity_total s1 s2 : is_Some (calculateSimilarity s1 s2).
Proof.
  destruct (le_ge_dec (length s2) (length s1)) as [H|H].
  - destruct (calculateSimilarity_score s1 s2 s1 s2) as (q & -> & _); eauto.
  - destruct (calculateSimilarity_score s1 s2 s2 s1) as (q & -> & _); eauto.
Qed.

Lemma above_threshold (q : Q) :
  negb (Qle_bool q (7 # 10)) = true <-> (7 # 10 < q)%Q.
Proof.
  rewrite negb_true_iff. split.
  - intros H. apply Qnot_le_lt. intros Hle.
    apply Qle_bool_iff in Hle. congruence.
  - intros H. destruct (Qle_bool q (7 # 10)) eqn:E; [|done].
    apply Qle_bool_iff in E. by apply Qlt_not_le in H.
Qed.

Variable nfkd : list N -> list N.
Variable toLowerCase : list N -> list N.

#[local] Abbreviation normalize := (normalizeArabicText nfkd toLowerCase).

Lemma normalize_string s : is_Some (normalize (Some (VStr s))).
Proof. unfold normalizeArabicText. simpl. destruct (negb _); eauto. Qed.

#[local] Abbreviation nameRowVerdict := (nameRowVerdict nfkd toLowerCase).

Lemma nameRowTest_verdict nameColumn target row :
  (truthy (at_column row nameColumn) = true ->
   exists s, at_column row nameColumn = Some (VStr s)) ->
  nameRowTest nfkd toLowerCase nameColumn target row
  = Some (nameRowVerdict nameColumn target row).
Proof.
  intros Htext. unfold nameRowTest, MatchingSpec.nameRowVerdict.
  destruct (column_below_length row nameColumn); [|done]. simpl.
  assert (is_Some (normalize (at_column row nameColumn))) as [cellName ->].
  { destruct (truthy (at_column row nameColumn)) eqn:Ht.
    - destruct (Htext eq_refl) as [s ->]. apply normalize_string.
    - unfold normalizeArabicText. rewrite Ht. simpl. eauto. }
  simpl. unfold compareNames.
  destruct (calculateSimilarity_total target cellName) as [q ->]. done.
Qed.

Lemma nameRowVerdict_qualified nameColumn studentName target row :
  normalize (Some (VStr studentName)) = Some target ->
  nameRowVerdict nameColumn target row = true
  <-> nameQualifiedRow nfkd toLowerCase nameColumn studentName row.
Proof.
  intros Htarget. unfold MatchingSpec.nameRowVerdict, nameQualifiedRow, column_below_length.
  rewrite andb_true_iff, Z.ltb_lt. split.
  - intros [Hcol H]. split; [done|].
    destruct (normalize (at_column row nameColumn)) as [cellName|]; [|done].
    unfold compareNames in H.
    destruct (calculateSimilarity target cellName) as [q|] eqn:Hq; [|done].
    simpl in H. exists target, cellName, q.
    repeat split; try done. by apply above_threshold.
  - intros [Hcol (t & cellName & q & Ht & Hc & Hq & Hgt)].
    split; [done|]. rewrite Hc. assert (t = target) as -> by congruence.
    unfold compareNames. rewrite Hq. simpl. by apply above_threshold.
Qed.

Lemma findStudentRowByName_FirstMatch nameColumn studentName values :
  nameColumnIsText nameColumn values ->
  exists r,
    findStudentRowByName nfkd toLowerCase nameColumn studentName values = Some r
    /\ FirstMatch (nameQualifiedRow nfkd toLowerCase nameColumn studentName)
                  values r.
Proof.
  intros Htext. unfold findStudentRowByName.
  destruct (normalize_string studentName) as [target Htarget].
  rewrite Htarget. simpl.
  rewrite (scanRowsExn_pure _ (nameRowVerdict nameColumn target)).
  - eexists. split; [reflexivity|]. apply scanRows_FirstMatch.
    intros row. by apply nameRowVerdict_qualified.
  - apply Forall_lookup. intros k row Hk. rewrite lookup_drop in Hk.
    apply nameRowTest_verdict. apply (Htext (1 + k)); [lia|done].
Qed.

End Similarity.




(** ** Numeral normalisation *)

Section Numerals.
Import OCRService.

(** What the pre-pass does to one unit: an Arabic-Indic digit (U+0660 to
    U+0669) becomes the ASCII digit of the same value, any other unit is
    kept. *)
Lemma normalizeArabicNumber_unit (text : list N) i c :
  text !! i = Some c ->
  normalizeArabicNumber text !! i
  = Some (if (0x0660 <=? c)%N && (c <=? 0x0669)%N
          then (c - 0x0660 + 0x30)%N else c).
Proof.
  intros Hc. unfold normalizeArabicNumber. rewrite list_lookup_fmap, Hc. simpl.
  destruct ((0x0660 <=? c)%N && (c <=? 0x0669)%N) eqn:E; [|done].
  apply andb_true_iff in E as [Hlo Hhi].
  apply N.leb_le in Hlo, Hhi. f_equal.
  assert (Hc' : exists k, (k < 10)%nat /\ c = (0x0660 + N.of_nat k)%N).
  { exists (N.to_nat (c - 0x0660)). split; lia. }
  destruct Hc' as (k & Hk & ->).
  do 10 (destruct k as [|k]; [vm_compute; reflexivity|]). lia.
Qed.

Lemma normalizeArabicNumber_length (text : list N) :
  length (normalizeArabicNumber text) = length text.
Proof. apply length_fmap. Qed.

End Numerals.

(** C7.  The pre-pass of the entry point maps the Arabic-Indic digits to
    ASCII, so that "١٢.٥٠" becomes "12.50"; but the Persian digits (U+06F0
    to U+06F9), which the comment of [normalizeArabicNumber] also names and
    which are native decimal digits too, pass through unchanged, both in the
    function and in the lines the entry point builds. *)
Theorem normalizeArabicNumber_misses_persian_digits :
  OCRService.normalizeArabicNumber (js "١٢.٥٠") = js "12.50"
  /\ OCRService.normalizeArabicNumber (js "۱۲.۵۰") = js "۱۲.۵۰"
  /\ OCRService.textLines (js "۱۲.۵۰") = [js "۱۲.۵۰"]
  /\ js "۱۲.۵۰" <> js "12.50".
Proof. repeat split; vm_compute; (reflexivity || discriminate). Qed.

(** ** The coordinator *)

Section CoordinatorFacts.
Import OCRService.
Variable tableStrategy : list (list N) -> option (list Student).
Variable patternStrategy basicStrategy : list (list N) -> list Student.

#[local] Abbreviation run := (coordinate tableStrategy patternStrategy basicStrategy).

Lemma afterTable_pattern lines :
  patternStrategy lines <> [] ->
  afterTable patternStrategy basicStrategy lines
  = ([PatternBased], patternStrategy lines).
Proof.
  intros Hne. unfold afterTable. simpl.
  destruct (patternStrategy lines); [done|]. reflexivity.
Qed.

Lemma afterTable_basic lines :
  patternStrategy lines = [] ->
  afterTable patternStrategy basicStrategy lines
  = ([PatternBased; Basic], basicStrategy lines).
Proof. intros He. unfold afterTable. simpl. by rewrite He. Qed.

Lemma coordinate_table lines students :
  tableStrategy lines = Some students -> students <> [] ->
  run lines = ([TableBased], students).
Proof.
  intros Ht Hne. unfold coordinate. simpl. rewrite Ht.
  destruct students; [done|]. reflexivity.
Qed.

Lemma coordinate_falls_through lines :
  tableStrategy lines = None \/ tableStrategy lines = Some [] ->
  run lines
  = (TableBased :: (afterTable patternStrategy basicStrategy lines).1,
     (afterTable patternStrategy basicStrategy lines).2).
Proof.
  intros [Ht|Ht]; unfold coordinate; simpl; rewrite Ht; simpl;
    by destruct (afterTable _ _ _).
Qed.

End CoordinatorFacts.

(** C3.  Whatever the three strategies compute, the coordinator returns the
    output of exactly one of them, and invokes no strategy after the one
    whose output it returns: the table-based output when it holds a record,
    and then nothing else is invoked; otherwise the pattern-based output
    when it holds a record, the basic extractor not being invoked; otherwise
    the basic output.  This holds in particular for the three extractors of
    the service. *)
Theorem coordinator_returns_first_non_empty :
  (forall tableStrategy patternStrategy basicStrategy lines,
      let fromTable := tableStrategy lines in
      let run := OCRService.coordinate tableStrategy patternStrategy
                   basicStrategy lines in
      (forall students, fromTable = Some students -> students <> [] ->
         run = ([OCRService.TableBased], students))
      /\ (fromTable = None \/ fromTable = Some [] ->
          patternStrategy lines <> [] ->
          run = ([OCRService.TableBased; OCRService.PatternBased],
                 patternStrategy lines))
      /\ (fromTable = None \/ fromTable = Some [] ->
          patternStrategy lines = [] ->
          run = ([OCRService.TableBased; OCRService.PatternBased;
                  OCRService.Basic],
                 basicStrategy lines)))
  /\ (forall lines,
         OCRService.processLines lines
         = OCRService.coordinate OCRService.tableBased
             OCRService.extractStudentsByPatterns
             OCRService.extractBasicStudentData lines).
Proof.
  split; [|reflexivity].
  intros tableStrategy patternStrategy basicStrategy lines fromTable run.
  split; [|split].
  - intros students Ht Hne. by apply coordinate_table.
  - intros Ht Hp. unfold run.
    rewrite coordinate_falls_through by done.
    by rewrite afterTable_pattern.
  - intros Ht Hp. unfold run.
    rewrite coordinate_falls_through by done.
    by rewrite afterTable_basic.
Qed.

Lemma coordinator_returns_first_non_empty_witness :
  let lines := [js "رقم  اسم  الفرض"; js "1  أحمد  12"] in
  exists students,
    OCRService.tableBased lines = Some students /\ students <> []
    /\ OCRService.processLines lines = ([OCRService.TableBased], students).
Proof.
  intros lines.
  destruct coordinator_returns_first_non_empty as [Hrun _].
  destruct (Hrun OCRService.tableBased OCRService.extractStudentsByPatterns
              OCRService.extractBasicStudentData lines) as (Htable & _ & _).
  eexists. split; [vm_compute; reflexivity|]. split; [discriminate|].
  apply Htable; [vm_compute; reflexivity|discriminate].
Defined.

(** ** Numeric classification of the cells *)

Section NumericCells.
Import TableDetectionService.
Implicit Types s : list N.

Lemma span_of_spec (p : N -> bool) s a b :
  span_of p s = (a, b) ->
  s = a ++ b /\ forallb p a = true
  /\ match b with [] => True | c :: _ => p c = false end.
Proof.
  revert a b. induction s as [|c s IH]; intros a b; simpl.
  - intros [= <- <-]. done.
  - destruct (p c) eqn:Hc.
    + destruct (span_of p s) as [a' b'] eqn:E. intros [= <- <-].
      destruct (IH a' b' eq_refl) as (-> & Ha & Hb). simpl. by rewrite Hc.
    + intros [= <- <-]. simpl. by rewrite Hc.
Qed.

Lemma span_of_app (p : N -> bool) a b :
  forallb p a = true ->
  match b with [] => True | c :: _ => p c = false end ->
  span_of p (a ++ b) = (a, b).
Proof.
  intros Ha Hb. induction a as [|c a IH]; simpl in *.
  - destruct b as [|c b]; simpl; [done|]. by rewrite Hb.
  - apply andb_true_iff in Ha as [-> Ha]. by rewrite IH.
Qed.

Lemma isSep_not_digit c : isSep c = true -> isDigit c = false.
Proof.
  unfold isSep, DOT, COMMA. rewrite orb_true_iff, !N.eqb_eq.
  by intros [->| ->].
Qed.

Lemma nonEmpty_true s : nonEmpty s = true <-> s <> [].
Proof.
  unfold nonEmpty. rewrite negb_true_iff, bool_decide_eq_false. done.
Qed.

Lemma isPlainNumber_plainDecimal s : isPlainNumber s = true <-> plainDecimal s.
Proof.
  unfold isPlainNumber, plainDecimal, digitString. split.
  - destruct (span_of isDigit s) as [ip r] eqn:E.
    destruct (span_of_spec _ _ _ _ E) as (-> & Hip & _).
    rewrite andb_true_iff, nonEmpty_true. intros [Hne Hr].
    exists ip. split; [done|]. destruct r as [|c r].
    + left. by rewrite app_nil_r.
    + right. apply andb_true_iff in Hr as [Hr Hfp].
      apply andb_true_iff in Hr as [Hc Hfne].
      apply N.eqb_eq in Hc as ->. apply nonEmpty_true in Hfne. by exists r.
  - intros (ip & [Hne Hip] & [->|(fp & [Hfne Hfp] & ->)]).
    + rewrite <- (app_nil_r ip), span_of_app by done.
      rewrite andb_true_iff, nonEmpty_true. done.
    + rewrite span_of_app by done.
      rewrite !andb_true_iff, !nonEmpty_true, N.eqb_eq. done.
Qed.

Lemma parseFloat_digit_first d s :
  isDigit d = true -> is_Some (parseFloat (d :: s)).
Proof.
  intros Hd. unfold parseFloat. simpl. rewrite Hd.
  destruct (span_of isDigit s) as [a b].
  destruct b as [|c b]; simpl; [eauto|].
  destruct (c =? 46)%N; simpl; eauto.
Qed.

Lemma markPairAt_Some s g1 g2 :
  markPairAt s = Some (g1, g2) ->
  (exists d g, g1 = d :: g /\ isDigit d = true)
  /\ exists pre d1 c d2 post,
      s = pre ++ d1 :: c :: d2 :: post
      /\ isDigit d1 = true /\ isSep c = true /\ isDigit d2 = true.
Proof.
  unfold markPairAt.
  destruct (span_of isDigit (take 2 s)) as [ds r1] eqn:E1.
  destruct (span_of_spec _ _ _ _ E1) as (Htake & Hds & _).
  destruct (nonEmpty ds) eqn:Hne; [|done]. apply nonEmpty_true in Hne.
  destruct (drop (length ds) s) as [|c r] eqn:Hdrop; [done|].
  destruct (span_of isDigit (take 2 r)) as [fs r2] eqn:E2.
  destruct (span_of_spec _ _ _ _ E2) as (Htake2 & Hfs & _).
  destruct (isSep c) eqn:Hc; [|done].
  destruct (nonEmpty fs) eqn:Hfne; [|done]. apply nonEmpty_true in Hfne.
  simpl. intros [= <- <-].
  assert (Hs : s = ds ++ c :: r).
  { rewrite <- (take_drop (length ds) s), Hdrop. f_equal.
    assert (length ds <= 2).
    { apply (f_equal length) in Htake.
      rewrite length_app, length_take in Htake. lia. }
    replace (length ds) with (Nat.min (length ds) 2) at 1 by lia.
    rewrite <- take_take, Htake. by rewrite take_app_length. }
  split.
  - destruct ds as [|d ds]; [done|]. simpl in Hds.
    apply andb_true_iff in Hds as [Hd _]. eauto.
  - destruct fs as [|d2 fs]; [done|]. simpl in Hfs.
    apply andb_true_iff in Hfs as [Hd2 _].
    destruct r as [|d2' r]; [by rewrite take_nil in Htake2|].
    assert (d2' = d2) as ->.
    { destruct r; simpl in Htake2; congruence. }
    destruct (exists_last Hne) as (pre & d1 & ->).
    rewrite forallb_app in Hds. apply andb_true_iff in Hds as [_ Hd1].
    simpl in Hd1. rewrite andb_true_r in Hd1.
    exists pre, d1, c, d2, r. rewrite Hs, <- app_assoc. done.
Qed.

Lemma markPairAt_here d1 c d2 post :
  isDigit d1 = true -> isSep c = true -> isDigit d2 = true ->
  is_Some (markPairAt (d1 :: c :: d2 :: post)).
Proof.
  intros H1 Hc H2. unfold markPairAt.
  replace (span_of isDigit (take 2 (d1 :: c :: d2 :: post)))
    with ([d1], [c]).
  2:{ simpl. by rewrite H1, (isSep_not_digit _ Hc). }
  cbn [length drop]. replace (nonEmpty [d1]) with true by done.
  destruct (span_of isDigit (take 2 (d2 :: post))) as [fs r] eqn:E.
  assert (fs <> []) as Hfs.
  { intros ->. cbn in E. rewrite H2 in E.
    by destruct post; simpl in E; [|destruct (isDigit _) in E]. }
  apply nonEmpty_true in Hfs. rewrite Hc, Hfs. simpl. eauto.
Qed.

Lemma firstMarkPair_Some s g1 g2 :
  firstMarkPair s = Some (g1, g2) ->
  (exists d g, g1 = d :: g /\ isDigit d = true) /\ hasDecimalPair s.
Proof.
  induction s as [|x s IH]; cbn [firstMarkPair].
  - destruct (markPairAt []) eqn:E; [|done]. discriminate E.
  - destruct (markPairAt (x :: s)) as [[h1 h2]|] eqn:E.
    + intros [= -> ->]. exact (markPairAt_Some _ _ _ E).
    + intros H. destruct (IH H) as [Hg (pre & d1 & c & d2 & post & -> & ?)].
      split; [done|]. by exists (x :: pre), d1, c, d2, post.
Qed.

Lemma firstMarkPair_found s : hasDecimalPair s -> is_Some (firstMarkPair s).
Proof.
  intros (pre & d1 & c & d2 & post & -> & H1 & Hc & H2).
  induction pre as [|x pre IH]; cbn [app firstMarkPair].
  - destruct (markPairAt_here d1 c d2 post H1 Hc H2) as [g ->]. eauto.
  - destruct (markPairAt _); eauto.
Qed.

(** [parseNumericValue] yields a number exactly for the two shapes. *)
Lemma parseNumericValue_Some text :
  is_Some (parseNumericValue text)
  <-> plainDecimal (cleaned text) \/ hasDecimalPair (cleaned text).
Proof.
  unfold parseNumericValue. fold (cleaned text).
  destruct (isPlainNumber (cleaned text)) eqn:Hplain.
  - split; [intros _; left; by apply isPlainNumber_plainDecimal|].
    intros _. apply isPlainNumber_plainDecimal in Hplain
      as (ip & [Hne Hip] & Hs).
    destruct ip as [|d ip]; [done|]. simpl in Hip.
    apply andb_true_iff in Hip as [Hd _].
    destruct Hs as [->|(fp & _ & ->)]; by apply parseFloat_digit_first.
  - destruct (firstMarkPair (cleaned text)) as [[g1 g2]|] eqn:Hpair.
    + apply firstMarkPair_Some in Hpair as [(d & g & -> & Hd) Hhas].
      split; [by right|]. intros _. by apply parseFloat_digit_first.
    + split; [by intros [? [=]]|].
      intros [H|H].
      * apply isPlainNumber_plainDecimal in H. congruence.
      * apply firstMarkPair_found in H as [? H]. congruence.
Qed.

Lemma parseLine_cell line rowIndex cell :
  cell ∈ parseLine line rowIndex ->
  exists colIndex segment,
    lineSegments line !! colIndex = Some segment
    /\ segmentCell rowIndex colIndex segment = Some cell.
Proof.
  unfold parseLine. rewrite list_elem_of_omap.
  intros (o & Ho & Hid). simpl in Hid. subst o.
  apply elem_of_lookup_imap in Ho as (i & segment & Hcell & Hseg). eauto.
Qed.

Lemma segmentCell_Some rowIndex colIndex segment cell :
  segmentCell rowIndex colIndex segment = Some cell ->
  text cell = trim segment
  /\ position cell = {| row := rowIndex; col := colIndex |}
  /\ value cell = parseNumericValue (trim segment)
  /\ isNumeric cell = bool_decide (parseNumericValue (trim segment) <> None).
Proof.
  unfold segmentCell. case_bool_decide; [done|]. by intros [= <-].
Qed.

End NumericCells.

(** C8 (as amended).  Every cell the Grid Builder makes of a line holds the
    trimmed text of one segment of the line, and is classified numeric if
    and only if that text, with decimal commas turned into periods and
    trimmed, either is a plain integer or decimal (digits, optionally a
    period and digits, and nothing else) or contains somewhere a digit, a
    period and a digit in a row; a cell of neither shape is non-numeric and
    has a null value. *)
Theorem parseLine_numeric_classification line rowIndex cell :
  cell ∈ TableDetectionService.parseLine line rowIndex ->
  exists colIndex segment,
    TableDetectionService.lineSegments line !! colIndex = Some segment
    /\ TableDetectionService.text cell = trim segment
    /\ (TableDetectionService.isNumeric cell = true
        <-> plainDecimal (cleaned (TableDetectionService.text cell))
            \/ hasDecimalPair (cleaned (TableDetectionService.text cell)))
    /\ (TableDetectionService.isNumeric cell = true
        <-> is_Some (TableDetectionService.value cell))
    /\ (TableDetectionService.isNumeric cell = false
        -> TableDetectionService.value cell = None).
Proof.
  intros Hcell.
  destruct (parseLine_cell _ _ _ Hcell) as (colIndex & segment & Hseg & Hmk).
  destruct (segmentCell_Some _ _ _ _ Hmk) as (Htext & _ & Hval & Hnum).
  exists colIndex, segment. split; [done|]. split; [done|].
  rewrite Hnum, Hval, Htext, bool_decide_eq_true, bool_decide_eq_false.
  rewrite <- parseNumericValue_Some. rewrite <- !not_eq_None_Some.
  split; [done|]. split; [done|]. intros H.
  destruct (TableDetectionService.parseNumericValue _); [by destruct H|done].
Qed.

Lemma parseLine_numeric_classification_witness :
  let line := js "1  أحمد 15,50  غ" in
  let cell := {| TableDetectionService.text := js "أحمد 15,50";
                 TableDetectionService.position :=
                   {| TableDetectionService.row := 0;
                      TableDetectionService.col := 1 |};
                 TableDetectionService.isNumeric := true;
                 TableDetectionService.value := Some (31 # 2)%Q |} in
  cell ∈ TableDetectionService.parseLine line 0
  /\ exists colIndex segment,
      TableDetectionService.lineSegments line !! colIndex = Some segment
      /\ TableDetectionService.text cell = trim segment
      /\ (TableDetectionService.isNumeric cell = true
          <-> plainDecimal (cleaned (TableDetectionService.text cell))
              \/ hasDecimalPair (cleaned (TableDetectionService.text cell)))
      /\ (TableDetectionService.isNumeric cell = true
          <-> is_Some (TableDetectionService.value cell))
      /\ (TableDetectionService.isNumeric cell = false
          -> TableDetectionService.value cell = None).
Proof.
  intros line cell.
  assert (Hin : cell ∈ TableDetectionService.parseLine line 0).
  { apply list_elem_of_lookup. exists 1. vm_compute. reflexivity. }
  split; [exact Hin|].
  exact (parseLine_numeric_classification line 0 cell Hin).
Defined.

(** C8 as stated fails: the segment "أحمد 15.50" is not a plain integer or
    decimal, yet its cell is numeric, with value 15.5. *)
Lemma parseLine_numeric_cell_not_plain :
  let line := js "1  أحمد 15.50  12.00" in
  exists cell,
    TableDetectionService.parseLine line 0 !! 1 = Some cell
    /\ TableDetectionService.text cell = js "أحمد 15.50"
    /\ TableDetectionService.isNumeric cell = true
    /\ TableDetectionService.value cell = Some (31 # 2)%Q
    /\ ~ plainDecimal (cleaned (TableDetectionService.text cell)).
Proof.
  eexists. split; [vm_compute; reflexivity|]. simpl.
  split; [vm_compute; reflexivity|]. split; [reflexivity|].
  split; [reflexivity|].
  intros H. apply isPlainNumber_plainDecimal in H. vm_compute in H. discriminate.
Qed.
(** ** Sorting *)

Section SortFacts.
Context {A : Type} (le : A -> A -> bool).
Hypothesis le_total : forall a b, le a b = true \/ le b a = true.

#[local] Abbreviation R := (fun a b => le a b = true).

Lemma insertBy_Permutation x l : insertBy le x l ≡ₚ x :: l.
Proof.
  induction l as [|y l IH]; simpl; [done|].
  destruct (le x y); [done|]. rewrite IH. apply Permutation_swap.
Qed.

Lemma sortBy_Permutation l : sortBy le l ≡ₚ l.
Proof.
  induction l as [|x l IH]; simpl; [done|].
  by rewrite insertBy_Permutation, IH.
Qed.

Lemma insertBy_Sorted x l : Sorted R l -> Sorted R (insertBy le x l).
Proof.
  induction 1 as [|y l Hl IH Hhd]; simpl; [by repeat constructor|].
  destruct (le x y) eqn:Hxy.
  - by repeat constructor.
  - constructor; [done|].
    destruct (le_total x y) as [?|Hyx]; [congruence|].
    destruct Hhd as [|z l Hyz]; simpl; [by constructor|].
    destruct (le x z); by constructor.
Qed.

Lemma sortBy_Sorted l : Sorted R (sortBy le l).
Proof.
  induction l as [|x l IH]; simpl; [constructor|]. by apply insertBy_Sorted.
Qed.

Lemma sortBy_Sorted_as (R' : A -> A -> Prop) l :
  (forall a b, le a b = true -> R' a b) -> Sorted R' (sortBy le l).
Proof.
  intros HR. induction (sortBy_Sorted l) as [|x l' _ IH Hhd]; constructor.
  - exact IH.
  - destruct Hhd; constructor. by apply HR.
Qed.

Lemma sortBy_length l : length (sortBy le l) = length l.
Proof. apply Permutation_length, sortBy_Permutation. Qed.

End SortFacts.

(** ** Distribution of the harvested marks *)

Section Distribution.
Import OCRService.
Implicit Types (markValues : list Q) (m k : nat).

Lemma digit_not_space c : isDigit c = true -> isSpace c = false.
Proof.
  unfold isDigit, isSpace.
  rewrite andb_true_iff, !orb_false_iff, !andb_false_iff,
    !N.leb_le, !N.leb_gt, !N.eqb_neq.
  lia.
Qed.

Lemma parseInt10_digits ds : digitString ds -> parseInt10 ds = Some (digitsValue ds).
Proof.
  intros [Hne Hds]. unfold parseInt10.
  assert (trimStart ds = ds) as ->.
  { destruct ds as [|d ds]; [done|]. simpl in Hds.
    apply andb_true_iff in Hds as [Hd _].
    cbn [trimStart]. by rewrite (digit_not_space _ Hd). }
  assert (span_of isDigit ds = (ds, [])) as ->.
  { rewrite <- (app_nil_r ds) at 1. by apply span_of_app. }
  simpl. by rewrite bool_decide_eq_false_2.
Qed.

Lemma takeMarks_take markValues m i :
  i + m <= length markValues ->
  takeMarks markValues m i = (take m (drop i markValues), i + m).
Proof.
  unfold takeMarks. induction m as [|m IH]; intros Hle.
  - simpl. by rewrite take_0, Nat.add_0_r.
  - rewrite seq_S, foldl_snoc, IH by lia. simpl.
    rewrite bool_decide_eq_true_2 by lia.
    destruct (lookup_lt_is_Some_2 markValues (i + m) ltac:(lia)) as [v Hv].
    rewrite Hv. f_equal; [|lia].
    symmetry. apply take_S_r. by rewrite lookup_drop.
Qed.

Lemma distribute_loop markValues m (l : list (Z * list N)) acc k0 :
  (k0 + length l) * m <= length markValues ->
  foldl (fun '(students, markIndex) e =>
           let '(studentMarks, markIndex') := takeMarks markValues m markIndex in
           (students ++ [{| number := inject_Z e.1; name := e.2;
                            marks := firstFour studentMarks |}],
            markIndex'))
        (acc, k0 * m) l
  = (acc ++ imap (fun j e => studentAt markValues m (k0 + j) e) l,
     (k0 + length l) * m).
Proof.
  revert acc k0. induction l as [|e l IH]; intros acc k0 Hle; simpl in *.
  - by rewrite app_nil_r, Nat.add_0_r.
  - rewrite takeMarks_take by lia.
    replace (k0 * m + m) with (S k0 * m) by lia.
    rewrite IH by lia. rewrite <- app_assoc. simpl.
    rewrite Nat.add_0_r. f_equal; [|f_equal; lia].
    f_equal. f_equal. apply imap_ext. intros j x _. simpl.
    f_equal. lia.
Qed.

Lemma per_student_fits n len : n <> 0 -> n * Nat.min 4 (len / n) <= len.
Proof.
  intros Hn. pose proof (Nat.Div0.mul_div_le len n).
  assert (n * Nat.min 4 (len / n) <= n * (len / n)); [|lia].
  apply Nat.mul_le_mono_l. lia.
Qed.

(** The closed form of [assignMarksToStudents], whatever the keys. *)
Lemma assignMarksToStudents_entries studentInfo markValues entries :
  mapM (fun e => id ← parseInt10 e.1; Some (id, e.2)) studentInfo = Some entries ->
  let sorted := sortBy (fun a b => (a.1 <=? b.1)%Z) entries in
  let m := Nat.min 4 (length markValues / length entries) in
  assignMarksToStudents studentInfo markValues
  = Some (imap (studentAt markValues m) sorted).
Proof.
  intros Hentries sorted m. unfold assignMarksToStudents. rewrite Hentries.
  cbn -[Nat.min Nat.div sortBy takeMarks]. fold sorted.
  assert (length sorted = length entries) as Hlen
    by apply sortBy_length.
  rewrite Hlen. fold m. f_equal.
  destruct (decide (length entries = 0)) as [H0|Hn].
  { destruct sorted; [done|]. simpl in Hlen. lia. }
  assert ((0 + length sorted) * m <= length markValues) as Hfit.
  { rewrite Hlen. unfold m. by apply per_student_fits. }
  pose proof (distribute_loop markValues m sorted [] 0 Hfit) as Hloop.
  change (0 * m) with 0 in Hloop. by rewrite Hloop.
Qed.

Lemma numeric_keys_entries (studentInfo : list (list N * list N)) :
  Forall (fun e => digitString e.1) studentInfo ->
  mapM (fun e => id ← parseInt10 e.1; Some (id, e.2)) studentInfo
  = Some (map (fun e => (digitsValue e.1, e.2)) studentInfo).
Proof.
  intros Hkeys. apply mapM_Some_2. apply Forall2_fmap_r, Forall_Forall2_diag.
  eapply Forall_impl; [exact Hkeys|]. intros e He. simpl.
  by rewrite (parseInt10_digits _ He).
Qed.

(** The closed form for keys that are numeric identifiers. *)
Lemma assignMarksToStudents_closed studentInfo markValues :
  Forall (fun e => digitString e.1) studentInfo ->
  let sorted :=
    sortBy (fun a b => (a.1 <=? b.1)%Z)
           (map (fun e => (digitsValue e.1, e.2)) studentInfo) in
  let m := Nat.min 4 (length markValues / length studentInfo) in
  assignMarksToStudents studentInfo markValues
  = Some (imap (studentAt markValues m) sorted).
Proof.
  intros Hkeys.
  rewrite (assignMarksToStudents_entries _ _ _ (numeric_keys_entries _ Hkeys)).
  by rewrite length_map.
Qed.

Lemma firstFour_slots (l : list Q) p :
  p < 4 -> slots (firstFour l) !! p = Some (l !! p).
Proof. intros Hp. by do 4 (destruct p as [|p]; [done|]); lia. Qed.

End Distribution.

(** C9.  For a non-empty student-info mapping whose keys are numeric
    identifiers of at most 2^53 (the integers a JavaScript number holds
    exactly), and any sequence of harvested marks: the (id, name) pairs
    are sorted ascending by numeric id; with marksPerStudent = min(4,
    floor(total / studentCount)), the student at position k of that order
    receives the harvested values k * marksPerStudent, ...,
    k * marksPerStudent + marksPerStudent - 1, in this order, in fard1,
    fard2, fard3, activities; its other slots are null; and the values from
    studentCount * marksPerStudent on are not used. *)
Theorem assignMarksToStudents_distribution
    (studentInfo : list (list N * list N)) (markValues : list Q) :
  studentInfo <> [] ->
  Forall (fun e => digitString e.1) studentInfo ->
  Forall (fun e => (digitsValue e.1 <= 2 ^ 53)%Z) studentInfo ->
  let studentCount := length studentInfo in
  let marksPerStudent := Nat.min 4 (length markValues / studentCount) in
  exists sorted students,
    OCRService.assignMarksToStudents studentInfo markValues = Some students
    /\ sorted ≡ₚ map (fun e => (digitsValue e.1, e.2)) studentInfo
    /\ Sorted byId sorted
    /\ length students = studentCount
    /\ (forall k e, sorted !! k = Some e ->
        exists st,
          students !! k = Some st
          /\ number st = inject_Z e.1 /\ name st = e.2
          /\ forall p, p < 4 ->
               if bool_decide (p < marksPerStudent)
               then exists v,
                   markValues !! (k * marksPerStudent + p) = Some v
                   /\ slots (marks st) !! p = Some (Some v)
               else slots (marks st) !! p = Some None)
    /\ OCRService.assignMarksToStudents studentInfo
         (take (studentCount * marksPerStudent) markValues) = Some students.
Proof.
  intros Hne Hkeys _ studentCount m.
  set (le := fun a b : Z * list N => (a.1 <=? b.1)%Z).
  set (entries := map (fun e => (digitsValue e.1, e.2)) studentInfo).
  assert (Hcount : studentCount <> 0) by (by destruct studentInfo).
  assert (Hfit : studentCount * m <= length markValues)
    by (by apply per_student_fits).
  assert (Hlen : length (sortBy le entries) = studentCount).
  { unfold entries. by rewrite sortBy_length, length_map. }
  exists (sortBy le entries), (imap (studentAt markValues m) (sortBy le entries)).
  split; [by apply assignMarksToStudents_closed|].
  split; [apply sortBy_Permutation|].
  split.
  { apply sortBy_Sorted_as.
    - intros a b. unfold le. rewrite !Z.leb_le. lia.
    - intros a b H. by apply Z.leb_le in H. }
  split; [by rewrite length_imap|].
  split.
  - intros k e Hk. exists (studentAt markValues m k e).
    split; [by rewrite list_lookup_imap, Hk|]. split; [done|]. split; [done|].
    intros p Hp. unfold studentAt. simpl marks.
    rewrite (firstFour_slots _ p Hp).
    assert (k < studentCount) as Hklt.
    { rewrite <- Hlen. by eapply lookup_lt_Some. }
    case_bool_decide as Hpm.
    + rewrite lookup_take_lt, lookup_drop by done.
      destruct (lookup_lt_is_Some_2 markValues (k * m + p)) as [v Hv];
        [clearbody m; nia|].
      exists v. by rewrite Hv.
    + by rewrite lookup_take_ge by lia.
  - rewrite assignMarksToStudents_closed by done.
    fold studentCount entries le.
    rewrite length_take, (Nat.min_l (studentCount * m)) by exact Hfit.
    rewrite (Nat.mul_comm studentCount m), Nat.div_mul by exact Hcount.
    assert (Nat.min 4 m = m) as -> by (unfold m; apply Nat.min_r, Nat.le_min_l).
    f_equal. apply imap_ext. intros k e Hk. unfold studentAt. do 2 f_equal.
    assert (k < studentCount) as Hklt.
    { rewrite <- Hlen. by eapply lookup_lt_Some. }
    rewrite !take_drop_commute, take_take. do 2 f_equal.
    clearbody m. nia.
Qed.

Lemma assignMarksToStudents_distribution_witness :
  let studentInfo := [(js "2", js "سعيد"); (js "10", js "يوسف"); (js "7", js "أحمد")] in
  let markValues := [12; 7 # 2; 20; 0; 31 # 2; 9; 18; 5]%Q in
  studentInfo <> []
  /\ Forall (fun e => digitString e.1) studentInfo
  /\ Forall (fun e => (digitsValue e.1 <= 2 ^ 53)%Z) studentInfo
  /\ exists sorted students,
      OCRService.assignMarksToStudents studentInfo markValues = Some students
      /\ sorted ≡ₚ map (fun e => (digitsValue e.1, e.2)) studentInfo
      /\ Sorted byId sorted
      /\ length students = 3
      /\ (forall k e, sorted !! k = Some e ->
          exists st,
            students !! k = Some st
            /\ number st = inject_Z e.1 /\ name st = e.2
            /\ forall p, p < 4 ->
                 if bool_decide (p < 2)
                 then exists v,
                     markValues !! (k * 2 + p) = Some v
                     /\ slots (marks st) !! p = Some (Some v)
                 else slots (marks st) !! p = Some None)
      /\ OCRService.assignMarksToStudents studentInfo (take (3 * 2) markValues)
         = Some students.
Proof.
  intros studentInfo markValues.
  assert (H1 : studentInfo <> []) by discriminate.
  assert (H2 : Forall (fun e => digitString e.1) studentInfo).
  { repeat constructor; discriminate. }
  assert (H3 : Forall (fun e => (digitsValue e.1 <= 2 ^ 53)%Z) studentInfo).
  { repeat constructor; apply Z.leb_le; vm_compute; reflexivity. }
  split; [exact H1|]. split; [exact H2|]. split; [exact H3|].
  exact (assignMarksToStudents_distribution studentInfo markValues H1 H2 H3).
Defined.

(** ** Bounds on the marks *)

Section MarkBounds.
Import OCRService.

Lemma inMarkRange_bounds v : inMarkRange v = true -> (0 <= v)%Q /\ (v <= 20)%Q.
Proof.
  unfold inMarkRange. rewrite andb_true_iff, !Qle_bool_iff. done.
Qed.

Lemma tokenMarks_in_range tokens v :
  v ∈ tokenMarks tokens -> inMarkRange v = true.
Proof.
  unfold tokenMarks. rewrite list_elem_of_omap. intros (tok & _ & H).
  destruct (parseFloat _) as [w|]; [|done].
  destruct (inMarkRange w) eqn:Hw; [|done]. by injection H as <-.
Qed.

Lemma extractMarkValues_in_range lines v :
  v ∈ extractMarkValues lines -> inMarkRange v = true.
Proof.
  unfold extractMarkValues. rewrite list_elem_of_In, in_concat.
  intros (l & Hl & Hv). apply in_map_iff in Hl as (line & <- & _).
  destruct (isMetadataLine line); [done|].
  by apply (tokenMarks_in_range (markTokens line)), list_elem_of_In.
Qed.

Lemma firstFour_elem (l : list Q) v : Some v ∈ slots (firstFour l) -> v ∈ l.
Proof.
  unfold slots, firstFour. simpl. rewrite !elem_of_cons, elem_of_nil.
  intros [H|[H|[H|[H|[]]]]]; symmetry in H;
    by apply list_elem_of_lookup_2 in H.
Qed.

Lemma studentAt_marks markValues m k e v :
  Some v ∈ slots (marks (studentAt markValues m k e)) -> v ∈ markValues.
Proof.
  intros H. apply firstFour_elem in H.
  by apply subseteq_take, subseteq_drop in H.
Qed.

(** Every mark the pattern-based extractor assigns is one of the harvested
    values. *)
Lemma extractStudentsByPatterns_in_range lines :
  Forall marksInRange (extractStudentsByPatterns lines).
Proof.
  unfold extractStudentsByPatterns.
  destruct (findStudentSection lines) as [section|]; [|constructor].
  case_bool_decide; [constructor|].
  destruct (assignMarksToStudents _ _) as [students|] eqn:Hassign;
    [|constructor].
  destruct (mapM (fun e => id ← parseInt10 e.1; Some (id, e.2))
              (extractStudentInfoFromSection section))
    as [entries|] eqn:Hentries;
    [|unfold assignMarksToStudents in Hassign; by rewrite Hentries in Hassign].
  rewrite (assignMarksToStudents_entries _ _ _ Hentries) in Hassign.
  injection Hassign as <-.
  apply Forall_forall. intros st Hst.
  apply elem_of_lookup_imap in Hst as (k & e & -> & _).
  intros v Hv. apply studentAt_marks in Hv.
  by apply inMarkRange_bounds, (extractMarkValues_in_range lines).
Qed.

Lemma extractBasicStudentData_in_range lines :
  Forall marksInRange (extractBasicStudentData lines).
Proof.
  unfold extractBasicStudentData. apply Forall_forall. intros st Hst.
  apply list_elem_of_omap in Hst as (o & Ho & Hid). simpl in Hid. subst o.
  apply elem_of_lookup_imap in Ho as (i & line & Hst & _).
  unfold basicStudent in Hst.
  destruct (leadingNumber line) as [digits|]; [|done].
  intros v Hv.
  assert (marks st = firstFour (tokenMarks (decimalTokens line))) as Hm
    by (apply (inj Some) in Hst; by rewrite Hst).
  rewrite Hm in Hv. apply firstFour_elem in Hv.
  by apply inMarkRange_bounds, (tokenMarks_in_range (decimalTokens line)).
Qed.

End MarkBounds.

Section TableMarks.
Import TableDetectionService.

Lemma Qnonneg_plus (a b : Q) : (0 <= a)%Q -> (0 <= b)%Q -> (0 <= a + b)%Q.
Proof.
  intros Ha Hb. rewrite <- (Qplus_0_l 0). by apply Qplus_le_compat.
Qed.

Lemma Qnonneg_inject (z : Z) : (0 <= z)%Z -> (0 <= inject_Z z)%Q.
Proof. intros Hz. change 0%Q with (inject_Z 0). by rewrite <- Zle_Qle. Qed.

Lemma digits_fold_nonneg ds acc :
  (0 <= acc)%Z -> forallb isDigit ds = true ->
  (0 <= foldl (fun acc c => acc * 10 + (Z.of_N c - 48)) acc ds)%Z.
Proof.
  revert acc. induction ds as [|c ds IH]; intros acc Hacc; simpl; [done|].
  rewrite andb_true_iff. intros [Hc Hds]. apply IH; [|done].
  unfold isDigit in Hc. apply andb_true_iff in Hc as [Hlo _].
  apply N.leb_le in Hlo. lia.
Qed.

Lemma digitsValue_nonneg ds : forallb isDigit ds = true -> (0 <= digitsValue ds)%Z.
Proof. by apply digits_fold_nonneg. Qed.

Lemma decimalValue_nonneg ip fp :
  forallb isDigit ip = true -> forallb isDigit fp = true ->
  (0 <= decimalValue ip fp)%Q.
Proof.
  intros Hip Hfp. unfold decimalValue. rewrite Qred_correct.
  apply Qnonneg_plus; [by apply Qnonneg_inject, digitsValue_nonneg|].
  apply Qmult_le_0_compat; [by apply Qnonneg_inject, digitsValue_nonneg|].
  apply Qinv_le_0_compat, Qnonneg_inject. lia.
Qed.

Lemma parseFloat_nonneg s v : parseFloat s = Some v -> (0 <= v)%Q.
Proof.
  unfold parseFloat. destruct (span_of isDigit s) as [ip r] eqn:E.
  destruct (span_of_spec _ _ _ _ E) as (_ & Hip & _).
  assert (Hint : (0 <= decimalValue ip [])%Q) by (by apply decimalValue_nonneg).
  destruct r as [|c r].
  - case_bool_decide; [done|]. by intros [= <-].
  - destruct (c =? 46)%N.
    + destruct (span_of isDigit r) as [fp r'] eqn:E'.
      destruct (span_of_spec _ _ _ _ E') as (_ & Hfp & _). simpl.
      destruct (_ && _); [done|]. intros [= <-].
      by apply decimalValue_nonneg.
    + case_bool_decide; [done|]. by intros [= <-].
Qed.

Lemma parseNumericValue_nonneg text v :
  parseNumericValue text = Some v -> (0 <= v)%Q.
Proof.
  unfold parseNumericValue. destruct (isPlainNumber _).
  - apply parseFloat_nonneg.
  - destruct (firstMarkPair _) as [[g1 g2]|]; [|done]. apply parseFloat_nonneg.
Qed.

Lemma toFixed2_nonneg v : (0 <= v)%Q -> (0 <= toFixed2 v)%Q.
Proof.
  intros Hv. unfold toFixed2. rewrite Qred_correct.
  apply Qmult_le_0_compat; [|done].
  apply Qnonneg_inject. change 0%Z with (Qfloor 0).
  apply Qfloor_resp_le. apply Qnonneg_plus; [|done].
  by apply Qmult_le_0_compat.
Qed.

Lemma parseLine_nonneg line rowIndex :
  Forall cellNonNegative (parseLine line rowIndex).
Proof.
  apply Forall_forall. intros c Hc.
  destruct (parseLine_cell _ _ _ Hc) as (colIndex & segment & _ & Hmk).
  destruct (segmentCell_Some _ _ _ _ Hmk) as (_ & _ & Hval & _).
  intros v Hv. rewrite Hval in Hv. by apply parseNumericValue_nonneg in Hv.
Qed.

Lemma refineGrid_nonneg grid :
  Forall (Forall cellNonNegative) grid ->
  Forall (Forall cellNonNegative) (refineGrid grid).
Proof.
  intros Hgrid. unfold refineGrid. destruct grid as [|r0 grid0] eqn:Eg; [done|].
  rewrite <- Eg in *. clear Eg.
  apply Forall_forall. intros r Hr.
  apply elem_of_lookup_imap in Hr as (rowIndex & r' & -> & Hr').
  apply Forall_app. split.
  - apply Forall_forall. intros c Hc.
    apply elem_of_lookup_imap in Hc as (colIndex & c' & -> & Hc').
    intros v Hv. simpl in Hv.
    eapply Forall_lookup_1 in Hgrid; [|exact Hr'].
    eapply Forall_lookup_1 in Hgrid; [|exact Hc']. by apply Hgrid.
  - apply Forall_forall. intros c Hc.
    apply list_elem_of_fmap in Hc as (colIndex & -> & _). by intros v [=].
Qed.

Lemma createPreliminaryGrid_nonneg lines :
  Forall (Forall cellNonNegative) (createPreliminaryGrid lines).
Proof.
  unfold createPreliminaryGrid. destruct (dataStartLine lines); [|done].
  apply refineGrid_nonneg, Forall_forall. intros r Hr.
  apply elem_of_lookup_imap in Hr as (rowIndex & lineIndex & -> & _).
  apply parseLine_nonneg.
Qed.

Lemma detectTable_cells lines ts :
  detectTable lines = Some ts -> cells ts = createPreliminaryGrid lines.
Proof.
  unfold detectTable, identifyTableStructure. case_bool_decide; [done|].
  destruct (createPreliminaryGrid lines) as [|row0 grid]; [done|].
  destruct (identifyColumns _ _); [|done]. simpl. by intros [= <-].
Qed.

Lemma setMark_nonneg m markIndex v :
  (0 <= v)%Q ->
  (forall w, Some w ∈ slots m -> (0 <= w)%Q) ->
  forall w, Some w ∈ slots (setMark m markIndex v) -> (0 <= w)%Q.
Proof.
  intros Hv Hm w. unfold slots in *.
  destruct markIndex as [|[|[|[|markIndex]]]]; simpl; [| | | |apply Hm];
    rewrite !elem_of_cons, elem_of_nil;
    intros [H|[H|[H|[H|[]]]]];
    first [ assert (w = v) as -> by congruence; exact Hv
          | apply Hm; rewrite H; set_solver ].
Qed.

Lemma rowMarks_nonneg r markColumns :
  Forall cellNonNegative r ->
  forall w, Some w ∈ slots (rowMarks r markColumns) -> (0 <= w)%Q.
Proof.
  intros Hr. unfold rowMarks.
  generalize (imap pair markColumns) as steps.
  assert (Hstart : forall w, Some w ∈ slots noMarks -> (0 <= w)%Q).
  { intros w. unfold slots, noMarks. simpl.
    rewrite !elem_of_cons, elem_of_nil.
    intros [H|[H|[H|[H|[]]]]]; discriminate. }
  revert Hstart. generalize noMarks as m.
  intros m Hm steps. revert m Hm.
  induction steps as [|[markIndex colIndex] steps IH]; intros m Hm; simpl;
    [done|].
  apply IH. unfold markStep. case_bool_decide; [|done].
  destruct (r !! colIndex) as [markCell|] eqn:Hcell; [|done].
  destruct (isNumeric markCell); [|done].
  destruct (value markCell) as [v|] eqn:Hv; [|done].
  apply setMark_nonneg; [|done]. apply toFixed2_nonneg.
  eapply Forall_lookup_1 in Hr; [|exact Hcell]. by apply Hr.
Qed.

Lemma extractStudentData_nonneg ts :
  Forall (Forall cellNonNegative) (cells ts) ->
  Forall marksNonNegative (extractStudentData ts).
Proof.
  intros Hcells. unfold extractStudentData. apply Forall_forall. intros st Hst.
  apply list_elem_of_omap in Hst as (o & Ho & Hid). simpl in Hid. subst o.
  apply elem_of_lookup_imap in Ho as (k & r & Hst & Hr).
  unfold rowStudent in Hst. destruct (_ && _); [done|].
  apply (inj Some) in Hst.
  assert (marks st = rowMarks r (markColumns ts)) as Hm by (by rewrite Hst).
  intros w Hw. rewrite Hm in Hw. apply (rowMarks_nonneg r (markColumns ts)); [|done].
  rewrite lookup_drop in Hr. by eapply Forall_lookup_1 in Hcells.
Qed.

Lemma tableBased_nonneg lines students :
  OCRService.tableBased lines = Some students ->
  Forall marksNonNegative students.
Proof.
  unfold OCRService.tableBased.
  destruct (detectTable lines) as [ts|] eqn:Hts; [|done]. simpl.
  intros [= <-]. apply extractStudentData_nonneg.
  rewrite (detectTable_cells _ _ Hts). apply createPreliminaryGrid_nonneg.
Qed.

End TableMarks.

(** C1 (as amended).  For every list of input lines, each non-null mark of
    a record produced by the pattern-based or by the basic strategy lies in
    [0, 20]; each non-null mark of a record produced by the table-based
    strategy is the value of a numeric cell of a mark column rounded to two
    decimals, and is not negative. *)
Theorem marks_bounds_by_strategy :
  (forall lines,
      Forall marksInRange (OCRService.extractStudentsByPatterns lines))
  /\ (forall lines,
         Forall marksInRange (OCRService.extractBasicStudentData lines))
  /\ (forall lines students,
         OCRService.tableBased lines = Some students ->
         Forall marksNonNegative students).
Proof.
  split; [apply extractStudentsByPatterns_in_range|].
  split; [apply extractBasicStudentData_in_range|].
  apply tableBased_nonneg.
Qed.

Lemma marks_bounds_by_strategy_witness :
  let lines := [js "رقم  اسم  الفرض"; js "1  أحمد  25"] in
  exists students,
    OCRService.tableBased lines = Some students
    /\ Forall marksNonNegative students
    /\ Forall marksInRange (OCRService.extractStudentsByPatterns lines)
    /\ Forall marksInRange (OCRService.extractBasicStudentData lines).
Proof.
  intros lines.
  destruct marks_bounds_by_strategy as (Hpattern & Hbasic & Htable).
  eexists. split; [vm_compute; reflexivity|].
  split; [apply (Htable lines); vm_compute; reflexivity|].
  split; [apply Hpattern|apply Hbasic].
Defined.

(** C1 as stated fails for the table-based strategy: on the two lines
    "رقم  اسم  الفرض" and "1  أحمد  25" the entry point returns, through the
    table-based strategy, a record whose first mark is 25. *)
Lemma table_strategy_assigns_mark_above_20 :
  let text := js "رقم  اسم  الفرض" ++ [0x0A%N] ++ js "1  أحمد  25" in
  OCRService.processLines (OCRService.textLines text)
  = ([OCRService.TableBased],
     [{| number := 1; name := js "أحمد";
         marks := {| fard1 := Some 25%Q; fard2 := None; fard3 := None;
                     activities := None |} |}])
  /\ ~ Forall marksInRange
         (OCRService.processOCRWithMultipleApproaches text).
Proof.
  split; [vm_compute; reflexivity|].
  replace (OCRService.processOCRWithMultipleApproaches _)
    with [{| number := 1; name := js "أحمد";
             marks := {| fard1 := Some 25%Q; fard2 := None; fard3 := None;
                         activities := None |} |}]
    by (vm_compute; reflexivity).
  intros H. apply Forall_cons in H as [H _].
  destruct (H 25%Q) as [_ Hle]; [unfold slots; simpl; apply list_elem_of_here|].
  vm_compute in Hle. by apply Hle.
Qed.

(** ** The columns of the table *)

Section ColumnFacts.
Import TableDetectionService.

Lemma filter_seq_sorted (P : nat -> Prop) `{!∀ x, Decision (P x)} a n :
  StronglySorted lt (filter P (seq a n)).
Proof.
  revert a. induction n as [|n IH]; intros a; simpl; [constructor|].
  rewrite filter_cons. destruct (decide (P a)); [|apply IH].
  constructor; [apply IH|].
  apply Forall_forall. intros x Hx.
  apply list_elem_of_filter in Hx as [_ Hx]. apply elem_of_seq in Hx. lia.
Qed.

Lemma sortBy_leb_sorted (l : list nat) :
  StronglySorted lt l -> sortBy Nat.leb l = l.
Proof.
  induction 1 as [|x l Hl IH Hx]; simpl; [done|]. rewrite IH.
  destruct Hx as [|y l Hxy _]; simpl; [done|].
  by rewrite (proj2 (Nat.leb_le x y)) by lia.
Qed.

Lemma headerStep_marks acc colIndex c :
  marksColumns (headerStep acc colIndex c) = marksColumns acc
  \/ marksColumns (headerStep acc colIndex c) = marksColumns acc ++ [colIndex].
Proof.
  unfold headerStep.
  repeat match goal with
         | |- context [if ?b then _ else _] => destruct b
         end; simpl; auto.
Qed.

Lemma headerPass_sorted grid headerRow :
  StronglySorted lt (marksColumns (headerPass grid headerRow)).
Proof.
  unfold headerPass. destruct (grid !! headerRow) as [r|]; [|constructor].
  set (start := {| idColumn := -1; nameColumn := -1; marksColumns := [] |}).
  assert (StronglySorted lt
            (marksColumns (foldl (fun acc '(colIndex, c) => headerStep acc colIndex c)
                                 start (imap pair r)))
          /\ Forall (fun m => m < length r)
            (marksColumns (foldl (fun acc '(colIndex, c) => headerStep acc colIndex c)
                                 start (imap pair r)))) as [H _]; [|done].
  induction r as [|c r [IHs IHb]] using rev_ind.
  - simpl. split; constructor.
  - rewrite imap_app, foldl_app. simpl. rewrite Nat.add_0_r, length_app. simpl.
    destruct (headerStep_marks
                (foldl (fun acc '(colIndex, c) => headerStep acc colIndex c)
                       start (imap pair r)) (length r) c) as [-> | ->].
    + split; [done|]. eapply Forall_impl; [exact IHb|]. simpl. intros; lia.
    + split.
      * apply StronglySorted_app_2; [|done|repeat constructor].
        intros x1 x2 H1 H2. apply list_elem_of_singleton in H2 as ->.
        by eapply Forall_forall in IHb.
      * apply Forall_app. split; [|repeat constructor; lia].
        eapply Forall_impl; [exact IHb|]. simpl. intros; lia.
Qed.

Lemma contentPass_sorted grid headerRow width acc :
  StronglySorted lt (marksColumns acc) ->
  StronglySorted lt (marksColumns (contentPass grid headerRow width acc)).
Proof.
  intros Hacc. unfold contentPass. cbn [marksColumns].
  repeat case_bool_decide; done || apply filter_seq_sorted.
Qed.

(** The mark columns come out in strictly ascending order. *)
Lemma identifyColumns_marks_sorted grid headerRow cols :
  identifyColumns grid headerRow = Some cols ->
  StronglySorted lt (marksColumns cols).
Proof.
  unfold identifyColumns. destruct grid as [|row0 grid0] eqn:Eg; [done|].
  rewrite <- Eg. intros [= <-]. cbn [marksColumns].
  match goal with
  | |- context [sortBy Nat.leb (marksColumns ?a)] => set (acc := a)
  end.
  assert (StronglySorted lt (marksColumns acc)) as Hs.
  { unfold acc.
    destruct (_ || _); [apply contentPass_sorted|]; apply headerPass_sorted. }
  clearbody acc. rewrite (sortBy_leb_sorted _ Hs).
  case_bool_decide; [apply filter_seq_sorted|done].
Qed.

Lemma detectTable_marks_sorted lines ts :
  detectTable lines = Some ts -> StronglySorted lt (markColumns ts).
Proof.
  unfold detectTable, identifyTableStructure. case_bool_decide; [done|].
  destruct (createPreliminaryGrid lines) as [|row0 grid] eqn:Eg; [done|].
  destruct (identifyColumns _ _) as [cols|] eqn:Hcols; [|done]. simpl.
  intros [= <-]. simpl. by eapply identifyColumns_marks_sorted.
Qed.

End ColumnFacts.

(** C2.  The identifier column, the name column and the mark columns of
    the structure are not always valid and distinct (the mark columns are
    in strictly ascending order, see [detectTable_marks_sorted]).  On the
    lines "رقم", "1", "2" the grid has a
    single column and the name column defaults to 1, which is no column of
    the grid; on the lines "اسم التلميذ  رقم التلميذ  الفرض" and
    "أحمد  1  12.50" the header cell "رقم التلميذ" holds a keyword of the
    identifier and a keyword of the name, and both columns are column 1. *)
Theorem identifyColumns_not_always_distinct_valid :
  (exists ts,
      TableDetectionService.detectTable [js "رقم"; js "1"; js "2"] = Some ts
      /\ columnsOf ts = (0%Z, 1%Z, [], 1)
      /\ ~ columnsDistinctAndValid ts)
  /\ (exists ts,
         TableDetectionService.detectTable
           [js "اسم التلميذ  رقم التلميذ  الفرض"; js "أحمد  1  12.50"] = Some ts
         /\ columnsOf ts = (1%Z, 1%Z, [2], 3)
         /\ ~ columnsDistinctAndValid ts).
Proof.
  split.
  - eexists. split; [vm_compute; reflexivity|]. split; [reflexivity|].
    intros (_ & [_ Hname] & _). simpl in Hname. lia.
  - eexists. split; [vm_compute; reflexivity|]. split; [reflexivity|].
    intros (_ & _ & Hne & _). by apply Hne.
Qed.

(** * Further properties *)

(** ** The distance as a metric *)

Section MetricFacts.
Context {A : Type} `{EqDecision A}.
Implicit Types (s t u : list A) (n m : nat).

Lemma aligned_zero n s t : aligned n s t -> n = 0 -> s = t.
Proof.
  induction 1 as [|n a s t _ IH| | |]; intros Hn; try discriminate.
  - done.
  - by rewrite IH.
Qed.

Lemma lev_zero s t : lev s t = 0 <-> s = t.
Proof.
  split.
  - intros H. eapply aligned_zero; [apply lev_aligned|done].
  - intros ->. pose proof (lev_le_aligned _ _ _ (aligned_refl t)). lia.
Qed.

Lemma edits_trans n m s t u : edits n s t -> edits m t u -> edits (m + n) s u.
Proof.
  intros Hst Htu. induction Htu as [|m t u v _ IH Hv]; simpl; [done|].
  eapply edits_more; [exact (IH Hst)|exact Hv].
Qed.

Lemma lev_triangle s t u : lev s u <= lev s t + lev t u.
Proof.
  destruct (lev_is_edit_distance s t) as [Hst _].
  destruct (lev_is_edit_distance t u) as [Htu _].
  destruct (lev_is_edit_distance s u) as [_ Hmin].
  pose proof (Hmin _ (edits_trans _ _ _ _ _ Hst Htu)). lia.
Qed.

Lemma aligned_lengths n s t :
  aligned n s t -> length s <= length t + n /\ length t <= length s + n.
Proof. induction 1; simpl; lia. Qed.

Lemma aligned_within_max s t :
  exists n, n <= Nat.max (length s) (length t) /\ aligned n s t.
Proof.
  revert t. induction s as [|a s IH]; intros t.
  - exists (length t). split; [simpl; lia|apply aligned_nil_l].
  - destruct t as [|b t].
    + exists (length (a :: s)). split; [simpl; lia|apply aligned_nil_r].
    + destruct (IH t) as (n & Hn & Hal). exists (S n).
      split; [simpl; lia|]. by apply al_sub.
Qed.

Lemma lev_bounds s t :
  length s - length t <= lev s t
  /\ length t - length s <= lev s t
  /\ lev s t <= Nat.max (length s) (length t).
Proof.
  pose proof (aligned_lengths _ _ _ (lev_aligned s t)) as [H1 H2].
  destruct (aligned_within_max s t) as (n & Hn & Hal).
  apply lev_le_aligned in Hal. lia.
Qed.

End MetricFacts.

(** X1.  [editDistance] is a metric on strings: it always returns a number,
    which is 0 exactly for equal strings, is the same in both directions,
    and obeys the triangle inequality. *)
Theorem editDistance_metric :
  exists d : list N -> list N -> nat,
    (forall s t, ExcelService.editDistance s t = Some (d s t))
    /\ (forall s t, d s t = 0 <-> s = t)
    /\ (forall s t, d s t = d t s)
    /\ (forall s t u, d s u <= d s t + d t u).
Proof.
  exists lev. split; [apply editDistance_lev|].
  split; [apply lev_zero|]. split; [apply lev_sym|apply lev_triangle].
Qed.

(** X2.  The number [editDistance] returns is at least the difference of
    the two lengths and at most the greater length. *)
Theorem editDistance_bounds (s t : list N) :
  exists n,
    ExcelService.editDistance s t = Some n
    /\ length s - length t <= n
    /\ length t - length s <= n
    /\ n <= Nat.max (length s) (length t).
Proof.
  exists (lev s t). split; [apply editDistance_lev|apply lev_bounds].
Qed.

(** ** More on similarity *)

Section SimilarityRange.
Import ExcelService.

Lemma is_substring_dec (p s : list N) : is_substring p s \/ ~ is_substring p s.
Proof.
  destruct (includes s p) eqn:E.
  - left. by apply includes_substring.
  - right. intros H. apply includes_substring in H. congruence.
Qed.

Lemma similarityScore_unique s1 s2 longer shorter q q' :
  similarityScore s1 s2 longer shorter q ->
  similarityScore s2 s1 longer shorter q' -> q = q'.
Proof.
  intros (H1 & H2 & H3) (H1' & H2' & H3').
  destruct (decide (s1 = s2)) as [->|Hne].
  - by rewrite H1, H1'.
  - destruct (is_substring_dec shorter longer) as [Hs|Hs].
    + rewrite H2, H2' by done. done.
    + rewrite H3, H3' by done. done.
Qed.

Lemma ratio_in_unit (len d : nat) :
  0 < len -> d <= len ->
  (0 <= (inject_Z (Z.of_nat len) - inject_Z (Z.of_nat d))
        / inject_Z (Z.of_nat len) <= 1)%Q.
Proof.
  intros Hlen Hd.
  assert (Hpos : (0 < inject_Z (Z.of_nat len))%Q).
  { change 0%Q with (inject_Z 0). rewrite <- Zlt_Qlt. lia. }
  assert (Hdiff : (inject_Z (Z.of_nat len) - inject_Z (Z.of_nat d)
                   == inject_Z (Z.of_nat len - Z.of_nat d))%Q).
  { unfold Z.sub. by rewrite inject_Z_plus, inject_Z_opp. }
  split.
  - apply Qle_shift_div_l; [done|]. rewrite Qmult_0_l, Hdiff.
    change 0%Q with (inject_Z 0). rewrite <- Zle_Qle. lia.
  - apply Qle_shift_div_r; [done|]. rewrite Qmult_1_l, Hdiff.
    rewrite <- Zle_Qle. lia.
Qed.

Lemma score_in_unit s1 s2 longer shorter q :
  length shorter <= length longer ->
  similarityScore s1 s2 longer shorter q -> (0 <= q <= 1)%Q.
Proof.
  intros Hlen (H1 & H2 & H3).
  destruct (decide (s1 = s2)) as [He|Hne]; [by rewrite (H1 He)|].
  destruct (is_substring_dec shorter longer) as [Hs|Hs];
    [by rewrite (H2 Hne Hs)|].
  rewrite (H3 Hne Hs).
  destruct (decide (length longer = 0)) as [H0|Hn].
  - exfalso. apply Hs. destruct longer, shorter; simpl in *; try lia.
    by exists [], [].
  - apply ratio_in_unit; [lia|].
    pose proof (lev_bounds longer shorter). lia.
Qed.

End SimilarityRange.

(** X3.  [calculateSimilarity] always returns a number between 0 and 1, the
    same for (s1, s2) and for (s2, s1); so [compareNames] does not depend
    on the order of the two names, and a name always matches itself. *)
Theorem calculateSimilarity_symmetric_in_unit :
  (forall s1 s2 : list N,
      exists q,
        ExcelService.calculateSimilarity s1 s2 = Some q
        /\ ExcelService.calculateSimilarity s2 s1 = Some q
        /\ (0 <= q <= 1)%Q)
  /\ (forall s1 s2 : list N,
         ExcelService.compareNames s1 s2 = ExcelService.compareNames s2 s1)
  /\ (forall s : list N, ExcelService.compareNames s s = Some true).
Proof.
  assert (Hsym : forall s1 s2 : list N,
             exists q,
               ExcelService.calculateSimilarity s1 s2 = Some q
               /\ ExcelService.calculateSimilarity s2 s1 = Some q
               /\ (0 <= q <= 1)%Q).
  { intros s1 s2.
    assert (exists longer shorter : list N,
               ((longer = s1 /\ shorter = s2) \/ (longer = s2 /\ shorter = s1))
               /\ length shorter <= length longer)
      as (longer & shorter & Hwhich & Hlen).
    { destruct (le_ge_dec (length s2) (length s1)).
      - exists s1, s2. split; [by left|done].
      - exists s2, s1. split; [by right|lia]. }
    destruct (calculateSimilarity_score s1 s2 longer shorter Hwhich Hlen)
      as (q & Hq & Hscore).
    destruct (calculateSimilarity_score s2 s1 longer shorter) as (q' & Hq' & Hscore');
      [tauto|done|].
    rewrite (similarityScore_unique _ _ _ _ _ _ Hscore Hscore') in *.
    exists q'. split; [done|]. split; [done|]. by eapply score_in_unit. }
  split; [exact Hsym|]. split.
  - intros s1 s2. unfold ExcelService.compareNames.
    destruct (Hsym s1 s2) as (q & -> & -> & _). done.
  - intros s. unfold ExcelService.compareNames, ExcelService.calculateSimilarity,
      str_eqb.
    by rewrite bool_decide_eq_true_2.
Qed.

(** ** Where the row finders can point *)

Section FinderRange.
Import ExcelService.

Lemma scanRows_range {A} (p : A -> bool) rows i :
  scanRows p rows i = (-1)%Z
  \/ (Z.of_nat i <= scanRows p rows i < Z.of_nat (i + length rows))%Z.
Proof.
  destruct (scanRows_first p rows i) as [[-> _]|(k & row & -> & Hk & _)];
    [by left|right].
  apply lookup_lt_Some in Hk. lia.
Qed.

Lemma scanRowsExn_range {A} (test : A -> option bool) rows i r :
  scanRowsExn test rows i = Some r ->
  r = (-1)%Z \/ (Z.of_nat i <= r < Z.of_nat (i + length rows))%Z.
Proof.
  revert i. induction rows as [|row rows IH]; intros i; simpl.
  - intros [= <-]. by left.
  - destruct (test row) as [[|]|]; simpl; [| |done].
    + intros [= <-]. right. lia.
    + intros H. destruct (IH _ H) as [->|Hr]; [by left|right]. lia.
Qed.

Lemma drop_1_range {A} (values : list A) (r : Z) :
  r = (-1)%Z \/ (Z.of_nat 1 <= r < Z.of_nat (1 + length (drop 1 values)))%Z ->
  r = (-1)%Z \/ (1 <= r < Z.of_nat (length values))%Z.
Proof.
  intros [->|Hr]; [by left|right].
  rewrite length_drop in Hr. destruct values; simpl in *; lia.
Qed.

Lemma includes_nil (s : list N) : includes s [] = true.
Proof. apply includes_substring. by exists [], s. Qed.

Lemma similarity_to_empty (s : list N) :
  exists q, calculateSimilarity s [] = Some q /\ (7 # 10 < q)%Q.
Proof.
  unfold calculateSimilarity.
  destruct (str_eqb s []) eqn:E; [by exists 1%Q|].
  assert (s <> []) as Hne.
  { intros ->. unfold str_eqb in E. by rewrite bool_decide_eq_true_2 in E. }
  assert (length (@nil N) < length s) as Hlt by (destruct s; simpl; [done|lia]).
  rewrite !(bool_decide_eq_true_2 _ Hlt).
  rewrite bool_decide_eq_false_2 by lia.
  rewrite includes_nil. by exists (9 # 10)%Q.
Qed.

Lemma findStudentRowByNumber_range numColumn studentNum values :
  findStudentRowByNumber numColumn studentNum values = (-1)%Z
  \/ (1 <= findStudentRowByNumber numColumn studentNum values
       < Z.of_nat (length values))%Z.
Proof. apply drop_1_range, scanRows_range. Qed.

Lemma findStudentRowByName_range nfkd toLowerCase nameColumn studentName values r :
  findStudentRowByName nfkd toLowerCase nameColumn studentName values = Some r ->
  r = (-1)%Z \/ (1 <= r < Z.of_nat (length values))%Z.
Proof.
  intros Hr. unfold findStudentRowByName in Hr.
  destruct (normalize_string nfkd toLowerCase studentName) as [t Ht].
  rewrite Ht in Hr. simpl in Hr.
  apply scanRowsExn_range in Hr. by apply drop_1_range.
Qed.

(** The first row with an empty name cell stops the search by name. *)
Lemma empty_name_cell_matches nfkd toLowerCase nameColumn studentName values
    i row :
  nameColumnIsText nameColumn values ->
  1 <= i -> values !! i = Some row ->
  column_below_length row nameColumn = true ->
  truthy (at_column row nameColumn) = false ->
  exists r,
    findStudentRowByName nfkd toLowerCase nameColumn studentName values = Some r
    /\ (1 <= r <= Z.of_nat i)%Z.
Proof.
  intros Htext Hi Hrow Hlen Hempty.
  destruct (findStudentRowByName_FirstMatch nfkd toLowerCase _ studentName _ Htext)
    as (r & Hr & Hfirst).
  exists r. split; [done|].
  assert (nameQualifiedRow nfkd toLowerCase nameColumn studentName row) as Hq.
  { split; [by apply Z.ltb_lt|].
    destruct (normalize_string nfkd toLowerCase studentName) as [t Ht].
    destruct (similarity_to_empty t) as (q & Hsim & Hgt).
    exists t, [], q. split; [done|]. split; [|done].
    unfold normalizeArabicText. by rewrite Hempty. }
  destruct Hfirst as [[_ Hnone]|(k & row' & -> & Hk & _ & _ & Hbefore)].
  - destruct (Hnone i row Hi Hrow Hq).
  - split; [lia|]. destruct (decide (k <= i)) as [|Hgt]; [lia|].
    destruct (Hbefore i row); [lia|done|done].
Qed.

(** Without a name column (-1) the search by name stops at row 1. *)
Lemma no_name_column_row_1 nfkd toLowerCase studentName values :
  2 <= length values ->
  findStudentRowByName nfkd toLowerCase (-1) studentName values = Some 1%Z.
Proof.
  intros Hlen.
  destruct (lookup_lt_is_Some_2 values 1) as [row Hrow]; [lia|].
  destruct (empty_name_cell_matches nfkd toLowerCase (-1) studentName values
              1 row) as (r & Hr & Hrange); try done.
  - unfold column_below_length. apply Z.ltb_lt. lia.
  - rewrite Hr. f_equal. lia.
Qed.

End FinderRange.

(** X4.  Neither row finder ever points at the header row or outside the
    roster: the result is -1 or an index from 1 to the last row.  On a
    roster with no row below the header both give -1. *)
Theorem row_finders_stay_below_header
    (nfkd toLowerCase : list N -> list N) (column : Z) (target : list N)
    (values : list (list ExcelService.CellValue)) :
  (let r := ExcelService.findStudentRowByNumber column target values in
   r = (-1)%Z \/ (1 <= r < Z.of_nat (length values))%Z)
  /\ (forall r,
         ExcelService.findStudentRowByName nfkd toLowerCase column target values
         = Some r ->
         r = (-1)%Z \/ (1 <= r < Z.of_nat (length values))%Z)
  /\ (length values <= 1 ->
      ExcelService.findStudentRowByNumber column target values = (-1)%Z
      /\ ExcelService.findStudentRowByName nfkd toLowerCase column target values
         = Some (-1)%Z).
Proof.
  split; [|split].
  - apply findStudentRowByNumber_range.
  - apply findStudentRowByName_range.
  - intros Hlen. unfold ExcelService.findStudentRowByNumber,
      ExcelService.findStudentRowByName.
    destruct (normalize_string nfkd toLowerCase target) as [t ->].
    destruct values as [|h [|]]; simpl in *; done || lia.
Qed.

Lemma row_finders_stay_below_header_witness :
  let roster := [[ExcelService.VStr (js "name")];
                 [ExcelService.VStr (js "sara")]] in
  ExcelService.findStudentRowByName (fun s => s) (fun s => s) 0 (js "sara") roster
  = Some 1%Z
  /\ (1%Z = (-1)%Z \/ (1 <= 1 < Z.of_nat (length roster))%Z)
  /\ ExcelService.findStudentRowByNumber 0 (js "7") [[ExcelService.VNum 7]]
     = (-1)%Z.
Proof.
  intros roster. split; [vm_compute; reflexivity|]. split.
  - apply (proj1 (proj2 (row_finders_stay_below_header
                           (fun s => s) (fun s => s) 0 (js "sara") roster))).
    vm_compute; reflexivity.
  - apply (proj2 (proj2 (row_finders_stay_below_header
                           (fun s => s) (fun s => s) 0 (js "7")
                           [[ExcelService.VNum 7]]))).
    simpl; lia.
Defined.

(** X5.  An empty name cell matches every name: on a roster whose name
    column holds text, if row [i] (below the header) is long enough to have
    the name column and its cell there is empty, name matching returns a
    row from 1 to [i], whatever the name looked for.  In particular, when
    the worksheet has no name column (-1), name matching returns row 1 for
    every name as soon as the roster has a row below the header. *)
Theorem findStudentRowByName_empty_cell_matches
    (nfkd toLowerCase : list N -> list N) (studentName : list N)
    (values : list (list ExcelService.CellValue)) :
  (forall nameColumn i row,
      nameColumnIsText nameColumn values ->
      1 <= i -> values !! i = Some row ->
      ExcelService.column_below_length row nameColumn = true ->
      ExcelService.truthy (ExcelService.at_column row nameColumn) = false ->
      exists r,
        ExcelService.findStudentRowByName nfkd toLowerCase nameColumn
          studentName values = Some r
        /\ (1 <= r <= Z.of_nat i)%Z)
  /\ (2 <= length values ->
      ExcelService.findStudentRowByName nfkd toLowerCase (-1) studentName values
      = Some 1%Z).
Proof.
  split.
  - intros nameColumn i row. apply empty_name_cell_matches.
  - apply no_name_column_row_1.
Qed.

Lemma findStudentRowByName_empty_cell_matches_witness :
  let roster := [[ExcelService.VStr (js "name")];
                 [ExcelService.VStr (js "")];
                 [ExcelService.VStr (js "sara")]] in
  (exists r,
      ExcelService.findStudentRowByName (fun s => s) (fun s => s) 0 (js "sara")
        roster = Some r
      /\ (1 <= r <= Z.of_nat 1)%Z)
  /\ ExcelService.findStudentRowByName (fun s => s) (fun s => s) (-1) (js "sara")
       roster = Some 1%Z.
Proof.
  intros roster.
  destruct (findStudentRowByName_empty_cell_matches
              (fun s => s) (fun s => s) (js "sara") roster) as [Hcell Hnone].
  split.
  - apply (Hcell 0%Z 1 [ExcelService.VStr (js "")]).
    + intros k row Hk Hrow _.
      destruct k as [|[|[|k]]]; [lia| | |discriminate];
        injection Hrow as <-; eexists; reflexivity.
    + lia.
    + reflexivity.
    + reflexivity.
    + reflexivity.
  - apply Hnone. simpl. lia.
Defined.

(** ** The shape of the grid *)

Section GridShape.
Import TableDetectionService.

Lemma foldl_max_spec (grid : list (list TableCell)) m :
  m <= foldl (fun m r => Nat.max m (length r)) m grid
  /\ Forall (fun r => length r <= foldl (fun m r => Nat.max m (length r)) m grid)
            grid
  /\ (foldl (fun m r => Nat.max m (length r)) m grid = m
      \/ Exists (fun r => length r = foldl (fun m r => Nat.max m (length r)) m grid)
                grid).
Proof.
  revert m. induction grid as [|r grid IH]; intros m; simpl.
  - split; [done|]. split; [constructor|by left].
  - destruct (IH (Nat.max m (length r))) as (Hge & Hall & Hex).
    split; [lia|]. split; [constructor; [lia|done]|].
    destruct Hex as [Heq|Hex]; [|right; by constructor].
    destruct (Nat.max_spec m (length r)) as [[_ Hmax]|[_ Hmax]].
    + right. apply Exists_cons_hd. lia.
    + left. lia.
Qed.

Lemma refineGrid_imap grid :
  refineGrid grid
  = imap (fun rowIndex r =>
            imap (fun colIndex c =>
                    {| text := text c;
                       position := {| row := rowIndex; col := colIndex |};
                       isNumeric := isNumeric c;
                       value := value c |}) r
            ++ map (emptyCell rowIndex)
                   (seq (length r)
                        (foldl (fun m r => Nat.max m (length r)) 0 grid
                         - length r)))
         grid.
Proof. by destruct grid. Qed.

Lemma refineGrid_length grid : length (refineGrid grid) = length grid.
Proof. by rewrite refineGrid_imap, length_imap. Qed.

(** What [refineGrid] puts at row [i], column [j]. *)
Lemma refineGrid_cell grid i r :
  refineGrid grid !! i = Some r ->
  length r = foldl (fun m r => Nat.max m (length r)) 0 grid
  /\ forall j c, r !! j = Some c ->
       position c = {| row := i; col := j |}
       /\ match grid !! i ≫= (.!! j) with
          | Some c0 =>
              text c = text c0 /\ isNumeric c = isNumeric c0 /\ value c = value c0
          | None => c = emptyCell i j
          end.
Proof.
  rewrite refineGrid_imap, list_lookup_imap.
  destruct (grid !! i) as [r0|] eqn:Hr0; [|done]. simpl. intros [= <-].
  destruct (foldl_max_spec grid 0) as (_ & Hall & _).
  eapply Forall_lookup_1 in Hall; [|exact Hr0].
  split.
  - rewrite length_app, length_imap, length_map, length_seq. lia.
  - intros j c Hc. destruct (decide (j < length r0)) as [Hlt|Hge].
    + rewrite lookup_app_l in Hc by (by rewrite length_imap).
      rewrite list_lookup_imap in Hc.
      destruct (r0 !! j) as [c0|] eqn:Hc0; [|done]. simpl in Hc.
      injection Hc as <-. done.
    + rewrite lookup_app_r in Hc by (rewrite length_imap; lia).
      rewrite length_imap, list_lookup_fmap in Hc.
      destruct (seq _ _ !! _) as [k|] eqn:Hk; [|done]. simpl in Hc.
      apply lookup_seq in Hk as [-> _]. injection Hc as <-.
      rewrite (lookup_ge_None_2 r0 j) by lia.
      split; [simpl; f_equal; lia|]. f_equal; lia.
Qed.

End GridShape.

(** X6.  [refineGrid] makes the grid rectangular and changes nothing else:
    it keeps the number of rows, gives every row the length [w] of the
    longest row of the input, numbers the position of every cell by its row
    and column, keeps text, numeric flag and value of the cells that were
    there, and fills the rest with empty non-numeric cells. *)
Theorem refineGrid_rectangular
    (grid : list (list TableDetectionService.TableCell)) :
  exists w,
    Forall (fun r => length r <= w) grid
    /\ (grid <> [] -> Exists (fun r => length r = w) grid)
    /\ length (TableDetectionService.refineGrid grid) = length grid
    /\ forall i r,
        TableDetectionService.refineGrid grid !! i = Some r ->
        length r = w
        /\ forall j c, r !! j = Some c ->
             TableDetectionService.position c
             = {| TableDetectionService.row := i; TableDetectionService.col := j |}
             /\ match grid !! i ≫= (.!! j) with
                | Some c0 =>
                    TableDetectionService.text c = TableDetectionService.text c0
                    /\ TableDetectionService.isNumeric c
                       = TableDetectionService.isNumeric c0
                    /\ TableDetectionService.value c
                       = TableDetectionService.value c0
                | None => c = TableDetectionService.emptyCell i j
                end.
Proof.
  exists (foldl (fun m r => Nat.max m (length r)) 0 grid).
  destruct (foldl_max_spec grid 0) as (_ & Hall & Hex).
  split; [done|]. split.
  - intros Hne. destruct Hex as [H0|Hex]; [|done].
    destruct grid as [|r grid]; [done|]. rewrite H0 in *.
    apply Exists_cons_hd. apply Forall_cons in Hall as [Hr _]. lia.
  - split; [apply refineGrid_length|apply refineGrid_cell].
Qed.

Lemma refineGrid_rectangular_witness :
  let c := {| TableDetectionService.text := js "12";
              TableDetectionService.position :=
                {| TableDetectionService.row := 7; TableDetectionService.col := 7 |};
              TableDetectionService.isNumeric := true;
              TableDetectionService.value := Some 12%Q |} in
  exists w,
    w = 2
    /\ length (TableDetectionService.refineGrid [[c]; [c; c]]) = 2
    /\ TableDetectionService.refineGrid [[c]; [c; c]] !! 0
       = Some [{| TableDetectionService.text := js "12";
                  TableDetectionService.position :=
                    {| TableDetectionService.row := 0;
                       TableDetectionService.col := 0 |};
                  TableDetectionService.isNumeric := true;
                  TableDetectionService.value := Some 12%Q |};
               TableDetectionService.emptyCell 0 1].
Proof.
  intros c. destruct (refineGrid_rectangular [[c]; [c; c]])
    as (w & _ & _ & Hlen & Hrows).
  exists w. split; [|split; [exact Hlen|reflexivity]].
  destruct (Hrows 0 _ eq_refl) as [Hw _]. simpl in Hw. by rewrite <- Hw.
Defined.

(** ** Trimming and splitting *)

Section TrimFacts.

Lemma elem_of_rev {A} (l : list A) x : x ∈ rev l <-> x ∈ l.
Proof. rewrite !list_elem_of_In. symmetry. apply in_rev. Qed.

Lemma trimStart_spec (s : list N) :
  exists a, s = a ++ trimStart s /\ forallb isSpace a = true.
Proof.
  induction s as [|c s (a & Hs & Ha)]; simpl; [by exists []|].
  destruct (isSpace c) eqn:Hc.
  - exists (c :: a). simpl. rewrite Hc, Ha. split; [by f_equal|done].
  - by exists [].
Qed.

Lemma trimStart_head (s : list N) c t :
  trimStart s = c :: t -> isSpace c = false.
Proof.
  induction s as [|d s IH]; simpl; [done|].
  destruct (isSpace d) eqn:Hd; [done|]. by intros [= <- _].
Qed.

Lemma trimStart_elem (s : list N) c :
  c ∈ s -> isSpace c = false -> c ∈ trimStart s.
Proof.
  intros Hc Hns. destruct (trimStart_spec s) as (a & Hs & Ha).
  rewrite Hs in Hc. apply elem_of_app in Hc as [Hc|Hc]; [|done].
  rewrite forallb_forall in Ha. apply list_elem_of_In in Hc.
  rewrite (Ha _ Hc) in Hns. done.
Qed.

Lemma trimStart_sub (s : list N) c : c ∈ trimStart s -> c ∈ s.
Proof.
  intros Hc. destruct (trimStart_spec s) as (a & Hs & _).
  rewrite Hs. apply elem_of_app. by right.
Qed.

Lemma trim_elem (s : list N) c : c ∈ s -> isSpace c = false -> c ∈ trim s.
Proof.
  intros Hc Hns. unfold trim, trimEnd.
  apply elem_of_rev, trimStart_elem; [|done].
  by apply elem_of_rev, trimStart_elem.
Qed.

Lemma trim_sub (s : list N) c : c ∈ trim s -> c ∈ s.
Proof.
  unfold trim, trimEnd. intros Hc.
  by apply elem_of_rev, trimStart_sub, elem_of_rev, trimStart_sub in Hc.
Qed.

(** A trimmed string is what remains of the string between two runs of
    white space. *)
Lemma trim_spec (s : list N) :
  exists a b, s = a ++ trim s ++ b
              /\ forallb isSpace a = true /\ forallb isSpace b = true.
Proof.
  destruct (trimStart_spec s) as (a & Hs & Ha).
  destruct (trimStart_spec (rev (trimStart s))) as (b & Hr & Hb).
  exists a, (rev b). split; [|split; [done|]].
  - unfold trim, trimEnd. rewrite <- rev_app_distr, <- Hr, rev_involutive. done.
  - rewrite forallb_forall in *. intros x Hx. apply Hb. by apply in_rev.
Qed.

Lemma trim_head (s : list N) c t : trim s = c :: t -> isSpace c = false.
Proof.
  intros Ht.
  destruct (trimStart_spec (rev (trimStart s))) as (b & Hr & _).
  apply (f_equal (@rev N)) in Hr. rewrite rev_involutive, rev_app_distr in Hr.
  change (rev (trimStart (rev (trimStart s)))) with (trim s) in Hr.
  rewrite Ht in Hr. simpl in Hr. by eapply trimStart_head.
Qed.

Lemma trim_nonEmpty (s : list N) c :
  c ∈ s -> isSpace c = false -> nonEmpty (trim s) = true.
Proof.
  intros Hc Hns. pose proof (trim_elem s c Hc Hns) as Hin.
  unfold nonEmpty. rewrite bool_decide_eq_false_2; [done|].
  intros Hnil. rewrite Hnil in Hin. by apply elem_of_nil in Hin.
Qed.

Lemma arabic_not_space c : isArabic c = true -> isSpace c = false.
Proof.
  unfold isArabic, isSpace.
  rewrite andb_true_iff, !orb_false_iff, !andb_false_iff,
    !N.leb_le, !N.leb_gt, !N.eqb_neq.
  lia.
Qed.

Lemma digit_not_pipe c : isDigit c = true -> (c =? PIPE)%N = false.
Proof.
  unfold isDigit, PIPE. rewrite andb_true_iff, !N.leb_le, N.eqb_neq. lia.
Qed.

Lemma arabic_not_pipe c : isArabic c = true -> (c =? PIPE)%N = false.
Proof.
  unfold isArabic, PIPE. rewrite andb_true_iff, !N.leb_le, N.eqb_neq. lia.
Qed.

(** Every unit that is neither white space nor a pipe ends up in one of
    the pieces of [splitColumns]. *)
Lemma splitColumns_covers (s cur : list N) inRun c :
  c ∈ cur \/ (c ∈ s /\ isSpace c = false /\ (c =? PIPE)%N = false) ->
  exists seg, seg ∈ splitColumns s cur inRun /\ c ∈ seg.
Proof.
  revert cur inRun. induction s as [|d s IH]; intros cur inRun H; simpl.
  - destruct H as [H|[H _]]; [|by apply elem_of_nil in H].
    exists (rev cur). split; [apply list_elem_of_here|by apply elem_of_rev].
  - assert (isSpace d = true \/ (d =? PIPE)%N = true ->
            c ∈ cur
            \/ (c ∈ s /\ isSpace c = false /\ (c =? PIPE)%N = false)) as Hskip.
    { intros Hd. destruct H as [?|(Hin & Hns & Hp)]; [by left|right].
      apply elem_of_cons in Hin as [->|Hin]; [|done].
      destruct Hd; congruence. }
    assert (forall inRun',
               isSpace d = true \/ (d =? PIPE)%N = true ->
               exists seg, seg ∈ rev cur :: splitColumns s [] inRun' /\ c ∈ seg)
      as Hcut.
    { intros inRun' Hd. destruct (Hskip Hd) as [Hc|Hc].
      - exists (rev cur).
        split; [apply list_elem_of_here|by apply elem_of_rev].
      - destruct (IH [] inRun' (or_intror Hc)) as (seg & Hseg & Hin).
        exists seg. split; [by apply list_elem_of_further|done]. }
    destruct (inRun && isSpace d) eqn:Hrun.
    { apply andb_true_iff in Hrun as [_ Hd]. apply IH, Hskip. by left. }
    destruct (d =? PIPE)%N eqn:Hpipe; [apply Hcut; by right|].
    destruct (isSpace d && _) eqn:Hsp.
    { apply andb_true_iff in Hsp as [Hd _]. apply Hcut. by left. }
    apply IH. destruct H as [H|(Hin & Hns & Hp)].
    + left. by apply list_elem_of_further.
    + apply elem_of_cons in Hin as [->|Hin]; [left; apply list_elem_of_here|].
      by right.
Qed.

End TrimFacts.

(** ** The cells of a line *)

Section SegmentFacts.
Import TableDetectionService.

Lemma trimStart_idemp (s : list N) : trimStart (trimStart s) = trimStart s.
Proof.
  induction s as [|c s IH]; simpl; [done|].
  destruct (isSpace c) eqn:Hc; [done|]. simpl. by rewrite Hc.
Qed.

Lemma trimStart_fixed (s : list N) :
  match s with c :: _ => isSpace c = false | [] => True end -> trimStart s = s.
Proof. destruct s as [|c s]; simpl; [done|]. by intros ->. Qed.

Lemma trim_idemp (s : list N) : trim (trim s) = trim s.
Proof.
  assert (trimStart (trim s) = trim s) as Hfix.
  { apply trimStart_fixed. destruct (trim s) eqn:E; [done|].
    by eapply trim_head. }
  unfold trim at 1. rewrite Hfix. unfold trim, trimEnd.
  by rewrite rev_involutive, trimStart_idemp.
Qed.

Lemma notBlank_of_elem (s : list N) c :
  c ∈ s -> isSpace c = false -> notBlank s = true.
Proof. apply trim_nonEmpty. Qed.

Lemma digitsExactly_head n s a r :
  0 < n -> digitsExactly n s = Some (a, r) ->
  exists c t, a = c :: t /\ isDigit c = true.
Proof.
  unfold digitsExactly. intros Hn.
  destruct (bool_decide _ && _) eqn:E; [|done]. intros [= <- <-].
  apply andb_true_iff in E as [Hlen Hds]. apply bool_decide_eq_true in Hlen.
  destruct n as [|n]; [lia|]. destruct s as [|c s]; simpl in *; [lia|].
  apply andb_true_iff in Hds as [Hc _]. eauto.
Qed.

Lemma markShape_head n1 n2 s tok :
  0 < n1 -> markShape n1 n2 s = Some tok ->
  exists c t, tok = c :: t /\ isDigit c = true.
Proof.
  intros Hn. unfold markShape.
  destruct (digitsExactly n1 s) as [[a r]|] eqn:E; [|done]. simpl.
  destruct (digitsExactly_head _ _ _ _ Hn E) as (c & t & -> & Hc).
  destruct n2 as [k|].
  - destruct r as [|d r']; [done|]. destruct (isSep d); [|done].
    destruct (digitsExactly k r') as [[b r'']|]; [|done]. simpl.
    destruct (boundaryAfter r''); [|done]. intros [= <-]. simpl. eauto.
  - destruct (boundaryAfter r); [|done]. intros [= <-]. eauto.
Qed.

Lemma firstShape_head shapes s tok :
  Forall (fun sh => 0 < sh.1) shapes ->
  firstShape shapes s = Some tok ->
  exists c t, tok = c :: t /\ isDigit c = true.
Proof.
  induction 1 as [|[n1 n2] shapes Hn _ IH]; simpl; [done|].
  destruct (markShape n1 n2 s) eqn:E; [|exact IH].
  intros [= <-]. by eapply markShape_head.
Qed.

Lemma scanTokens_elem tokenAt prev s skip tok :
  tok ∈ scanTokens tokenAt prev s skip -> exists t, tokenAt t = Some tok.
Proof.
  revert prev skip. induction s as [|c s IH]; intros prev skip; simpl.
  - intros H. by apply elem_of_nil in H.
  - destruct skip as [|k]; [|apply IH].
    destruct (if boundaryBefore prev then tokenAt (c :: s) else None) eqn:E.
    + intros H. apply elem_of_cons in H as [->|H]; [|by eapply IH].
      destruct (boundaryBefore prev); [eauto|done].
    + apply IH.
Qed.

Lemma markTokens_head line tok :
  tok ∈ markTokens line -> exists c t, tok = c :: t /\ isDigit c = true.
Proof.
  intros H. apply scanTokens_elem in H as [t Ht].
  eapply firstShape_head; [|exact Ht]. repeat constructor.
Qed.

Lemma markTokens_notBlank line tok : tok ∈ markTokens line -> notBlank tok = true.
Proof.
  intros H. apply markTokens_head in H as (c & t & -> & Hc).
  apply (notBlank_of_elem _ c); [apply list_elem_of_here|by apply digit_not_space].
Qed.

(** No segment of a line is blank. *)
Lemma lineSegments_notBlank line :
  Forall (fun seg => notBlank seg = true) (lineSegments line).
Proof.
  unfold lineSegments.
  assert (forall l, Forall (fun seg => notBlank seg = true)
                           (filter (fun s => notBlank s) l)) as Hfilter.
  { intros l. apply Forall_forall. intros seg Hseg.
    apply list_elem_of_filter in Hseg as [Hseg _]. by apply Is_true_true. }
  case_bool_decide; [|apply Hfilter].
  case_bool_decide; [|apply Hfilter].
  apply Forall_app. split; [apply Hfilter|].
  apply Forall_forall. intros tok. apply markTokens_notBlank.
Qed.

(** A line that holds something other than white space and pipes has a
    segment. *)
Lemma lineSegments_nonempty line c :
  c ∈ line -> isSpace c = false -> (c =? PIPE)%N = false ->
  lineSegments line <> [].
Proof.
  intros Hc Hns Hp. unfold lineSegments.
  assert (filter (fun s => notBlank s) (splitColumns line [] false) <> [])
    as Hsegs.
  { destruct (splitColumns_covers line [] false c) as (seg & Hseg & Hin);
      [by right|].
    intros Hnil.
    assert (seg ∈ filter (fun s => notBlank s) (splitColumns line [] false))
      as Hmem.
    { apply list_elem_of_filter. split; [|done].
      apply Is_true_true. by eapply notBlank_of_elem. }
    rewrite Hnil in Hmem. by apply elem_of_nil in Hmem. }
  case_bool_decide; [|done]. case_bool_decide as Hm; [|done].
  intros Hnil. apply app_eq_nil in Hnil as [_ Hnil].
  rewrite Hnil in Hm. simpl in Hm. lia.
Qed.

Lemma omap_imap_total {A B} (f : nat -> A -> option B) (l : list A) :
  (forall k x, l !! k = Some x -> is_Some (f k x)) ->
  forall k, omap id (imap f l) !! k = l !! k ≫= f k.
Proof.
  revert f. induction l as [|x l IH]; intros f Hf k; simpl; [done|].
  destruct (Hf 0 x eq_refl) as [y Hy]. rewrite Hy. simpl.
  destruct k as [|k]; simpl; [done|].
  rewrite IH; [done|]. intros k' x' Hk'. apply (Hf (S k')). done.
Qed.

Lemma segmentCell_is_Some rowIndex colIndex seg :
  notBlank seg = true -> is_Some (segmentCell rowIndex colIndex seg).
Proof.
  unfold notBlank, nonEmpty, segmentCell. intros H.
  apply negb_true_iff, bool_decide_eq_false in H.
  rewrite bool_decide_eq_false_2; [eauto|].
  intros H0. apply H. by apply length_zero_iff_nil.
Qed.

(** The cell at position [k] of the row of a line comes from segment [k]:
    no segment is skipped. *)
Lemma parseLine_lookup line rowIndex k :
  parseLine line rowIndex !! k
  = lineSegments line !! k ≫= segmentCell rowIndex k.
Proof.
  unfold parseLine. apply omap_imap_total. intros k' seg Hseg.
  apply segmentCell_is_Some.
  by eapply Forall_lookup_1 in Hseg; [|apply lineSegments_notBlank].
Qed.

Lemma parseLine_length line rowIndex :
  length (parseLine line rowIndex) = length (lineSegments line).
Proof.
  apply Nat.le_antisymm.
  - apply Nat.nlt_ge. intros Hlt.
    destruct (lookup_lt_is_Some_2 (parseLine line rowIndex)
                (length (lineSegments line)) Hlt) as [c Hc].
    rewrite parseLine_lookup, lookup_ge_None_2 in Hc; done.
  - apply Nat.nlt_ge. intros Hlt.
    destruct (lookup_lt_is_Some_2 (lineSegments line)
                (length (parseLine line rowIndex)) Hlt) as [seg Hseg].
    pose proof (parseLine_lookup line rowIndex (length (parseLine line rowIndex)))
      as Heq.
    rewrite Hseg, lookup_ge_None_2 in Heq by done. simpl in Heq.
    destruct (segmentCell_is_Some rowIndex (length (parseLine line rowIndex)) seg)
      as [c Hc]; [|congruence].
    by eapply Forall_lookup_1 in Hseg; [|apply lineSegments_notBlank].
Qed.

End SegmentFacts.

(** X7.  The cells [parseLine] makes of a line are numbered without gaps:
    the cell at position [k] of the result is in column [k] of the given
    row and holds the trimmed text of segment [k]; its text is not empty
    and has no white space at either end, and its numeric flag is set
    exactly when it has a value. *)
Theorem parseLine_cells_consecutive (line : list N) (rowIndex k : nat)
    (c : TableDetectionService.TableCell) :
  TableDetectionService.parseLine line rowIndex !! k = Some c ->
  TableDetectionService.position c
  = {| TableDetectionService.row := rowIndex; TableDetectionService.col := k |}
  /\ (exists seg,
         TableDetectionService.lineSegments line !! k = Some seg
         /\ TableDetectionService.text c = trim seg)
  /\ TableDetectionService.text c <> []
  /\ trim (TableDetectionService.text c) = TableDetectionService.text c
  /\ (TableDetectionService.isNumeric c = true
      <-> TableDetectionService.value c <> None).
Proof.
  rewrite parseLine_lookup.
  destruct (TableDetectionService.lineSegments line !! k) as [seg|] eqn:Hseg;
    [|done].
  simpl. intros Hc.
  pose proof Hc as Hcell. unfold TableDetectionService.segmentCell in Hcell.
  case_bool_decide as Hlen; [done|].
  apply segmentCell_Some in Hc as (Htext & Hpos & Hval & Hnum).
  split; [done|]. split; [eauto|]. rewrite Htext. split.
  - intros Hnil. apply Hlen. by rewrite Hnil.
  - split; [apply trim_idemp|].
    rewrite Hnum, Hval. apply bool_decide_eq_true.
Qed.

Lemma parseLine_cells_consecutive_witness :
  exists c,
    TableDetectionService.parseLine (js "5  Ali  12,5") 3 !! 2 = Some c
    /\ TableDetectionService.position c
       = {| TableDetectionService.row := 3; TableDetectionService.col := 2 |}
    /\ TableDetectionService.text c <> [].
Proof.
  eexists. split; [vm_compute; reflexivity|].
  match goal with
  | |- TableDetectionService.position ?c = _ /\ _ =>
      destruct (parseLine_cells_consecutive (js "5  Ali  12,5") 3 2 c)
        as (Hpos & _ & Hne & _); [vm_compute; reflexivity|]
  end.
  split; [exact Hpos|exact Hne].
Defined.

(** ** The structure [detectTable] returns *)

Section StructureShape.
Import TableDetectionService.

Lemma indicesWhere_spec {A} (p : A -> bool) l i0 i :
  i ∈ indicesWhere p l i0 ->
  i0 <= i /\ exists x, l !! (i - i0) = Some x /\ p x = true.
Proof.
  revert i0. induction l as [|x l IH]; intros i0; simpl.
  - intros H. by apply elem_of_nil in H.
  - assert (i ∈ indicesWhere p l (S i0) ->
            i0 <= i /\ exists y, (x :: l) !! (i - i0) = Some y /\ p y = true)
      as Hrest.
    { intros H. apply IH in H as (Hle & y & Hy & Hp).
      split; [lia|]. exists y. split; [|done].
      replace (i - i0) with (S (i - S i0)) by lia. done. }
    destruct (p x) eqn:Hx; [|exact Hrest].
    intros H. apply elem_of_cons in H as [->|H]; [|by apply Hrest].
    split; [done|]. exists x. by rewrite Nat.sub_diag.
Qed.

Lemma findIndexFrom_lt {A} (p : A -> bool) l i k :
  findIndexFrom p l i = Some k -> i <= k < i + length l.
Proof.
  revert i. induction l as [|x l IH]; intros i; simpl; [done|].
  destruct (p x).
  - intros [= <-]. lia.
  - intros H. apply IH in H. lia.
Qed.

Lemma matchesSomewhere_spec (f : list N -> bool) s :
  matchesSomewhere f s = true -> exists a t, s = a ++ t /\ f t = true.
Proof.
  induction s as [|c s IH]; simpl.
  - rewrite orb_false_r. intros H. by exists [], [].
  - destruct (f (c :: s)) eqn:E; simpl.
    + intros _. by exists [], (c :: s).
    + intros H. destruct (IH H) as (a & t & -> & Ht). by exists (c :: a), t.
Qed.

(** A line that one of the two row tests accepts holds a digit or an
    Arabic letter. *)
Lemma row_line_has_content raw :
  looksLikeRow raw = true \/ looksLikeRowLoose raw = true ->
  exists c, c ∈ raw /\ isSpace c = false /\ (c =? PIPE)%N = false.
Proof.
  assert (forall c, c ∈ trim raw -> isDigit c = true \/ isArabic c = true ->
            exists c, c ∈ raw /\ isSpace c = false /\ (c =? PIPE)%N = false)
    as Hfound.
  { intros c Hc Hkind. exists c. split; [by apply trim_sub|].
    destruct Hkind.
    - split; [by apply digit_not_space|by apply digit_not_pipe].
    - split; [by apply arabic_not_space|by apply arabic_not_pipe]. }
  assert (forall p : N -> bool, existsb p (trim raw) = true ->
            exists c, c ∈ trim raw /\ p c = true) as Hex.
  { intros p H. apply existsb_exists in H as (c & Hc & Hp).
    exists c. split; [by apply list_elem_of_In|done]. }
  unfold looksLikeRow, looksLikeRowLoose. intros [H|H].
  - apply andb_true_iff in H as [Hne H].
    apply negb_true_iff, bool_decide_eq_false in Hne.
    apply orb_true_iff in H as [H|H];
      [apply orb_true_iff in H as [H|H];
       [apply orb_true_iff in H as [H|H]|]|].
    + destruct (trim raw) as [|c t] eqn:E; [done|]. simpl in H.
      apply (Hfound c); [apply list_elem_of_here|by left].
    + destruct (trim raw) as [|c t] eqn:E; [done|]. simpl in H.
      apply andb_true_iff in H as [_ H].
      destruct (span_of isSpace t) as [a b] eqn:Es.
      apply span_of_spec in Es as (-> & _ & _). simpl in H.
      destruct b as [|d b]; [done|]. simpl in H.
      apply (Hfound d); [|by left].
      apply list_elem_of_further, elem_of_app. right. apply list_elem_of_here.
    + unfold arabicOnly in H. apply andb_true_iff in H as [_ H].
      destruct (trim raw) as [|c t] eqn:E; [done|]. simpl in H.
      apply andb_true_iff in H as [H _].
      rewrite (trim_head _ _ _ E), orb_false_r in H.
      apply (Hfound c); [apply list_elem_of_here|by right].
    + unfold hasMarkLike in H.
      apply matchesSomewhere_spec in H as (a & t & E & H).
      destruct t as [|d t]; [done|]. apply andb_true_iff in H as [H _].
      apply (Hfound d); [|by left]. rewrite E.
      apply elem_of_app. right. apply list_elem_of_here.
  - apply andb_true_iff in H as [_ H]. apply orb_true_iff in H as [H|H].
    + destruct (Hex _ H) as (c & Hc & Hp). apply (Hfound c); auto.
    + destruct (Hex _ H) as (c & Hc & Hp). apply (Hfound c); auto.
Qed.

Lemma parseLine_nonempty raw rowIndex :
  looksLikeRow raw = true \/ looksLikeRowLoose raw = true ->
  0 < length (parseLine raw rowIndex).
Proof.
  intros H. destruct (row_line_has_content raw H) as (c & Hc & Hns & Hp).
  rewrite parseLine_length.
  pose proof (lineSegments_nonempty raw c Hc Hns Hp).
  destruct (lineSegments raw); [done|simpl; lia].
Qed.

(** The grid before it is made rectangular: the rows of the lines taken
    for table rows. *)
Lemma createPreliminaryGrid_rows lines :
  createPreliminaryGrid lines = []
  \/ exists pre,
      createPreliminaryGrid lines = refineGrid pre
      /\ Forall (fun r => 0 < length r) pre
      /\ Forall (Forall (fun c => isNumeric c = true <-> value c <> None)) pre.
Proof.
  unfold createPreliminaryGrid. destruct (dataStartLine lines) as [start|];
    [|by left].
  right. eexists. split; [reflexivity|].
  set (processed := drop start lines).
  match goal with
  | |- context [imap _ ?l] => set (indices := l)
  end.
  assert (forall i, i ∈ indices ->
            exists raw, processed !! i = Some raw
                        /\ (looksLikeRow raw = true
                            \/ looksLikeRowLoose raw = true)) as Hidx.
  { intros i Hi. unfold indices in Hi.
    destruct (_ && _); apply indicesWhere_spec in Hi as (_ & raw & Hraw & Hp);
      rewrite Nat.sub_0_r in Hraw; eauto. }
  clearbody indices. split.
  - apply Forall_forall. intros r Hr.
    apply elem_of_lookup_imap in Hr as (rowIndex & lineIndex & -> & Hl).
    apply list_elem_of_lookup_2 in Hl.
    destruct (Hidx _ Hl) as (raw & Hraw & Hrow).
    rewrite (list_lookup_total_correct _ _ _ Hraw).
    by apply parseLine_nonempty.
  - apply Forall_forall. intros r Hr.
    apply elem_of_lookup_imap in Hr as (rowIndex & lineIndex & -> & _).
    apply Forall_forall. intros c Hc.
    apply parseLine_cell in Hc as (colIndex & seg & _ & Hc).
    apply segmentCell_Some in Hc as (_ & _ & Hval & Hnum).
    rewrite Hnum, Hval. apply bool_decide_eq_true.
Qed.

(** The grid is rectangular, its cells carry their own position, and the
    numeric flag of a cell says whether it has a value. *)
Lemma createPreliminaryGrid_shape lines row0 grid :
  createPreliminaryGrid lines = row0 :: grid ->
  0 < length row0
  /\ Forall (fun r => length r = length row0) (row0 :: grid)
  /\ forall i j r c,
      (row0 :: grid) !! i = Some r -> r !! j = Some c ->
      position c = {| row := i; col := j |}
      /\ (isNumeric c = true <-> value c <> None).
Proof.
  intros Eg.
  destruct (createPreliminaryGrid_rows lines)
    as [Hnil|(pre & Hpre & Hrows & Hflags)]; [congruence|].
  rewrite Eg in Hpre.
  assert (forall i r, (row0 :: grid) !! i = Some r ->
            length r = foldl (fun m r => Nat.max m (length r)) 0 pre) as Hw.
  { intros i r Hr. rewrite Hpre in Hr. by apply refineGrid_cell in Hr as [? _]. }
  assert (length row0 = foldl (fun m r => Nat.max m (length r)) 0 pre) as Hw0
    by apply (Hw 0 row0 eq_refl).
  split; [|split].
  - destruct pre as [|r0 pre']; [done|].
    destruct (foldl_max_spec (r0 :: pre') 0) as (_ & Hall & _).
    apply Forall_cons in Hall as [Hr0 _]. apply Forall_cons in Hrows as [Hpos _].
    lia.
  - apply Forall_lookup. intros i r Hr. rewrite (Hw i r Hr). done.
  - intros i j r c Hr Hc. rewrite Hpre in Hr.
    pose proof (refineGrid_cell pre i r Hr) as [_ Hcell].
    destruct (Hcell j c Hc) as [Hposn Hkeep]. split; [done|].
    destruct (pre !! i) as [r1|] eqn:Hr1; simpl in Hkeep.
    + destruct (r1 !! j) as [c0|] eqn:Hc0.
      * destruct Hkeep as (_ & -> & ->).
        eapply Forall_lookup_1 in Hflags; [|exact Hr1].
        by eapply Forall_lookup_1 in Hflags; [|exact Hc0].
      * subst c. simpl. split; [done|]. by intros [].
    + subst c. simpl. split; [done|]. by intros [].
Qed.

Lemma findHeaderRow_lt grid :
  grid <> [] -> findHeaderRow grid < Nat.min 5 (length grid).
Proof.
  intros Hne. unfold findHeaderRow.
  destruct (findIndexFrom _ _ _) as [k|] eqn:E.
  - apply findIndexFrom_lt in E. rewrite length_take in E. lia.
  - destruct grid; [done|]. simpl. lia.
Qed.

(** The fields of the structure, read off [identifyTableStructure]. *)
Lemma detectTable_fields lines ts :
  detectTable lines = Some ts ->
  exists row0 grid cols,
    createPreliminaryGrid lines = row0 :: grid
    /\ identifyColumns (row0 :: grid) (findHeaderRow (row0 :: grid)) = Some cols
    /\ ts = {| headerRow := findHeaderRow (row0 :: grid);
               studentIdColumn := idColumn cols;
               studentNameColumn := nameColumn cols;
               markColumns := marksColumns cols;
               rowCount := length (row0 :: grid);
               colCount := length row0;
               cells := row0 :: grid |}.
Proof.
  unfold detectTable, identifyTableStructure. case_bool_decide; [done|].
  destruct (createPreliminaryGrid lines) as [|row0 grid]; [done|].
  destruct (identifyColumns _ _) as [cols|] eqn:Hcols; [|done]. simpl.
  intros [= <-]. by exists row0, grid, cols.
Qed.

End StructureShape.

(** X8.  A structure returned by [detectTable] is a rectangle with at least
    one row and one column: [rowCount] rows of [colCount] cells each, the
    header row among the first five rows, every cell carrying its own row
    and column as its position, and the numeric flag of a cell set exactly
    when the cell has a value. *)
Theorem detectTable_shape (lines : list (list N))
    (ts : TableDetectionService.TableStructure) :
  TableDetectionService.detectTable lines = Some ts ->
  0 < TableDetectionService.rowCount ts
  /\ 0 < TableDetectionService.colCount ts
  /\ length (TableDetectionService.cells ts) = TableDetectionService.rowCount ts
  /\ Forall (fun r => length r = TableDetectionService.colCount ts)
            (TableDetectionService.cells ts)
  /\ TableDetectionService.headerRow ts < TableDetectionService.rowCount ts
  /\ TableDetectionService.headerRow ts < 5
  /\ forall i j r c,
      TableDetectionService.cells ts !! i = Some r -> r !! j = Some c ->
      TableDetectionService.position c
      = {| TableDetectionService.row := i; TableDetectionService.col := j |}
      /\ (TableDetectionService.isNumeric c = true
          <-> TableDetectionService.value c <> None).
Proof.
  intros H. apply detectTable_fields in H as (row0 & grid & cols & Eg & _ & ->).
  destruct (createPreliminaryGrid_shape lines row0 grid Eg) as (Hw & Hrect & Hcells).
  assert (TableDetectionService.findHeaderRow (row0 :: grid)
          < Nat.min 5 (length (row0 :: grid))) as Hh
    by (by apply findHeaderRow_lt).
  cbn [TableDetectionService.rowCount TableDetectionService.colCount
       TableDetectionService.cells TableDetectionService.headerRow].
  split; [simpl; lia|]. split; [done|]. split; [done|]. split; [done|].
  split; [lia|]. split; [lia|]. exact Hcells.
Qed.

Lemma detectTable_shape_witness :
  exists ts,
    TableDetectionService.detectTable
      [js "رقم  اسم  الفرض"; js "1  سعيد  12,5"; js "2  علي"] = Some ts
    /\ 0 < TableDetectionService.rowCount ts
    /\ 0 < TableDetectionService.colCount ts
    /\ Forall (fun r => length r = TableDetectionService.colCount ts)
              (TableDetectionService.cells ts).
Proof.
  eexists. split; [vm_compute; reflexivity|].
  match goal with
  | |- 0 < TableDetectionService.rowCount ?ts /\ _ =>
      destruct (detectTable_shape
                  [js "رقم  اسم  الفرض"; js "1  سعيد  12,5"; js "2  علي"] ts)
        as (Hr & Hc & _ & Hrect & _); [vm_compute; reflexivity|]
  end.
  split; [exact Hr|]. split; [exact Hc|exact Hrect].
Defined.

(** ** Where the columns of the structure can lie *)

Section ColumnBounds.
Import TableDetectionService.


Lemma headerStep_columns acc colIndex c :
  (idColumn (headerStep acc colIndex c) = idColumn acc
   \/ idColumn (headerStep acc colIndex c) = Z.of_nat colIndex)
  /\ (nameColumn (headerStep acc colIndex c) = nameColumn acc
      \/ nameColumn (headerStep acc colIndex c) = Z.of_nat colIndex).
Proof.
  unfold headerStep.
  repeat match goal with
         | |- context [if ?b then _ else _] => destruct b
         end; simpl; auto.
Qed.

Lemma headerPass_below grid headerRow w :
  (forall r, grid !! headerRow = Some r -> length r <= w) ->
  (idColumn (headerPass grid headerRow) = (-1)%Z
   \/ (0 <= idColumn (headerPass grid headerRow) < Z.of_nat w)%Z)
  /\ (nameColumn (headerPass grid headerRow) = (-1)%Z
      \/ (0 <= nameColumn (headerPass grid headerRow) < Z.of_nat w)%Z)
  /\ Forall (fun m => m < w) (marksColumns (headerPass grid headerRow)).
Proof.
  intros Hw. unfold headerPass.
  destruct (grid !! headerRow) as [r|];
    [|simpl; split; [by left|split; [by left|constructor]]].
  specialize (Hw r eq_refl).
  set (start := {| idColumn := -1; nameColumn := -1; marksColumns := [] |}).
  set (pass := fun r : list TableCell =>
                foldl (fun acc '(colIndex, c) => headerStep acc colIndex c)
                      start (imap pair r)).
  enough ((idColumn (pass r) = (-1)%Z
           \/ (0 <= idColumn (pass r) < Z.of_nat (length r))%Z)
          /\ (nameColumn (pass r) = (-1)%Z
              \/ (0 <= nameColumn (pass r) < Z.of_nat (length r))%Z)
          /\ Forall (fun m => m < length r) (marksColumns (pass r)))
    as (Hid & Hname & Hmarks).
  { subst pass. cbv beta in Hid, Hname, Hmarks.
    split; [destruct Hid; [by left|right; lia]|].
    split; [destruct Hname; [by left|right; lia]|].
    eapply Forall_impl; [exact Hmarks|]. simpl. intros; lia. }
  clear Hw. induction r as [|c r (IHid & IHname & IHmarks)] using rev_ind.
  - simpl. split; [by left|split; [by left|constructor]].
  - unfold pass in *. rewrite imap_app, foldl_app. simpl.
    rewrite Nat.add_0_r, length_app. simpl.
    set (acc := foldl (fun acc '(colIndex, c) => headerStep acc colIndex c)
                      start (imap pair r)) in *.
    destruct (headerStep_columns acc (length r) c) as [Hid Hname].
    destruct (headerStep_marks acc (length r) c) as [Hmarks|Hmarks].
    all: rewrite Hmarks.
    all: split; [destruct Hid as [-> | ->];
                 [destruct IHid; [by left|right; lia]|right; lia]|].
    all: split; [destruct Hname as [-> | ->];
                 [destruct IHname; [by left|right; lia]|right; lia]|].
    + eapply Forall_impl; [exact IHmarks|]. simpl. intros; lia.
    + apply Forall_app. split; [|repeat constructor; lia].
      eapply Forall_impl; [exact IHmarks|]. simpl. intros; lia.
Qed.

Lemma countCells_length p width rows : length (countCells p width rows) = width.
Proof.
  unfold countCells.
  assert (forall (counts : list nat) (r : list (nat * TableCell)),
             length (foldl (fun counts '(colIndex, c) =>
                              if p c then alter S colIndex counts else counts)
                           counts r) = length counts) as Hrow.
  { intros counts r. revert counts.
    induction r as [|[k c] r IH]; intros counts; simpl; [done|].
    rewrite IH. destruct (p c); [apply length_alter|done]. }
  assert (forall counts : list nat,
             length (foldl (fun counts r =>
                              foldl (fun counts '(colIndex, c) =>
                                       if p c then alter S colIndex counts
                                       else counts)
                                    counts (imap pair r))
                           counts rows) = length counts) as Hrows.
  { induction rows as [|r rows IH]; intros counts; simpl; [done|].
    by rewrite IH, Hrow. }
  by rewrite Hrows, length_replicate.
Qed.

Lemma candidates_below keep counts c rest :
  candidates keep counts = c :: rest -> c.1 < length counts.
Proof.
  intros H.
  assert (c ∈ candidates keep counts) as Hc
    by (rewrite H; apply list_elem_of_here).
  unfold candidates in Hc. rewrite sortBy_Permutation in Hc.
  apply list_elem_of_filter in Hc as [_ Hc].
  apply elem_of_lookup_imap in Hc as (i & x & -> & Hi).
  simpl. by eapply lookup_lt_Some.
Qed.

Lemma filter_seq_below (P : nat -> Prop) `{!forall x, Decision (P x)} w :
  Forall (fun m => m < w) (filter P (seq 0 w)).
Proof.
  apply Forall_forall. intros m Hm.
  apply list_elem_of_filter in Hm as [_ Hm]. apply elem_of_seq in Hm. lia.
Qed.

(** After the content pass the identifier column is found. *)
Lemma contentPass_below grid headerRow width acc :
  0 < width ->
  (idColumn acc = (-1)%Z \/ (0 <= idColumn acc < Z.of_nat width)%Z)
  /\ (nameColumn acc = (-1)%Z \/ (0 <= nameColumn acc < Z.of_nat width)%Z)
  /\ Forall (fun m => m < width) (marksColumns acc) ->
  (0 <= idColumn (contentPass grid headerRow width acc) < Z.of_nat width)%Z
  /\ (nameColumn (contentPass grid headerRow width acc) = (-1)%Z
      \/ (0 <= nameColumn (contentPass grid headerRow width acc)
          < Z.of_nat width)%Z)
  /\ Forall (fun m => m < width)
            (marksColumns (contentPass grid headerRow width acc)).
Proof.
  intros Hw (Hid & Hname & Hmarks). unfold contentPass.
  cbn [idColumn nameColumn marksColumns]. split; [|split].
  - destruct (idColumn acc =? -1)%Z eqn:E.
    + destruct (candidates _ _) as [|c rest] eqn:Ec; [lia|].
      apply candidates_below in Ec. rewrite countCells_length in Ec. lia.
    + apply Z.eqb_neq in E. destruct Hid; [done|lia].
  - destruct (nameColumn acc =? -1)%Z eqn:E; [|done].
    destruct (candidates _ _) as [|c rest] eqn:Ec; [by left|right].
    apply candidates_below in Ec. rewrite countCells_length in Ec. lia.
  - repeat case_bool_decide; done || apply filter_seq_below.
Qed.

Lemma identifyColumns_below row0 grid headerRow cols :
  0 < length row0 ->
  (forall r, (row0 :: grid) !! headerRow = Some r -> length r <= length row0) ->
  identifyColumns (row0 :: grid) headerRow = Some cols ->
  (0 <= idColumn cols < Z.of_nat (length row0))%Z
  /\ (0 <= nameColumn cols)%Z
  /\ ((nameColumn cols < Z.of_nat (length row0))%Z \/ nameColumn cols = 1%Z)
  /\ Forall (fun m => m < length row0) (marksColumns cols).
Proof.
  intros Hw Hheader. unfold identifyColumns.
  pose proof (headerPass_below (row0 :: grid) headerRow (length row0) Hheader)
    as Hpass.
  set (pass := headerPass (row0 :: grid) headerRow) in *.
  intros [= <-]. cbn [idColumn nameColumn marksColumns].
  match goal with
  | |- context [sortBy Nat.leb (marksColumns ?a)] => set (acc := a)
  end.
  assert ((idColumn acc = (-1)%Z
           \/ (0 <= idColumn acc < Z.of_nat (length row0))%Z)
          /\ (nameColumn acc = (-1)%Z
              \/ (0 <= nameColumn acc < Z.of_nat (length row0))%Z)
          /\ Forall (fun m => m < length row0) (marksColumns acc))
    as (Hid & Hname & Hmarks).
  { unfold acc. destruct (_ || _); [|done].
    destruct (contentPass_below (row0 :: grid) headerRow (length row0) pass
                Hw Hpass) as (Hid & Hname & Hmarks).
    split; [by right|done]. }
  clearbody acc.
  split; [|split; [|split]].
  - destruct (idColumn acc =? -1)%Z eqn:E; [lia|].
    apply Z.eqb_neq in E. destruct Hid; [done|lia].
  - destruct (nameColumn acc =? -1)%Z eqn:E; [lia|].
    apply Z.eqb_neq in E. destruct Hname; [done|lia].
  - destruct (nameColumn acc =? -1)%Z eqn:E; [by right|].
    apply Z.eqb_neq in E. destruct Hname; [done|left; lia].
  - case_bool_decide; [apply filter_seq_below|].
    apply Forall_forall. intros m Hm. rewrite sortBy_Permutation in Hm.
    by eapply Forall_forall in Hmarks.
Qed.

End ColumnBounds.

(** X9.  In a structure returned by [detectTable] the identifier column is
    always a column of the grid; the name column is never negative and is a
    column of the grid or the default 1; the mark columns are columns of
    the grid, in strictly ascending order (so no column is listed twice). *)
Theorem detectTable_columns (lines : list (list N))
    (ts : TableDetectionService.TableStructure) :
  TableDetectionService.detectTable lines = Some ts ->
  validColumn ts (TableDetectionService.studentIdColumn ts)
  /\ (validColumn ts (TableDetectionService.studentNameColumn ts)
      \/ TableDetectionService.studentNameColumn ts = 1%Z)
  /\ Forall (fun m => validColumn ts (Z.of_nat m))
            (TableDetectionService.markColumns ts)
  /\ StronglySorted lt (TableDetectionService.markColumns ts).
Proof.
  intros H. pose proof (detectTable_marks_sorted lines ts H) as Hsorted.
  apply detectTable_fields in H as (row0 & grid & cols & Eg & Hcols & ->).
  destruct (createPreliminaryGrid_shape lines row0 grid Eg) as (Hw & Hrect & _).
  assert (forall r,
             (row0 :: grid) !! TableDetectionService.findHeaderRow (row0 :: grid)
             = Some r -> length r <= length row0) as Hheader.
  { intros r Hr. eapply Forall_lookup_1 in Hrect; [|exact Hr]. simpl in Hrect. lia. }
  destruct (identifyColumns_below row0 grid _ cols Hw Hheader Hcols)
    as (Hid & Hn0 & Hn & Hm).
  unfold validColumn.
  cbn [TableDetectionService.studentIdColumn TableDetectionService.colCount
       TableDetectionService.studentNameColumn TableDetectionService.markColumns]
    in *.
  split; [done|]. split; [destruct Hn; [left; lia|by right]|].
  split; [|done]. eapply Forall_impl; [exact Hm|]. simpl. intros; lia.
Qed.

Lemma detectTable_columns_witness :
  exists ts,
    TableDetectionService.detectTable
      [js "رقم  اسم  الفرض"; js "1  سعيد  12,5"; js "2  علي"] = Some ts
    /\ validColumn ts (TableDetectionService.studentIdColumn ts)
    /\ StronglySorted lt (TableDetectionService.markColumns ts).
Proof.
  eexists. split; [vm_compute; reflexivity|].
  match goal with
  | |- validColumn ?ts _ /\ _ =>
      destruct (detectTable_columns
                  [js "رقم  اسم  الفرض"; js "1  سعيد  12,5"; js "2  علي"] ts)
        as (Hid & _ & _ & Hsorted); [vm_compute; reflexivity|]
  end.
  split; [exact Hid|exact Hsorted].
Defined.

(** ** The records of the table *)

Section TableRecords.
Import TableDetectionService.

(** The mark a row holds in column [colIndex]: the rounded value of a
    numeric cell. *)
#[local] Abbreviation cellMark r colIndex :=
  (c ← r !! colIndex; if isNumeric c then toFixed2 <$> value c else None).

Lemma markStep_cellMark (r : list TableCell) m markIndex colIndex :
  markStep r m markIndex colIndex
  = match cellMark r colIndex with
    | Some v => setMark m markIndex v
    | None => m
    end.
Proof.
  unfold markStep. case_bool_decide as Hlt.
  - destruct (r !! colIndex) as [c|]; simpl; [|done].
    destruct (isNumeric c); [|done]. by destruct (value c).
  - by rewrite lookup_ge_None_2 by lia.
Qed.

Lemma markStep_beyond (r : list TableCell) m markIndex colIndex :
  4 <= markIndex -> markStep r m markIndex colIndex = m.
Proof.
  intros Hk. rewrite markStep_cellMark. destruct (cellMark r colIndex); [|done].
  by do 4 (destruct markIndex as [|markIndex]; [lia|]).
Qed.

Lemma marks_beyond (r : list TableCell) m k (cols : list nat) :
  4 <= k ->
  foldl (fun m '(markIndex, colIndex) => markStep r m markIndex colIndex)
        m (imap (fun i => pair (k + i)) cols) = m.
Proof.
  revert k. induction cols as [|col cols IH]; intros k Hk; simpl; [done|].
  rewrite markStep_beyond by lia.
  rewrite (imap_ext _ (fun i => pair (S k + i))); [apply IH; lia|].
  intros i x _. simpl. f_equal. lia.
Qed.

Lemma rowMarks_slots (r : list TableCell) (cols : list nat) :
  rowMarks r cols
  = {| fard1 := col ← cols !! 0; cellMark r col;
       fard2 := col ← cols !! 1; cellMark r col;
       fard3 := col ← cols !! 2; cellMark r col;
       activities := col ← cols !! 3; cellMark r col |}.
Proof.
  unfold rowMarks.
  destruct cols as [|c0 [|c1 [|c2 [|c3 rest]]]].
  5: change (c0 :: c1 :: c2 :: c3 :: rest) with ([c0; c1; c2; c3] ++ rest);
     rewrite imap_app, foldl_app, marks_beyond by (simpl; lia).
  all: cbn [imap foldl compose]; rewrite ?markStep_cellMark; simpl.
  all: repeat match goal with
              | |- context [?l !! ?c] =>
                  destruct (l !! c) as [[? ? [] []]|]; simpl
              end; reflexivity.
Qed.

Lemma omap_imap_count {A B} (f : nat -> A -> option B) (p : A -> bool)
    (l : list A) :
  (forall k x, is_Some (f k x) <-> p x = true) ->
  length (omap id (imap f l)) = length (filter (fun x => p x) l).
Proof.
  revert f. induction l as [|x l IH]; intros f Hf; simpl; [done|].
  rewrite filter_cons. pose proof (Hf 0 x) as H0.
  destruct (f 0 x) as [y|] eqn:Hy; simpl.
  - destruct (decide (p x)) as [_|Hn].
    + simpl. f_equal. apply IH. intros k z. apply (Hf (S k)).
    + destruct Hn. apply Is_true_true, H0. eauto.
  - destruct (decide (p x)) as [Hp|_].
    + apply Is_true_true, H0 in Hp. by destruct Hp.
    + apply IH. intros k z. apply (Hf (S k)).
Qed.

Lemma rowStudent_is_Some ts rowIndex r :
  is_Some (rowStudent ts rowIndex r)
  <-> hasText (at_index r (studentIdColumn ts))
      || hasText (at_index r (studentNameColumn ts)) = true.
Proof.
  unfold rowStudent.
  destruct (hasText (at_index r (studentIdColumn ts)));
    destruct (hasText (at_index r (studentNameColumn ts))); simpl;
    (split; [done || eauto|]); try done; try (intros [? [=]]); eauto.
Qed.

Lemma rowStudent_name ts rowIndex r st :
  rowStudent ts rowIndex r = Some st -> name st <> [].
Proof.
  unfold rowStudent. destruct (negb _ && negb _); [done|].
  intros [= <-]. simpl.
  destruct (hasText (at_index r (studentNameColumn ts))) eqn:Hn.
  - destruct (at_index r (studentNameColumn ts)) as [c|]; [|done].
    simpl in Hn. unfold nonEmpty in Hn.
    by apply negb_true_iff, bool_decide_eq_false in Hn.
  - discriminate.
Qed.

(** A value of at most two decimals is its own rounding. *)
Lemma toFixed2_two_decimals (v : Q) (n : Z) :
  (v == inject_Z n / 100)%Q -> (toFixed2 v == v)%Q.
Proof.
  intros Hv. unfold toFixed2. rewrite Qred_correct.
  assert (Qfloor (v * 100 + (1 # 2)) = n) as ->; [|by rewrite Hv].
  assert (v * 100 + (1 # 2) == (2 * n + 1) # 2)%Q as ->.
  { rewrite Hv. unfold Qeq, Qplus, Qmult, Qdiv, Qinv, inject_Z. simpl. lia. }
  unfold Qfloor. simpl. symmetry. apply Z.div_unique with (r := 1%Z); lia.
Qed.

Lemma omap_imap_Forall2 {A B} (f : nat -> A -> option B) (p : A -> bool)
    (R : B -> nat * A -> Prop) (k0 : nat) (l : list A) :
  (forall k x, p x = false -> f k x = None) ->
  (forall k x, p x = true -> exists y, f k x = Some y /\ R y (k0 + k, x)) ->
  Forall2 R (omap id (imap f l))
          (filter (fun e => p e.2) (imap (fun k x => (k0 + k, x)) l)).
Proof.
  revert f k0. induction l as [|x l IH]; intros f k0 Hnone Hsome; simpl;
    [constructor|].
  assert (Forall2 R (omap id (imap (f ∘ S) l))
            (filter (fun e => p e.2)
                    (imap ((fun k x => (k0 + k, x)) ∘ S) l))) as Htail.
  { rewrite (imap_ext _ (fun k x => (S k0 + k, x)));
      [|intros k y _; simpl; f_equal; lia].
    apply IH.
    - intros k y. apply Hnone.
    - intros k y Hp. destruct (Hsome (S k) y Hp) as (z & Hz & HR).
      exists z. split; [done|]. by replace (S k0 + k) with (k0 + S k) by lia. }
  rewrite filter_cons. cbn [snd].
  destruct (decide (p x)) as [Hp|Hp].
  - apply Is_true_true in Hp. destruct (Hsome 0 x Hp) as (y & -> & HR).
    simpl. by constructor.
  - apply Is_true_false in Hp. by rewrite (Hnone 0 x Hp).
Qed.

Lemma rowStudent_record ts rowIndex r :
  hasText (at_index r (studentIdColumn ts))
  || hasText (at_index r (studentNameColumn ts)) = true ->
  exists st,
    rowStudent ts rowIndex r = Some st
    /\ marks st = rowMarks r (markColumns ts)
    /\ number st = studentIdOf rowIndex (headerRow ts)
                     (at_index r (studentIdColumn ts))
    /\ name st <> []
    /\ match at_index r (studentNameColumn ts) with
       | Some c =>
           if nonEmpty (text c) then name st = text c
           else exists suffix, name st = js "Student " ++ suffix
       | None => exists suffix, name st = js "Student " ++ suffix
       end.
Proof.
  intros Hrow. unfold rowStudent.
  destruct (negb (hasText (at_index r (studentIdColumn ts)))
            && negb (hasText (at_index r (studentNameColumn ts)))) eqn:Hskip.
  { apply andb_true_iff in Hskip as [H1 H2].
    apply negb_true_iff in H1, H2. rewrite H1, H2 in Hrow. done. }
  eexists. split; [reflexivity|]. cbn [marks number name].
  split; [done|]. split; [done|].
  destruct (at_index r (studentNameColumn ts)) as [c|]; simpl.
  - destruct (nonEmpty (text c)) eqn:Hc.
    + split; [|done]. unfold nonEmpty in Hc.
      by apply negb_true_iff, bool_decide_eq_false in Hc.
    + split; [done|eauto].
  - split; [done|eauto].
Qed.

Lemma studentIdOf_cases rowIndex headerRow idCell :
  match idCell ≫= (fun c => if isNumeric c then value c else None) with
  | Some v => studentIdOf rowIndex headerRow idCell = v
  | None =>
      let digits :=
        filter (fun u => isDigit u)
               (match idCell with Some c => text c | None => [] end) in
      if bool_decide (digits = [])
      then studentIdOf rowIndex headerRow idCell
           = inject_Z (Z.of_nat rowIndex - Z.of_nat headerRow)
      else studentIdOf rowIndex headerRow idCell
           = inject_Z (digitsValue digits)
  end.
Proof.
  unfold studentIdOf. destruct idCell as [c|]; simpl; [|done].
  destruct (if isNumeric c then value c else None) as [v|]; [done|]. simpl.
  unfold nonEmpty. destruct (decide (text c = [])) as [He|Hne].
  - rewrite He. simpl. done.
  - rewrite (bool_decide_eq_false_2 _ Hne). simpl.
    destruct (filter (fun u => isDigit u) (text c)) as [|d ds]; simpl; done.
Qed.

End TableRecords.

(** X10.  The marks of a row go by the position of the mark column: the
    first four mark columns give fard1, fard2, fard3 and activities.  A slot
    is null when there is no such mark column or the cell in it is not
    numeric; otherwise it holds a number, which is the value of the cell
    itself whenever that value has at most two decimals.  A fifth or later
    mark column is never read. *)
Theorem rowMarks_by_position
    (r : list TableDetectionService.TableCell) (cols : list nat) :
  let cellValue colIndex :=
    c ← r !! colIndex;
    if TableDetectionService.isNumeric c
    then TableDetectionService.value c else None in
  let slotOf (col : option nat) (slot : option Q) :=
    match col ≫= cellValue with
    | None => slot = None
    | Some v =>
        exists w, slot = Some w
                  /\ forall n : Z, (v == inject_Z n / 100)%Q -> (w == v)%Q
    end in
  let m := TableDetectionService.rowMarks r cols in
  slotOf (cols !! 0) (fard1 m)
  /\ slotOf (cols !! 1) (fard2 m)
  /\ slotOf (cols !! 2) (fard3 m)
  /\ slotOf (cols !! 3) (activities m)
  /\ m = TableDetectionService.rowMarks r (take 4 cols).
Proof.
  intros cellValue slotOf m. unfold m. clear m.
  assert (forall col,
             slotOf col
               (col' ← col; c ← r !! col';
                if TableDetectionService.isNumeric c
                then toFixed2 <$> TableDetectionService.value c else None))
    as Hslot.
  { intros [col|]; [|done]. unfold slotOf, cellValue.
    simpl. destruct (r !! col) as [c|]; [|done]. simpl.
    destruct (TableDetectionService.isNumeric c); [|done].
    destruct (TableDetectionService.value c) as [v|]; [|done]. simpl.
    exists (toFixed2 v). split; [done|]. apply toFixed2_two_decimals. }
  rewrite !rowMarks_slots. cbn [fard1 fard2 fard3 activities].
  repeat (split; [apply Hslot|]).
  by rewrite !lookup_take_lt by lia.
Qed.

(** X11.  [extractStudentData] makes one record for each row below the
    header row that has text in its identifier cell or in its name cell, in
    the order of the rows, and none for the other rows.  The record of a row
    has the marks of that row; its name is the text of the name cell, or
    begins with "Student " when that cell has no text, and is never empty;
    its number is the value of the identifier cell when that cell is
    numeric, else the number its digits spell (identifiers up to 2^53, which
    a JavaScript number holds exactly), else, without a digit, the distance
    of the row from the header row. *)
Theorem extractStudentData_records (ts : TableDetectionService.TableStructure) :
  let headerRow := TableDetectionService.headerRow ts in
  let idCell r := at_index r (TableDetectionService.studentIdColumn ts) in
  let nameCell r := at_index r (TableDetectionService.studentNameColumn ts) in
  let textOf c :=
    match c with Some c => TableDetectionService.text c | None => [] end in
  let rows :=
    imap (fun k r => (headerRow + 1 + k, r))
         (drop (headerRow + 1) (TableDetectionService.cells ts)) in
  Forall2
    (fun st '(rowIndex, r) =>
       marks st
       = TableDetectionService.rowMarks r (TableDetectionService.markColumns ts)
       /\ name st <> []
       /\ (if TableDetectionService.hasText (nameCell r)
           then name st = textOf (nameCell r)
           else exists suffix, name st = js "Student " ++ suffix)
       /\ match idCell r
                ≫= (fun c => if TableDetectionService.isNumeric c
                              then TableDetectionService.value c else None) with
          | Some v => number st = v
          | None =>
              let digits := filter (fun u => isDigit u) (textOf (idCell r)) in
              if bool_decide (digits = [])
              then number st
                   = inject_Z (Z.of_nat rowIndex - Z.of_nat headerRow)
              else (digitsValue digits <= 2 ^ 53)%Z ->
                   number st = inject_Z (digitsValue digits)
          end)
    (TableDetectionService.extractStudentData ts)
    (filter (fun e => TableDetectionService.hasText (idCell e.2)
                      || TableDetectionService.hasText (nameCell e.2))
            rows).
Proof.
  intros headerRow idCell nameCell textOf rows.
  unfold TableDetectionService.extractStudentData, rows. fold headerRow.
  apply (omap_imap_Forall2
           (fun k r => TableDetectionService.rowStudent ts (headerRow + 1 + k) r)
           (fun r => TableDetectionService.hasText (idCell r)
                     || TableDetectionService.hasText (nameCell r))).
  - intros k r Hr. apply orb_false_iff in Hr as [H1 H2].
    unfold TableDetectionService.rowStudent. fold (idCell r) (nameCell r).
    by rewrite H1, H2.
  - intros k r Hr.
    destruct (rowStudent_record ts (headerRow + 1 + k) r Hr)
      as (st & -> & Hmarks & Hnumber & Hname & Htext).
    exists st. split; [done|]. split; [done|]. split; [done|].
    fold (nameCell r) in Htext. fold (idCell r) headerRow in Hnumber. split.
    + unfold TableDetectionService.hasText.
      destruct (nameCell r) as [c|]; [|done]. simpl.
      by destruct (nonEmpty (TableDetectionService.text c)).
    + pose proof (studentIdOf_cases (headerRow + 1 + k) headerRow (idCell r))
        as Hid.
      rewrite <- Hnumber in Hid.
      destruct (idCell r ≫= _) as [v|]; [done|]. simpl in Hid |- *.
      fold (textOf (idCell r)) in Hid.
      by destruct (bool_decide _).
Qed.

(** ** The lines the strategies receive *)

Section LineFacts.
Import OCRService.

Lemma normalize_map (s : list N) :
  normalizeArabicNumber s
  = map (fun c => if (0x0660 <=? c)%N && (c <=? 0x0669)%N
                  then (c - 0x0660 + 0x30)%N else c) s.
Proof.
  apply list_eq. intros i. rewrite list_lookup_fmap.
  destruct (s !! i) as [c|] eqn:Hc; simpl.
  - by apply normalizeArabicNumber_unit.
  - unfold normalizeArabicNumber. by rewrite list_lookup_fmap, Hc.
Qed.

Lemma normalize_idemp (s : list N) :
  normalizeArabicNumber (normalizeArabicNumber s) = normalizeArabicNumber s.
Proof.
  rewrite !normalize_map, map_map. apply map_ext. intros c.
  destruct ((0x0660 <=? c)%N && (c <=? 0x0669)%N) eqn:E; [|by rewrite E].
  apply andb_true_iff in E as [Hlo Hhi]. apply N.leb_le in Hlo, Hhi.
  rewrite (proj2 (andb_false_iff _ _)); [done|].
  left. apply N.leb_gt. lia.
Qed.

Lemma trimStart_map (f : N -> N) (s : list N) :
  (forall c, isSpace (f c) = isSpace c) ->
  trimStart (map f s) = map f (trimStart s).
Proof.
  intros Hf. induction s as [|c s IH]; simpl; [done|].
  rewrite Hf. by destruct (isSpace c).
Qed.

Lemma trim_map (f : N -> N) (s : list N) :
  (forall c, isSpace (f c) = isSpace c) -> trim (map f s) = map f (trim s).
Proof.
  intros Hf. unfold trim, trimEnd.
  by rewrite trimStart_map, <- map_rev, trimStart_map, map_rev.
Qed.

Lemma normalize_unit_space c :
  isSpace (if (0x0660 <=? c)%N && (c <=? 0x0669)%N
           then (c - 0x0660 + 0x30)%N else c) = isSpace c.
Proof.
  destruct ((0x0660 <=? c)%N && (c <=? 0x0669)%N) eqn:E; [|done].
  apply andb_true_iff in E as [Hlo Hhi]. apply N.leb_le in Hlo, Hhi.
  transitivity false; [|symmetry]; unfold isSpace;
    rewrite !orb_false_iff, !andb_false_iff, !N.leb_gt, !N.eqb_neq; lia.
Qed.

Lemma trim_normalize (s : list N) :
  trim (normalizeArabicNumber s) = normalizeArabicNumber (trim s).
Proof. rewrite !normalize_map. apply trim_map, normalize_unit_space. Qed.

Lemma splitOn_pieces sep (s cur piece : list N) :
  piece ∈ splitOn sep s cur ->
  Forall (fun c => c <> sep) cur -> Forall (fun c => c <> sep) piece.
Proof.
  revert cur. induction s as [|c s IH]; intros cur; simpl.
  - intros H Hcur. apply list_elem_of_singleton in H as ->.
    apply Forall_forall. intros x Hx. apply (proj1 (elem_of_rev _ _)) in Hx.
    rewrite Forall_forall in Hcur. by apply Hcur.
  - destruct (c =? sep)%N eqn:E.
    + intros H Hcur. apply elem_of_cons in H as [->|H]; [|by eapply IH].
      apply Forall_forall. intros x Hx. apply (proj1 (elem_of_rev _ _)) in Hx.
      rewrite Forall_forall in Hcur. by apply Hcur.
    + intros H Hcur. apply (IH _ H). constructor; [|done].
      by apply N.eqb_neq.
Qed.

End LineFacts.

(** X12.  Every line the entry point hands to the strategies is non-empty,
    has no white space at either end, and holds no line feed and no
    Arabic-Indic digit; normalising the numerals a second time changes
    nothing. *)
Theorem textLines_clean (text : list N) :
  Forall (fun line =>
            line <> []
            /\ trim line = line
            /\ OCRService.normalizeArabicNumber line = line
            /\ Forall (fun c => c <> 0x0A%N
                                /\ ~ (0x0660 <= c <= 0x0669)%N) line)
         (OCRService.textLines text).
Proof.
  apply Forall_forall. intros line Hline. unfold OCRService.textLines in Hline.
  apply list_elem_of_filter in Hline as [Hlen Hline].
  apply bool_decide_unpack in Hlen.
  apply list_elem_of_fmap in Hline as (piece & -> & Hpiece).
  split; [intros Hnil; rewrite Hnil in Hlen; simpl in Hlen; lia|].
  split; [by rewrite trim_normalize, trim_idemp|].
  split; [apply normalize_idemp|].
  pose proof (splitOn_pieces _ _ _ _ Hpiece (Forall_nil_2 _)) as Hsep.
  rewrite normalize_map. apply Forall_forall. intros c Hc.
  apply list_elem_of_fmap in Hc as (d & -> & Hd). apply trim_sub in Hd.
  eapply Forall_forall in Hsep; [|exact Hd].
  destruct ((0x0660 <=? d)%N && (d <=? 0x0669)%N) eqn:E.
  - apply andb_true_iff in E as [Hlo Hhi]. apply N.leb_le in Hlo, Hhi. lia.
  - apply andb_false_iff in E. rewrite !N.leb_gt in E. split; [done|lia].
Qed.

(** ** The identifiers of the pattern-based extractor *)

Section StudentInfo.
Import OCRService.

Lemma span_digits_digitString (s ds r : list N) :
  span_of isDigit s = (ds, r) -> nonEmpty ds = true -> digitString ds.
Proof.
  intros Hspan Hne. apply span_of_spec in Hspan as (_ & Hds & _).
  split; [|done]. unfold nonEmpty in Hne.
  by apply negb_true_iff, bool_decide_eq_false in Hne.
Qed.

Lemma numberThenName_id line id g2 :
  numberThenName line = Some (id, g2) -> digitString id.
Proof.
  unfold numberThenName.
  destruct (span_of isDigit (span_of isSpace line).2) as [ds r] eqn:E.
  destruct (nonEmpty ds) eqn:Hne; [|done].
  pose proof (span_digits_digitString _ _ _ E Hne) as Hds.
  destruct (span_of _ r) as [w r'].
  destruct (span_of _ r') as [a b].
  destruct (nonEmpty a); [by intros [= <- _]|].
  destruct (filter _ _); [done|]. by intros [= <- _].
Qed.

Lemma numberAlone_id line id : numberAlone line = Some id -> digitString id.
Proof.
  unfold numberAlone.
  destruct (span_of isDigit (span_of isSpace line).2) as [ds r] eqn:E.
  destruct (nonEmpty ds) eqn:Hne; [|done]. simpl.
  destruct (bool_decide _); [|done]. intros [= <-].
  by eapply span_digits_digitString.
Qed.

Lemma firstDigitRun_id line id : firstDigitRun line = Some id -> digitString id.
Proof.
  revert id. induction line as [|c s IH]; intros id; [done|].
  change (firstDigitRun (c :: s))
    with (if isDigit c then Some (span_of isDigit (c :: s)).1
          else firstDigitRun s).
  destruct (isDigit c) eqn:Hc; [|apply IH].
  intros H. apply (inj Some) in H. subst id.
  destruct (span_of isDigit (c :: s)) as [ds r] eqn:E.
  eapply span_digits_digitString; [exact E|].
  simpl in E. rewrite Hc in E. destruct (span_of isDigit s).
  by injection E as <- _.
Qed.

Lemma insertIndexKey_Permutation k v obj :
  insertIndexKey k v obj ≡ₚ (k, v) :: obj.
Proof.
  induction obj as [|e obj IH]; simpl; [done|].
  destruct (_ && _); [|done]. rewrite IH. apply Permutation_swap.
Qed.

(** The keys after [obj[k] = v]: those there were, and [k]. *)
Lemma setProperty_keys k v obj :
  (k ∈ map fst obj /\ map fst (setProperty k v obj) = map fst obj)
  \/ ((k ∉ map fst obj)
      /\ map fst (setProperty k v obj) ≡ₚ k :: map fst obj).
Proof.
  unfold setProperty.
  destruct (existsb (fun e => bool_decide (e.1 = k)) obj) eqn:E.
  - left. apply existsb_exists in E as (e & He & Hk).
    apply bool_decide_eq_true in Hk. split.
    + rewrite <- Hk. apply list_elem_of_fmap. exists e.
      split; [done|by apply list_elem_of_In].
    + rewrite map_map. apply map_ext. intros e'.
      case_bool_decide; [done|done].
  - right. split.
    + intros Hin. apply list_elem_of_fmap in Hin as (e & -> & He).
      assert (existsb (fun e' => bool_decide (e'.1 = e.1)) obj = true); [|congruence].
      apply existsb_exists. exists e.
      split; [by apply list_elem_of_In|by apply bool_decide_eq_true].
    + destruct (isArrayIndex k).
      * by rewrite insertIndexKey_Permutation.
      * rewrite map_app. simpl. by rewrite Permutation_app_comm.
Qed.

Lemma setProperty_ids k v obj :
  digitString k ->
  Forall digitString (map fst obj) /\ NoDup (map fst obj) ->
  Forall digitString (map fst (setProperty k v obj))
  /\ NoDup (map fst (setProperty k v obj)).
Proof.
  intros Hk [Hds Hnd].
  destruct (setProperty_keys k v obj) as [[_ ->]|[Hnew ->]]; [done|].
  split; [by constructor|by constructor].
Qed.

Lemma studentInfoLoop_ids section studentInfo skip :
  Forall digitString (map fst studentInfo) /\ NoDup (map fst studentInfo) ->
  Forall digitString (map fst (studentInfoLoop section studentInfo skip))
  /\ NoDup (map fst (studentInfoLoop section studentInfo skip)).
Proof.
  revert studentInfo skip.
  induction section as [|raw rest IH]; intros studentInfo skip Hinv;
    [done|]. cbn [studentInfoLoop].
  destruct skip; [by apply IH|].
  destruct (isListHeader (trim raw)); [by apply IH|].
  destruct (numberThenName (trim raw)) as [[id g2]|] eqn:E1.
  { apply IH, setProperty_ids; [by eapply numberThenName_id|done]. }
  destruct (numberAlone (trim raw)) as [id|] eqn:E2.
  { apply numberAlone_id in E2.
    destruct rest as [|next rest'];
      [|destruct (arabicOnly next)]; by apply IH, setProperty_ids. }
  destruct (hasArabic (trim raw)); [|by apply IH].
  destruct (firstDigitRun (trim raw)) as [id|] eqn:E3; [|by apply IH].
  apply firstDigitRun_id in E3.
  case_bool_decide; [|by apply IH]. by apply IH, setProperty_ids.
Qed.

Lemma extractStudentInfoFromSection_ids section :
  Forall (fun e => digitString e.1) (extractStudentInfoFromSection section)
  /\ NoDup (map fst (extractStudentInfoFromSection section)).
Proof.
  destruct (studentInfoLoop_ids section [] false) as [Hds Hnd].
  { split; constructor. }
  split; [|done]. apply Forall_forall. intros e He.
  rewrite Forall_forall in Hds. apply Hds, list_elem_of_fmap. by exists e.
Qed.

Lemma Sorted_imap {A B} (R : A -> A -> Prop) (R' : B -> B -> Prop)
    (f : nat -> A -> B) (l : list A) :
  (forall i j a b, R a b -> R' (f i a) (f j b)) ->
  Sorted R l -> Sorted R' (imap f l).
Proof.
  intros Hf Hl. revert f Hf.
  induction Hl as [|x l _ IH Hhd]; intros f Hf; simpl; constructor.
  - apply IH. intros i j a b. apply Hf.
  - destruct Hhd as [|y l Hxy]; simpl; constructor. by apply Hf.
Qed.

(** The pattern-based extractor in closed form: the distribution of the
    harvested marks over the identifiers of the section. *)
Lemma extractStudentsByPatterns_closed lines section :
  findStudentSection lines = Some section ->
  let studentInfo := extractStudentInfoFromSection section in
  let m := Nat.min 4 (length (extractMarkValues lines) / length studentInfo) in
  extractStudentsByPatterns lines
  = imap (studentAt (extractMarkValues lines) m)
         (sortBy (fun a b => (a.1 <=? b.1)%Z)
                 (map (fun e => (digitsValue e.1, e.2)) studentInfo)).
Proof.
  intros Hsec studentInfo m. unfold extractStudentsByPatterns.
  rewrite Hsec. fold studentInfo. case_bool_decide as Hlen.
  - destruct studentInfo; [done|simpl in Hlen; lia].
  - destruct (extractStudentInfoFromSection_ids section) as [Hds _].
    by rewrite (assignMarksToStudents_closed _ _ Hds).
Qed.

Lemma studentAt_names markValues m (l : list (Z * list N)) :
  map name (imap (studentAt markValues m) l) = map snd l.
Proof.
  apply list_eq. intros i. rewrite !list_lookup_fmap, list_lookup_imap.
  by destruct (l !! i).
Qed.

Lemma studentAt_numbers markValues m (l : list (Z * list N)) :
  map (fun st => (number st, name st)) (imap (studentAt markValues m) l)
  = map (fun e => (inject_Z e.1, e.2)) l.
Proof.
  apply list_eq. intros i. rewrite !list_lookup_fmap, list_lookup_imap.
  by destruct (l !! i).
Qed.

End StudentInfo.

(** X13.  The keys [extractStudentInfoFromSection] stores are identifiers:
    every key is a non-empty string of digits, and no key occurs twice
    (a later line with the same identifier replaces the name). *)
Theorem extractStudentInfoFromSection_keys (section : list (list N)) :
  Forall (fun e => digitString e.1)
         (OCRService.extractStudentInfoFromSection section)
  /\ NoDup (map fst (OCRService.extractStudentInfoFromSection section)).
Proof. apply extractStudentInfoFromSection_ids. Qed.

(** X14.  The pattern-based strategy returns nothing when it finds no
    student section; otherwise it returns exactly one record for each
    identifier of the section, with the names stored for the identifiers.
    When the identifiers are at most 2^53 (the integers a JavaScript number
    holds exactly), the records are in ascending order of the student
    number, and each carries the number its identifier spells together with
    the name stored for it. *)
Theorem extractStudentsByPatterns_one_per_identifier (lines : list (list N)) :
  let students := OCRService.extractStudentsByPatterns lines in
  match OCRService.findStudentSection lines with
  | None => students = []
  | Some section =>
      let studentInfo := OCRService.extractStudentInfoFromSection section in
      length students = length studentInfo
      /\ map name students ≡ₚ map snd studentInfo
      /\ (Forall (fun e => (digitsValue e.1 <= 2 ^ 53)%Z) studentInfo ->
          Sorted (fun a b => (number a <= number b)%Q) students
          /\ map (fun st => (number st, name st)) students
             ≡ₚ map (fun e => (inject_Z (digitsValue e.1), e.2)) studentInfo)
  end.
Proof.
  intros students. unfold students. clear students.
  destruct (OCRService.findStudentSection lines) as [section|] eqn:Hsec.
  - rewrite (extractStudentsByPatterns_closed lines section Hsec).
    set (le := fun a b : Z * list N => (a.1 <=? b.1)%Z).
    set (entries := map _ (OCRService.extractStudentInfoFromSection section)).
    split; [|split].
    + unfold entries. by rewrite length_imap, sortBy_length, length_map.
    + rewrite studentAt_names, (sortBy_Permutation le entries). unfold entries.
      by rewrite map_map.
    + intros _. split.
      * apply (Sorted_imap byId).
        -- intros i j a b Hab. simpl. rewrite <- Zle_Qle. exact Hab.
        -- apply sortBy_Sorted_as.
           ++ intros a b. unfold le. rewrite !Z.leb_le. lia.
           ++ intros a b H. by apply Z.leb_le in H.
      * rewrite studentAt_numbers, (sortBy_Permutation le entries).
        unfold entries. by rewrite map_map.
  - unfold OCRService.extractStudentsByPatterns. by rewrite Hsec.
Qed.

Lemma extractStudentsByPatterns_one_per_identifier_witness :
  let lines := [js "ر.ت الاسم"; js "12 سعيد العلوي 14,50"; js "3 يوسف 08,00"] in
  exists st1 st2,
    OCRService.extractStudentsByPatterns lines = [st1; st2]
    /\ (number st1 <= number st2)%Q
    /\ name st1 = js "يوسف" /\ name st2 = js "سعيد العلوي".
Proof.
  intros lines.
  assert (OCRService.findStudentSection lines = Some lines) as Hsec
    by (vm_compute; reflexivity).
  assert (OCRService.extractStudentInfoFromSection lines
          = [(js "3", js "يوسف"); (js "12", js "سعيد العلوي")]) as Hinfo
    by (vm_compute; reflexivity).
  pose proof (extractStudentsByPatterns_one_per_identifier lines) as H.
  cbv zeta in H. rewrite Hsec, Hinfo in H.
  destruct H as (Hlen & _ & Hexact).
  assert (Forall (fun e : list N * list N => (digitsValue e.1 <= 2 ^ 53)%Z)
                 [(js "3", js "يوسف"); (js "12", js "سعيد العلوي")]) as Hbound
    by (repeat constructor; apply Z.leb_le; vm_compute; reflexivity).
  destruct (Hexact Hbound) as [Hsorted _].
  destruct (OCRService.extractStudentsByPatterns lines)
    as [|st1 [|st2 [|? ?]]] eqn:E; try discriminate Hlen.
  exists st1, st2. split; [done|].
  apply Sorted_inv in Hsorted as [_ Hhd]. apply HdRel_inv in Hhd.
  split; [done|].
  vm_compute in E. injection E as <- <-. split; reflexivity.
Defined.


(** ** The basic extractor, the student section and the fall-back *)

Section Fallback.
Import OCRService TableDetectionService.

Lemma omap_imap_total_length {A B} (f : nat -> A -> option B) (l : list A) :
  (forall k x, l !! k = Some x -> is_Some (f k x)) ->
  length (omap id (imap f l)) = length l.
Proof.
  revert f. induction l as [|x l IH]; intros f Hf; simpl; [done|].
  destruct (Hf 0 x eq_refl) as [y ->]. simpl. f_equal.
  apply IH. intros k x' Hk. by apply (Hf (S k)).
Qed.

Lemma basicStudent_is_Some studentLines k line :
  leadingNumber line <> None -> is_Some (basicStudent studentLines k line).
Proof.
  intros Hn. unfold basicStudent. destruct (leadingNumber line); [eauto|done].
Qed.

Lemma numbered_lines_lookup (lines : list (list N)) k line :
  filter (fun l => bool_decide (leadingNumber l <> None)) lines !! k = Some line ->
  leadingNumber line <> None.
Proof.
  intros Hk. apply list_elem_of_lookup_2, list_elem_of_filter in Hk as [Hk _].
  by apply bool_decide_unpack in Hk.
Qed.

Lemma findIndexFrom_Some {A} (p : A -> bool) l i0 i :
  findIndexFrom p l i0 = Some i ->
  i0 <= i
  /\ (exists x, l !! (i - i0) = Some x /\ p x = true)
  /\ Forall (fun x => p x = false) (take (i - i0) l).
Proof.
  revert i0. induction l as [|x l IH]; intros i0; simpl; [done|].
  destruct (p x) eqn:Hx.
  - intros [= <-]. rewrite Nat.sub_diag. split; [done|].
    split; [by exists x|constructor].
  - intros H. apply IH in H as (Hle & (y & Hy & Hp) & Hbefore).
    replace (i - i0) with (S (i - S i0)) by lia.
    split; [lia|]. split; [by exists y|]. simpl. by constructor.
Qed.

Lemma findIndexFrom_None {A} (p : A -> bool) l i0 :
  findIndexFrom p l i0 = None <-> Forall (fun x => p x = false) l.
Proof.
  revert i0. induction l as [|x l IH]; intros i0; simpl.
  - split; [constructor|done].
  - destruct (p x) eqn:Hx.
    + split; [done|]. intros H. apply Forall_cons in H as [H _]. congruence.
    + rewrite IH. split; [by constructor|]. by intros [_ ?]%Forall_cons.
Qed.

Lemma sectionEnd_spec start rest i len :
  len = i + length rest ->
  i <= sectionEnd start rest i len <= len
  /\ (forall j l,
         j < sectionEnd start rest i len - i -> rest !! j = Some l ->
         isFooter l = false
         /\ ~ (start + 5 < i + j /\ trim l = []
               /\ isBlank (rest !! S j) = true))
  /\ match rest !! (sectionEnd start rest i len - i) with
     | Some l =>
         isFooter l = true
         \/ (start + 5 < sectionEnd start rest i len /\ trim l = []
             /\ isBlank (rest !! S (sectionEnd start rest i len - i)) = true)
     | None => sectionEnd start rest i len = len
     end.
Proof.
  revert i. induction rest as [|line rest IH]; intros i Hlen; simpl in *.
  - split; [lia|]. split; [|done]. intros j l Hj. lia.
  - assert (head rest = rest !! 0) as Hhead by (by destruct rest).
    assert (bool_decide (start + 5 < i) && bool_decide (length (trim line) = 0)
            && isBlank (head rest) = true
            <-> start + 5 < i /\ trim line = [] /\ isBlank (rest !! 0) = true)
      as Hblank.
    { rewrite !andb_true_iff, !bool_decide_eq_true, Hhead.
      rewrite length_zero_iff_nil. tauto. }
    destruct (isFooter line) eqn:Hf; simpl.
    { rewrite Nat.sub_diag. simpl. split; [lia|].
      split; [intros; lia|by left]. }
    destruct (bool_decide (start + 5 < i) && bool_decide (length (trim line) = 0)
              && isBlank (head rest)) eqn:Hb.
    { rewrite Nat.sub_diag. simpl. split; [lia|]. split; [intros; lia|right].
      by apply Hblank. }
    destruct (IH (S i)) as (Hle & Hbefore & Hstop); [lia|].
    set (e := sectionEnd start rest (S i) len) in *.
    replace (e - i) with (S (e - S i)) by lia. simpl.
    split; [lia|]. split; [|done].
    intros [|j] l Hj Hl; simpl in Hl.
    + injection Hl as <-. split; [done|]. rewrite Nat.add_0_r.
      intros H. apply Hblank in H. congruence.
    + destruct (Hbefore j l) as [Hfoot Hnot]; [lia|done|].
      split; [done|]. by replace (i + S j) with (S i + j) by lia.
Qed.

Lemma caseless_unit (c d : N) :
  negb (((0x41 <=? d)%N && (d <=? 0x5A)%N) || ((0x61 <=? d)%N && (d <=? 0x7A)%N))
  = true ->
  bool_decide
    (d = if (0x41 <=? c)%N && (c <=? 0x5A)%N then (c + 0x20)%N else c)
  = bool_decide (d = c).
Proof.
  rewrite negb_true_iff, orb_false_iff, !andb_false_iff, !N.leb_gt.
  intros Hd. destruct ((0x41 <=? c)%N && (c <=? 0x5A)%N) eqn:E; [|done].
  apply andb_true_iff in E as [Hlo Hhi]. apply N.leb_le in Hlo, Hhi.
  rewrite !bool_decide_eq_false_2; [done|lia|lia].
Qed.

(** Lower-casing a text does not change where a keyword without Latin
    letters occurs in it. *)
Lemma includes_toLowerCase (s kw : list N) :
  forallb (fun d => negb (((0x41 <=? d)%N && (d <=? 0x5A)%N)
                          || ((0x61 <=? d)%N && (d <=? 0x7A)%N))) kw = true ->
  includes (toLowerCase s) kw = includes s kw.
Proof.
  intros Hkw.
  assert (forall s, startsWith (toLowerCase s) kw = startsWith s kw) as Hstart.
  { clear s. induction kw as [|d kw IH]; intros s; [by destruct s|].
    simpl in Hkw. apply andb_true_iff in Hkw as [Hd Hkw].
    destruct s as [|c s]; [done|]. simpl.
    by rewrite caseless_unit, (IH Hkw). }
  induction s as [|c s IH].
  - reflexivity.
  - pose proof (Hstart (c :: s)) as H. simpl in *. by rewrite H, IH.
Qed.

Lemma includes_prefix (s p q : list N) :
  includes s (p ++ q) = true -> includes s p = true.
Proof.
  rewrite !includes_substring. intros (a & b & ->).
  exists a, (q ++ b). by rewrite <- app_assoc.
Qed.

(** A line without the keywords of a table header is no list header. *)
Lemma no_keyword_no_header line :
  tableStartKeyword line = false -> isListHeader (toLowerCase line) = false.
Proof.
  unfold tableStartKeyword, isListHeader.
  rewrite !orb_false_iff. intros [[[H1 H2] _] H4].
  rewrite !includes_toLowerCase by (vm_compute; reflexivity).
  rewrite H1, H2, H4. split; [split; [|done]|done].
  destruct (includes line (js "اسم التلميذ")) eqn:E; [|done].
  change (js "اسم التلميذ") with (js "اسم" ++ js " التلميذ") in E.
  apply includes_prefix in E. congruence.
Qed.

End Fallback.

(** X15.  The basic extractor makes exactly one record for each line that
    starts with a number followed by white space, in the order of the
    lines, and none for any other line; the record has that number (for a
    number up to 2^53, which a JavaScript number holds exactly), a name of
    at least three units, and the marks matched on that line alone. *)
Theorem extractBasicStudentData_one_per_numbered_line
    (lines : list (list N)) (k : nat) (st : Student) :
  let studentLines :=
    filter (fun l => bool_decide (leadingNumber l <> None)) lines in
  length (OCRService.extractBasicStudentData lines) = length studentLines
  /\ (OCRService.extractBasicStudentData lines !! k = Some st ->
      exists line digits,
        studentLines !! k = Some line
        /\ leadingNumber line = Some digits
        /\ ((digitsValue digits <= 2 ^ 53)%Z ->
            number st = inject_Z (digitsValue digits))
        /\ 3 <= length (name st)
        /\ marks st
           = OCRService.firstFour (OCRService.tokenMarks (decimalTokens line))).
Proof.
  intros studentLines. unfold OCRService.extractBasicStudentData.
  fold studentLines.
  assert (forall k x, studentLines !! k = Some x ->
            is_Some (OCRService.basicStudent studentLines k x)) as Htotal.
  { intros k' x Hx. by eapply basicStudent_is_Some, numbered_lines_lookup. }
  split; [by apply omap_imap_total_length|].
  rewrite (omap_imap_total _ _ Htotal).
  destruct (studentLines !! k) as [line|] eqn:Hline; [|done]. simpl.
  unfold OCRService.basicStudent.
  destruct (leadingNumber line) as [digits|] eqn:Hnum; [|done].
  intros Hst. apply (inj Some) in Hst. subst st. cbn [number name marks].
  exists line, digits. split; [done|]. split; [done|]. split; [done|].
  split; [|done].
  match goal with
  | |- 3 <= length (if bool_decide (length ?n < 3) then _ else _) =>
      destruct (decide (length n < 3)) as [Hshort|Hlong];
      [rewrite (bool_decide_eq_true_2 _ Hshort)
      |rewrite (bool_decide_eq_false_2 _ Hlong); lia]
  end.
  rewrite length_app.
  assert (length (js "طالب ") = 5) as -> by (vm_compute; reflexivity). lia.
Qed.

Lemma extractBasicStudentData_one_per_numbered_line_witness :
  exists st,
    OCRService.extractBasicStudentData [js "القسم"; js "7 سعيد 12,5"] !! 0
    = Some st
    /\ number st = inject_Z 7 /\ 3 <= length (name st).
Proof.
  eexists. split; [vm_compute; reflexivity|].
  match goal with
  | |- number ?st = _ /\ _ =>
      destruct (extractBasicStudentData_one_per_numbered_line
                  [js "القسم"; js "7 سعيد 12,5"] 0 st)
        as (_ & Hrec)
  end.
  destruct Hrec as (line & digits & Hline & Hdigits & Hnumber & Hname & _);
    [vm_compute; reflexivity|].
  split; [|exact Hname].
  vm_compute in Hline. apply (inj Some) in Hline. subst line.
  vm_compute in Hdigits. apply (inj Some) in Hdigits. subst digits.
  apply Hnumber. apply Z.leb_le. vm_compute. reflexivity.
Defined.

(** X16.  The student section is a run of consecutive lines of the text.
    There is none exactly when no line is a list header and no line starts
    with a number.  Otherwise it starts at the first list-header line, or,
    when no line at all is a list header, at the first numbered line.  It
    ends just before the first later line that is a footer line or that,
    more than five lines after the start, is blank and followed by a blank
    line; no line of the section after its first is such a line, and the
    section runs to the end of the text when there is none. *)
Theorem findStudentSection_slice (lines : list (list N)) :
  let header l := OCRService.isListHeader (toLowerCase l) in
  (OCRService.findStudentSection lines = None
   <-> Forall (fun l => header l = false /\ leadingNumber l = None) lines)
  /\ forall section,
      OCRService.findStudentSection lines = Some section ->
      exists pre first rest post,
        lines = pre ++ section ++ post
        /\ section = first :: rest
        /\ Forall (fun l => header l = false) pre
        /\ (header first = true
            \/ (Forall (fun l => header l = false) lines
                /\ leadingNumber first <> None
                /\ Forall (fun l => leadingNumber l = None) pre))
        /\ (forall j l,
               rest !! j = Some l ->
               OCRService.isFooter l = false
               /\ ~ (5 <= j /\ trim l = []
                     /\ OCRService.isBlank ((rest ++ post) !! S j) = true))
        /\ match post with
           | [] => True
           | l :: post' =>
               OCRService.isFooter l = true
               \/ (5 <= length rest /\ trim l = []
                   /\ OCRService.isBlank (head post') = true)
           end.
Proof.
  intros header. unfold OCRService.findStudentSection.
  set (numbered := fun l : list N => bool_decide (leadingNumber l <> None)).
  fold header.
  assert (forall l, numbered l = false <-> leadingNumber l = None) as Hnum.
  { intros l. unfold numbered. rewrite bool_decide_eq_false.
    destruct (leadingNumber l); split; try done.
    - intros H. by destruct H.
    - intros _ H. by apply H. }
  assert (exists found,
             match findIndexFrom header lines 0 with
             | Some i => Some i
             | None => findIndexFrom numbered lines 0
             end = found
             /\ match found with
                | Some start =>
                    exists first,
                      lines !! start = Some first
                      /\ Forall (fun l => header l = false) (take start lines)
                      /\ (header first = true
                          \/ (Forall (fun l => header l = false) lines
                              /\ leadingNumber first <> None
                              /\ Forall (fun l => leadingNumber l = None)
                                        (take start lines)))
                | None =>
                    Forall (fun l => header l = false
                                     /\ leadingNumber l = None) lines
                end) as (found & -> & Hfound).
  { eexists. split; [reflexivity|].
    destruct (findIndexFrom header lines 0) as [i|] eqn:Eh.
    - apply findIndexFrom_Some in Eh as (_ & (x & Hx & Hp) & Hbefore).
      rewrite Nat.sub_0_r in *. exists x. auto.
    - apply findIndexFrom_None in Eh.
      destruct (findIndexFrom numbered lines 0) as [i|] eqn:En.
      + apply findIndexFrom_Some in En as (_ & (x & Hx & Hp) & Hbefore).
        rewrite Nat.sub_0_r in *. exists x. split; [done|].
        split; [by apply Forall_take|]. right. split; [done|].
        split; [by apply bool_decide_eq_true in Hp|].
        eapply Forall_impl; [exact Hbefore|]. intros l. apply Hnum.
      + apply findIndexFrom_None in En.
        apply Forall_forall. intros l Hl.
        rewrite Forall_forall in Eh, En. split; [by apply Eh|].
        by apply Hnum, En. }
  split.
  { destruct found as [start|].
    - split; [done|]. intros Hall.
      destruct Hfound as (first & Hfirst & _ & Hkind).
      apply list_elem_of_lookup_2 in Hfirst.
      rewrite Forall_forall in Hall. destruct (Hall first Hfirst) as [Hh Hn].
      destruct Hkind as [?|(_ & ? & _)]; congruence.
    - done. }
  intros section Hsec. destruct found as [start|]; [|done].
  apply (inj Some) in Hsec. subst section.
  destruct Hfound as (first & Hfirst & Hpre & Hkind).
  pose proof (lookup_lt_Some _ _ _ Hfirst) as Hlt.
  destruct (sectionEnd_spec start (drop (start + 1) lines) (start + 1)
              (length lines)) as (Hle & Hbefore & Hstop);
    [rewrite length_drop; lia|].
  set (e := OCRService.sectionEnd start (drop (start + 1) lines) (start + 1)
              (length lines)) in *.
  assert (drop start lines = first :: drop (start + 1) lines) as Hdrop.
  { rewrite <- (take_drop_middle lines start first Hfirst) at 1.
    rewrite drop_app_length'; [|rewrite length_take; lia].
    by rewrite Nat.add_1_r. }
  set (rest := take (e - (start + 1)) (drop (start + 1) lines)).
  assert (take (e - start) (drop start lines) = first :: rest) as Hsec.
  { rewrite Hdrop. replace (e - start) with (S (e - (start + 1))) by lia.
    done. }
  assert (rest ++ drop e lines = drop (start + 1) lines) as Htail.
  { unfold rest.
    rewrite <- (take_drop (e - (start + 1)) (drop (start + 1) lines)) at 2.
    f_equal. rewrite drop_drop. f_equal. lia. }
  assert (length rest = e - (start + 1)) as Hrest.
  { unfold rest. rewrite length_take, length_drop. lia. }
  exists (take start lines), first, rest, (drop e lines).
  split; [|split; [done|split; [done|split; [done|split]]]].
  - rewrite Hsec. rewrite <- (take_drop start lines) at 1. f_equal.
    rewrite Hdrop. simpl. f_equal. by rewrite Htail.
  - intros j l Hl. pose proof (lookup_lt_Some _ _ _ Hl) as Hj.
    rewrite Htail.
    destruct (Hbefore j l) as [Hfoot Hnot]; [lia| |].
    { unfold rest in Hl. rewrite lookup_take_lt in Hl by lia. done. }
    split; [done|]. intros (H5 & Hb & Hnext). apply Hnot.
    split; [lia|done].
  - replace (e - (start + 1)) with (length rest) in Hstop by lia.
    rewrite <- Htail in Hstop.
    rewrite lookup_app_r, Nat.sub_diag in Hstop by lia.
    destruct (drop e lines) as [|l post'] eqn:Hpost; [done|].
    simpl in Hstop. destruct Hstop as [?|(H5 & Hb & Hnext)]; [by left|right].
    split; [lia|]. split; [done|].
    rewrite lookup_app_r in Hnext by lia.
    replace (S (length rest) - length rest) with 1 in Hnext by lia.
    by destruct post'.
Qed.

Lemma findStudentSection_slice_witness :
  let lines := [js "1 a"; js "ر.ت"; js "2 b"; js "توقيع المدير"; js "3 c"] in
  OCRService.findStudentSection lines = Some [js "ر.ت"; js "2 b"]
  /\ exists pre first rest post,
      lines = pre ++ [js "ر.ت"; js "2 b"] ++ post
      /\ [js "ر.ت"; js "2 b"] = first :: rest
      /\ Forall (fun l => OCRService.isListHeader (toLowerCase l) = false) pre
      /\ match post with
         | [] => True
         | l :: post' =>
             OCRService.isFooter l = true
             \/ (5 <= length rest /\ trim l = []
                 /\ OCRService.isBlank (head post') = true)
         end.
Proof.
  intros lines.
  assert (OCRService.findStudentSection lines = Some [js "ر.ت"; js "2 b"])
    as Hsec by (vm_compute; reflexivity).
  split; [exact Hsec|].
  destruct (proj2 (findStudentSection_slice lines) _ Hsec)
    as (pre & first & rest & post & Hsplit & Hcons & Hpre & _ & _ & Hpost).
  by exists pre, first, rest, post.
Defined.

Section PipelineFacts.
Import OCRService TableDetectionService.

Lemma extractBasicStudentData_nonempty lines l :
  l ∈ lines -> leadingNumber l <> None -> extractBasicStudentData lines <> [].
Proof.
  intros Hl Hn Hnil.
  assert (length (extractBasicStudentData lines)
          = length (filter (fun l => bool_decide (leadingNumber l <> None)) lines))
    as Hlen.
  { unfold extractBasicStudentData. apply omap_imap_total_length.
    intros k x Hx. by eapply basicStudent_is_Some, numbered_lines_lookup. }
  assert (l ∈ filter (fun l => bool_decide (leadingNumber l <> None)) lines)
    as Hin.
  { apply list_elem_of_filter. split; [by apply bool_decide_pack|done]. }
  rewrite Hnil in Hlen. simpl in Hlen.
  destruct (filter _ lines); [by apply elem_of_nil in Hin|done].
Qed.

Lemma processLines_numbered lines l :
  l ∈ lines -> leadingNumber l <> None -> (processLines lines).2 <> [].
Proof.
  intros Hl Hn. unfold processLines.
  destruct (tableBased lines) as [[|st students]|] eqn:Ht.
  2: { by rewrite (coordinate_table _ _ _ _ _ Ht). }
  all: rewrite coordinate_falls_through by auto; cbn [snd].
  all: destruct (extractStudentsByPatterns lines) as [|st students] eqn:Hp;
    [rewrite afterTable_basic by done; cbn [snd];
     by eapply extractBasicStudentData_nonempty
    |rewrite afterTable_pattern by (by rewrite Hp); cbn [snd]; by rewrite Hp].
Qed.

Lemma nothing_recognised lines :
  Forall (fun l => tableStartKeyword l = false /\ leadingNumber l = None) lines ->
  detectTable lines = None
  /\ extractStudentsByPatterns lines = []
  /\ extractBasicStudentData lines = [].
Proof.
  intros Hall.
  assert (findIndexFrom tableStartKeyword lines 0 = None) as Hkw.
  { apply findIndexFrom_None. eapply Forall_impl; [exact Hall|]. by intros l [? _]. }
  assert (findIndexFrom (fun l => bool_decide (leadingNumber l <> None)) lines 0
          = None) as Hnum.
  { apply findIndexFrom_None. eapply Forall_impl; [exact Hall|].
    intros l [_ Hl]. simpl. rewrite Hl. apply bool_decide_eq_false_2.
    intros H. by apply H. }
  assert (findIndexFrom (fun l => isListHeader (toLowerCase l)) lines 0 = None)
    as Hhead.
  { apply findIndexFrom_None. eapply Forall_impl; [exact Hall|].
    intros l [Hl _]. by apply no_keyword_no_header. }
  split; [|split].
  - unfold detectTable, createPreliminaryGrid, dataStartLine.
    by rewrite Hkw, Hnum.
  - unfold extractStudentsByPatterns, findStudentSection. by rewrite Hhead, Hnum.
  - unfold extractBasicStudentData.
    assert (filter (fun l => bool_decide (leadingNumber l <> None)) lines = [])
      as ->; [|done].
    destruct (filter _ lines) as [|l rest] eqn:E; [done|].
    assert (l ∈ filter (fun l => bool_decide (leadingNumber l <> None)) lines)
      as Hl by (rewrite E; apply list_elem_of_here).
    apply list_elem_of_filter in Hl as [Hnum' Hl].
    rewrite Forall_forall in Hall. destruct (Hall l Hl) as [_ Hnone].
    apply bool_decide_unpack in Hnum'. done.
Qed.

End PipelineFacts.

(** X17.  The basic extractor is a safety net: whenever one of the lines
    starts with a number followed by white space, the pipeline returns at
    least one student, whichever strategy it ends with. *)
Theorem numbered_line_yields_student :
  (forall lines : list (list N),
      (exists l, l ∈ lines /\ leadingNumber l <> None) ->
      (OCRService.processLines lines).2 <> [])
  /\ (forall text : list N,
         (exists l, l ∈ OCRService.textLines text /\ leadingNumber l <> None) ->
         OCRService.processOCRWithMultipleApproaches text <> []).
Proof.
  split.
  - intros lines (l & Hl & Hn). by eapply processLines_numbered.
  - intros text (l & Hl & Hn). unfold OCRService.processOCRWithMultipleApproaches.
    by eapply processLines_numbered.
Qed.

Lemma numbered_line_yields_student_witness :
  exists st rest,
    OCRService.processOCRWithMultipleApproaches (js "٧ سعيد ١٢,٥") = st :: rest.
Proof.
  pose proof (proj2 numbered_line_yields_student (js "٧ سعيد ١٢,٥")) as Hne.
  destruct (OCRService.processOCRWithMultipleApproaches (js "٧ سعيد ١٢,٥"))
    as [|st rest]; [|by exists st, rest].
  destruct Hne; [|reflexivity].
  exists (js "7 سعيد 12,5").
  split; [vm_compute; apply list_elem_of_here|vm_compute; discriminate].
Defined.

(** X18.  When no line holds one of the keywords of a table header (رقم,
    اسم, الفرض, ر.ت) and no line starts with a number followed by white
    space, nothing is recognised: [detectTable] finds no table, the
    pattern-based and the basic extractor return no record, and the
    pipeline, having tried the three strategies in order, returns no
    student. *)
Theorem no_keyword_no_number_no_student (lines : list (list N)) :
  Forall (fun l => TableDetectionService.tableStartKeyword l = false
                   /\ leadingNumber l = None) lines ->
  TableDetectionService.detectTable lines = None
  /\ OCRService.extractStudentsByPatterns lines = []
  /\ OCRService.extractBasicStudentData lines = []
  /\ OCRService.processLines lines
     = ([OCRService.TableBased; OCRService.PatternBased; OCRService.Basic], []).
Proof.
  intros Hall. destruct (nothing_recognised lines Hall) as (Ht & Hp & Hb).
  split; [done|]. split; [done|]. split; [done|].
  unfold OCRService.processLines.
  rewrite coordinate_falls_through
    by (left; unfold OCRService.tableBased; by rewrite Ht).
  rewrite afterTable_basic by done. by rewrite Hb.
Qed.

Lemma no_keyword_no_number_no_student_witness :
  OCRService.processLines [js "Grade sheet"; js "12,5"]
  = ([OCRService.TableBased; OCRService.PatternBased; OCRService.Basic], []).
Proof.
  apply (no_keyword_no_number_no_student [js "Grade sheet"; js "12,5"]).
  repeat constructor.
Defined.

(** ** The worksheet columns and the insertion of marks *)

Section WorksheetColumns.
Import ExcelService ExcelInsertion.

Lemma extractHeaders_row values :
  match extractHeaders values with
  | Some headers => exists row, row ∈ values /\ headers = map cellText row
  | None => values = []
  end.
Proof.
  unfold extractHeaders.
  destruct (findIndexFrom _ _ _) as [i|] eqn:E.
  - apply findIndexFrom_lt in E. rewrite length_take in E.
    destruct (lookup_lt_is_Some_2 values i) as [row Hrow]; [lia|].
    rewrite Hrow. simpl. exists row.
    split; [by eapply list_elem_of_lookup_2|done].
  - destruct values as [|row values]; [done|]. simpl.
    exists row. split; [apply list_elem_of_here|done].
Qed.

Lemma headerIndex_lt keywords headers i :
  headerIndex keywords headers = Some i -> i < length headers.
Proof. intros H. apply findIndexFrom_lt in H. lia. Qed.

Lemma sampleCount_le test values colIndex :
  sampleCount test values colIndex <= Nat.min (length values) 10 - 1.
Proof.
  unfold sampleCount.
  etrans; [apply length_filter|]. rewrite length_drop, length_take. lia.
Qed.

Lemma sampledColumn_Some test values limit colIndex :
  sampledColumn test values limit = Some colIndex ->
  colIndex < limit /\ 5 < sampleCount test values colIndex.
Proof.
  unfold sampledColumn. intros H.
  apply findIndexFrom_Some in H as (_ & (x & Hx & Hp) & _).
  rewrite Nat.sub_0_r in Hx. apply lookup_seq in Hx as [-> Hlt].
  split; [done|]. by apply bool_decide_eq_true in Hp.
Qed.

Lemma sampledColumn_few_rows test values limit :
  length values <= 6 -> sampledColumn test values limit = None.
Proof.
  intros Hlen. destruct (sampledColumn test values limit) as [c|] eqn:E; [|done].
  apply sampledColumn_Some in E as [_ Hc].
  pose proof (sampleCount_le test values c). lia.
Qed.

End WorksheetColumns.

(** X19.  The two column finders fail only on an empty sheet.  On any
    other sheet the number column is never -1: it is a column of the header
    row or the default 0; the name column is a column of the header row or
    -1.  On a sheet of at most six rows the contents are never enough to
    pick a column: without a keyword in the header row the results are the
    defaults 0 and -1. *)
Theorem worksheet_columns (values : list (list ExcelService.CellValue)) :
  match ExcelInsertion.extractHeaders values with
  | None =>
      values = []
      /\ ExcelInsertion.findStudentNameColumn values = None
      /\ ExcelInsertion.findStudentNumberColumn values = None
  | Some headers =>
      (exists row, row ∈ values /\ length headers = length row)
      /\ exists n c,
          ExcelInsertion.findStudentNameColumn values = Some n
          /\ ExcelInsertion.findStudentNumberColumn values = Some c
          /\ (n = (-1)%Z \/ (0 <= n < Z.of_nat (length headers))%Z)
          /\ (c = 0%Z \/ (0 <= c < Z.of_nat (length headers))%Z)
          /\ (length values <= 6 ->
              (ExcelInsertion.headerIndex ExcelInsertion.nameHeaders headers
               = None -> n = (-1)%Z)
              /\ (ExcelInsertion.headerIndex ExcelInsertion.numberHeaders headers
                  = None -> c = 0%Z))
  end.
Proof.
  pose proof (extractHeaders_row values) as Hrow.
  unfold ExcelInsertion.findStudentNameColumn,
    ExcelInsertion.findStudentNumberColumn.
  destruct (ExcelInsertion.extractHeaders values) as [headers|]; simpl; [|done].
  destruct Hrow as (row & Hrow & ->). split.
  { exists row. by rewrite length_map. }
  destruct (ExcelInsertion.headerIndex ExcelInsertion.nameHeaders _)
    as [i|] eqn:Hi;
    destruct (ExcelInsertion.headerIndex ExcelInsertion.numberHeaders _)
      as [j|] eqn:Hj.
  all: try (apply headerIndex_lt in Hi).
  all: try (apply headerIndex_lt in Hj).
  all: repeat match goal with
         | |- context [ExcelInsertion.sampledColumn ?t ?v ?l] =>
             let E := fresh "E" in
             let H := fresh "Hfew" in
             pose proof (sampledColumn_few_rows t v l) as H;
             destruct (ExcelInsertion.sampledColumn t v l) eqn:E;
             [apply sampledColumn_Some in E as [E _]|]
         end.
  all: eexists _, _; split; [reflexivity|]; split; [reflexivity|].
  all: split; [lia|]; split; [lia|].
  all: intros Hlen; split; intros Hnone; try done;
    repeat match goal with
      | H : length _ <= 6 -> Some _ = None, Hl : length _ <= 6 |- _ =>
          specialize (H Hl)
      end; done.
Qed.

Section InsertionFacts.
Import ExcelService ExcelInsertion.
Variable nfkd toLowerCase : list N -> list N.
Variable ws : WorksheetStructure.
Variable markType : list N.
Variable values : list (list CellValue).

#[local] Abbreviation rowOf := (studentRow nfkd toLowerCase ws values).
#[local] Abbreviation step :=
  (fun acc student =>
     a ← acc; insertMark nfkd toLowerCase ws markType values a student).

(** The cell [insertMarks] writes for a student, if it writes one. *)
#[local] Abbreviation writeOf :=
  (fun student : Student =>
     rowIndex ← rowOf student;
     if (rowIndex =? -1)%Z then None
     else match getInternalMarkType markType with
          | OwnMarkType t =>
              if (markColumns ws t =? -1)%Z then None
              else (fun markValue =>
                      {| writeRow := rowIndex;
                         writeColumn := markColumns ws t;
                         writeText := formatMarkForMassar markValue |})
                     <$> markOfType (marks student) t
          | _ => None
          end).

Lemma insert_loop_None data : foldl step None data = None.
Proof. by induction data. Qed.

(** The loop in closed form, when it does not throw. *)
Lemma insert_loop data acc res :
  foldl step (Some acc) data = Some res ->
  res = ({| success := success acc.1 + length (omap writeOf data);
            notFound :=
              notFound acc.1
              + length (filter (fun st => rowOf st = Some (-1)%Z) data);
            notFoundStudents :=
              notFoundStudents acc.1
              ++ map name (filter (fun st => rowOf st = Some (-1)%Z) data) |},
         acc.2 ++ omap writeOf data).
Proof.
  revert acc. induction data as [|st data IH]; intros [results writes].
  - simpl. intros [= <-]. rewrite !Nat.add_0_r, !app_nil_r.
    by destruct results.
  - cbn [foldl]. rewrite filter_cons.
    change (omap writeOf (st :: data))
      with (match writeOf st with
            | Some w => w :: omap writeOf data
            | None => omap writeOf data
            end).
    change (Some (results, writes) ≫= _)
      with (insertMark nfkd toLowerCase ws markType values (results, writes) st).
    destruct (insertMark nfkd toLowerCase ws markType values (results, writes) st)
      as [acc'|] eqn:Hstep; [|by rewrite insert_loop_None].
    intros Hres. apply IH in Hres. rewrite Hres. clear Hres IH.
    unfold insertMark in Hstep.
    destruct (rowOf st) as [rowIndex|] eqn:Hrow; [|done]. simpl in Hstep.
    cbn [mbind option_bind].
    destruct (rowIndex =? -1)%Z eqn:Hminus.
    { apply Z.eqb_eq in Hminus. subst rowIndex. injection Hstep as <-.
      rewrite decide_True by done. simpl.
      rewrite <- !app_assoc. simpl. f_equal. f_equal; lia. }
    assert (rowIndex <> (-1)%Z) as Hne by (by apply Z.eqb_neq).
    rewrite decide_False by congruence. simpl.
    destruct (getInternalMarkType markType) as [t| |]; [|done|].
    + destruct (markColumns ws t =? -1)%Z.
      { by injection Hstep as <-. }
      destruct (markOfType (marks st) t) as [v|]; injection Hstep as <-; simpl.
      * rewrite <- !app_assoc. simpl. f_equal. f_equal. lia.
      * done.
    + by injection Hstep as <-.
Qed.

Lemma insertMarks_closed data results writes :
  insertMarks nfkd toLowerCase (Some ws) data markType values
  = Some (results, writes) ->
  writes = omap writeOf data
  /\ success results = length writes
  /\ notFoundStudents results
     = map name (filter (fun st => rowOf st = Some (-1)%Z) data)
  /\ notFound results = length (notFoundStudents results).
Proof.
  unfold insertMarks. simpl. intros H. apply insert_loop in H.
  injection H as -> ->. simpl. by rewrite length_map.
Qed.

Lemma writes_and_misses (data : list Student) :
  length (omap writeOf data)
  + length (filter (fun st => rowOf st = Some (-1)%Z) data) <= length data.
Proof.
  induction data as [|st data IH]; [done|].
  rewrite filter_cons.
  change (omap writeOf (st :: data))
    with (match writeOf st with
          | Some w => w :: omap writeOf data
          | None => omap writeOf data
          end).
  destruct (decide (rowOf st = Some (-1)%Z)) as [Hm|Hm].
  - rewrite Hm. cbn [mbind option_bind Z.eqb Pos.eqb length]. lia.
  - destruct (rowOf st ≫= _); cbn [length]; lia.
Qed.

Lemma rowOf_range st r :
  rowOf st = Some r -> r = (-1)%Z \/ (1 <= r < Z.of_nat (length values))%Z.
Proof.
  unfold studentRow.
  destruct (findStudentRowByNumber_range (studentNumberColumn ws)
              (numberString (number st)) values) as [Hn|Hn].
  - rewrite Hn. simpl. apply findStudentRowByName_range.
  - destruct (_ =? -1)%Z eqn:E; [apply Z.eqb_eq in E; lia|].
    intros [= <-]. by right.
Qed.

Lemma writeOf_Some st w :
  writeOf st = Some w ->
  (1 <= writeRow w < Z.of_nat (length values))%Z
  /\ rowOf st = Some (writeRow w)
  /\ exists t v,
      getInternalMarkType markType = OwnMarkType t
      /\ writeColumn w = markColumns ws t
      /\ writeColumn w <> (-1)%Z
      /\ markOfType (marks st) t = Some v
      /\ writeText w = formatMarkForMassar v.
Proof.
  cbv beta.
  destruct (rowOf st) as [r|] eqn:Hr; cbn [mbind option_bind]; [|done].
  destruct (r =? -1)%Z eqn:Hminus; [done|]. apply Z.eqb_neq in Hminus.
  destruct (getInternalMarkType markType) as [t| |]; [|done|done].
  destruct (markColumns ws t =? -1)%Z eqn:Hcol; [done|].
  apply Z.eqb_neq in Hcol.
  destruct (markOfType (marks st) t) as [v|] eqn:Hv; [|done]. simpl.
  intros [= <-]. simpl.
  split; [destruct (rowOf_range st r Hr); [done|lia]|].
  split; [done|]. by exists t, v.
Qed.

End InsertionFacts.

(** X20.  The accounts of [insertMarks] add up: the counter of students
    not found is the length of the list of their names, which are names of
    the given students in their order; one cell is written for each
    success; no student is counted twice; and every cell written lies in a
    row below the header row, in the column of the mark type, which is not
    -1, and holds the formatted mark of a student found in that row. *)
Theorem insertMarks_accounts
    (nfkd toLowerCase : list N -> list N)
    (ws : ExcelInsertion.WorksheetStructure) (extractedData : list Student)
    (markType : list N) (values : list (list ExcelService.CellValue))
    (results : ExcelInsertion.MarkInsertionResults)
    (writes : list ExcelInsertion.CellWrite) :
  ExcelInsertion.insertMarks nfkd toLowerCase (Some ws) extractedData markType
    values = Some (results, writes) ->
  ExcelInsertion.notFound results
  = length (ExcelInsertion.notFoundStudents results)
  /\ ExcelInsertion.success results = length writes
  /\ ExcelInsertion.success results + ExcelInsertion.notFound results
     <= length extractedData
  /\ ExcelInsertion.notFoundStudents results `sublist_of` map name extractedData
  /\ Forall (fun w =>
               (1 <= ExcelInsertion.writeRow w < Z.of_nat (length values))%Z
               /\ exists st t v,
                   st ∈ extractedData
                   /\ ExcelInsertion.studentRow nfkd toLowerCase ws values st
                      = Some (ExcelInsertion.writeRow w)
                   /\ ExcelInsertion.getInternalMarkType markType
                      = ExcelInsertion.OwnMarkType t
                   /\ ExcelInsertion.writeColumn w
                      = ExcelInsertion.markColumns ws t
                   /\ ExcelInsertion.writeColumn w <> (-1)%Z
                   /\ ExcelInsertion.markOfType (marks st) t = Some v
                   /\ ExcelInsertion.writeText w
                      = ExcelInsertion.formatMarkForMassar v)
            writes.
Proof.
  intros H. apply insertMarks_closed in H as (Hw & Hs & Hn & Hc).
  split; [done|]. split; [done|]. split; [|split].
  - rewrite Hs, Hc, Hn, Hw, length_map. apply writes_and_misses.
  - rewrite Hn. apply fmap_sublist, sublist_filter.
  - rewrite Hw. apply Forall_forall. intros w Hin.
    apply list_elem_of_omap in Hin as (st & Hst & Hwrite).
    apply writeOf_Some in Hwrite as (Hrow & Hfound & t & v & ?).
    split; [done|]. exists st, t, v. by split.
Qed.

Lemma insertMarks_accounts_witness :
  let ws := {| ExcelInsertion.headers := [js "رقم"; js "الفرض 1"];
               ExcelInsertion.studentNameColumn := (-1)%Z;
               ExcelInsertion.studentNumberColumn := 0%Z;
               ExcelInsertion.totalRows := 2;
               ExcelInsertion.markColumns := fun _ => 1%Z |} in
  let data := [{| number := 7; name := js "سعيد";
                  marks := {| fard1 := Some (25 # 2); fard2 := None;
                              fard3 := None; activities := None |} |}] in
  let values := [[ExcelService.VStr (js "رقم"); ExcelService.VStr (js "الفرض 1")];
                 [ExcelService.VNum 7; ExcelService.VStr (js "")]] in
  exists results writes,
    ExcelInsertion.insertMarks (fun s => s) (fun s => s) (Some ws) data
      (js "الفرض 1") values = Some (results, writes)
    /\ writes = [{| ExcelInsertion.writeRow := 1;
                    ExcelInsertion.writeColumn := 1;
                    ExcelInsertion.writeText := js "12.50" |}]
    /\ ExcelInsertion.success results = length writes
    /\ ExcelInsertion.notFound results
       = length (ExcelInsertion.notFoundStudents results).
Proof.
  intros ws data values. eexists _, _.
  split; [vm_compute; reflexivity|]. split; [reflexivity|].
  match goal with
  | |- ExcelInsertion.success ?r = length ?w /\ _ =>
      destruct (insertMarks_accounts (fun s => s) (fun s => s) ws data
                  (js "الفرض 1") values r w) as (Hn & Hs & _);
      [vm_compute; reflexivity|]
  end.
  split; [exact Hs|exact Hn].
Defined.

(** X21.  When the worksheet has no name column (-1) and the sheet has a
    row below the header, no student is ever reported as not found: a
    student whose number matches no row is taken to be in row 1, and when
    the mark type has a column and the student has that mark, the mark is
    written into row 1. *)
Theorem insertMarks_without_name_column
    (nfkd toLowerCase : list N -> list N)
    (ws : ExcelInsertion.WorksheetStructure) (extractedData : list Student)
    (markType : list N) (values : list (list ExcelService.CellValue))
    (results : ExcelInsertion.MarkInsertionResults)
    (writes : list ExcelInsertion.CellWrite) :
  ExcelInsertion.studentNameColumn ws = (-1)%Z ->
  2 <= length values ->
  ExcelInsertion.insertMarks nfkd toLowerCase (Some ws) extractedData markType
    values = Some (results, writes) ->
  ExcelInsertion.notFound results = 0
  /\ ExcelInsertion.notFoundStudents results = []
  /\ forall st t v,
      st ∈ extractedData ->
      ExcelService.findStudentRowByNumber
        (ExcelInsertion.studentNumberColumn ws)
        (ExcelInsertion.numberString (number st)) values = (-1)%Z ->
      ExcelInsertion.getInternalMarkType markType
      = ExcelInsertion.OwnMarkType t ->
      ExcelInsertion.markColumns ws t <> (-1)%Z ->
      ExcelInsertion.markOfType (marks st) t = Some v ->
      {| ExcelInsertion.writeRow := 1;
         ExcelInsertion.writeColumn := ExcelInsertion.markColumns ws t;
         ExcelInsertion.writeText := ExcelInsertion.formatMarkForMassar v |}
      ∈ writes.
Proof.
  intros Hcol Hlen H. apply insertMarks_closed in H as (Hw & Hs & Hn & Hc).
  assert (forall st,
             ExcelInsertion.studentRow nfkd toLowerCase ws values st
             <> Some (-1)%Z) as Hrow.
  { intros st. unfold ExcelInsertion.studentRow.
    destruct (_ =? -1)%Z eqn:E.
    - rewrite Hcol, no_name_column_row_1 by done. discriminate.
    - apply Z.eqb_neq in E. congruence. }
  assert (forall data : list Student,
             filter (fun st => ExcelInsertion.studentRow nfkd toLowerCase ws
                                 values st = Some (-1)%Z) data = []) as Hnone.
  { induction data as [|st data IH]; [done|].
    by rewrite filter_cons, decide_False by apply Hrow. }
  rewrite Hnone in Hn. simpl in Hn. rewrite Hn in Hc.
  split; [done|]. split; [done|].
  intros st t v Hst Hnum Ht Hmark Hv. rewrite Hw.
  apply list_elem_of_omap. exists st. split; [done|].
  unfold ExcelInsertion.studentRow. rewrite Hnum. simpl.
  rewrite Hcol, no_name_column_row_1 by done. simpl.
  rewrite Ht. apply Z.eqb_neq in Hmark. rewrite Hmark, Hv. done.
Qed.

Lemma insertMarks_without_name_column_witness :
  let ws := {| ExcelInsertion.headers := [js "رقم"; js "الفرض 1"];
               ExcelInsertion.studentNameColumn := (-1)%Z;
               ExcelInsertion.studentNumberColumn := 0%Z;
               ExcelInsertion.totalRows := 3;
               ExcelInsertion.markColumns := fun _ => 1%Z |} in
  let student := {| number := 9; name := js "سعيد";
                    marks := {| fard1 := Some (25 # 2); fard2 := None;
                                fard3 := None; activities := None |} |} in
  let values := [[ExcelService.VStr (js "رقم"); ExcelService.VStr (js "الفرض 1")];
                 [ExcelService.VNum 7; ExcelService.VStr (js "")];
                 [ExcelService.VNum 8; ExcelService.VStr (js "")]] in
  exists results writes,
    ExcelInsertion.insertMarks (fun s => s) (fun s => s) (Some ws) [student]
      (js "الفرض 1") values = Some (results, writes)
    /\ ExcelInsertion.notFound results = 0
    /\ {| ExcelInsertion.writeRow := 1;
          ExcelInsertion.writeColumn := 1;
          ExcelInsertion.writeText := js "12.50" |} ∈ writes.
Proof.
  intros ws student values. eexists _, _.
  split; [vm_compute; reflexivity|].
  match goal with
  | |- ExcelInsertion.notFound ?r = 0 /\ _ ∈ ?w =>
      destruct (insertMarks_without_name_column (fun s => s) (fun s => s) ws
                  [student] (js "الفرض 1") values r w) as (Hn & _ & Hrow1);
      [reflexivity|simpl; lia|vm_compute; reflexivity|]
  end.
  split; [exact Hn|].
  apply (Hrow1 student ExcelInsertion.Fard1 (25 # 2)%Q);
    [apply list_elem_of_here|vm_compute; reflexivity|vm_compute; reflexivity
    |discriminate|reflexivity].
Defined.

(** ** The student numbers *)

Section StudentNumbers.
Import OCRService TableDetectionService.

Lemma forallb_filter_digits (s : list N) :
  forallb isDigit (filter (fun u => isDigit u) s) = true.
Proof.
  apply forallb_forall. intros c Hc. apply list_elem_of_In in Hc.
  apply list_elem_of_filter in Hc as [Hc _]. by apply Is_true_true.
Qed.

Lemma studentIdOf_nonneg rowIndex headerRow idCell :
  headerRow < rowIndex ->
  (forall c, idCell = Some c -> cellNonNegative c) ->
  (0 <= studentIdOf rowIndex headerRow idCell)%Q.
Proof.
  intros Hlt Hcell. unfold studentIdOf.
  assert (0 <= inject_Z (Z.of_nat rowIndex - Z.of_nat headerRow))%Q as Hfallback
    by (apply Qnonneg_inject; lia).
  destruct idCell as [c|]; [|done]. specialize (Hcell c eq_refl).
  destruct (if isNumeric c then value c else None) as [v|] eqn:Hv.
  - apply Hcell. by destruct (isNumeric c).
  - destruct (nonEmpty (text c)); [|done]. case_bool_decide; [|done].
    apply Qnonneg_inject, digitsValue_nonneg, forallb_filter_digits.
Qed.

Lemma at_index_elem {A} (l : list A) z x : at_index l z = Some x -> x ∈ l.
Proof.
  unfold at_index. destruct (z <? 0)%Z; [done|]. apply list_elem_of_lookup_2.
Qed.

Lemma extractStudentData_numbers ts :
  Forall (Forall cellNonNegative) (cells ts) ->
  Forall (fun st => (0 <= number st)%Q) (extractStudentData ts).
Proof.
  intros Hcells. unfold extractStudentData. apply Forall_forall. intros st Hst.
  apply list_elem_of_omap in Hst as (o & Ho & Hid). simpl in Hid. subst o.
  apply elem_of_lookup_imap in Ho as (k & r & Hst & Hr).
  unfold rowStudent in Hst. destruct (negb _ && negb _); [done|].
  apply (inj Some) in Hst. subst st. cbn [number].
  apply studentIdOf_nonneg; [lia|]. intros c Hc.
  apply at_index_elem in Hc. apply list_elem_of_lookup_2 in Hr.
  apply subseteq_drop in Hr.
  rewrite Forall_forall in Hcells. specialize (Hcells r Hr).
  rewrite Forall_forall in Hcells. by apply Hcells.
Qed.

Lemma tableBased_numbers lines students :
  tableBased lines = Some students ->
  Forall (fun st => (0 <= number st)%Q) students.
Proof.
  unfold tableBased.
  destruct (detectTable lines) as [ts|] eqn:Hts; [|done]. simpl.
  intros [= <-]. apply extractStudentData_numbers.
  rewrite (detectTable_cells _ _ Hts). apply createPreliminaryGrid_nonneg.
Qed.

Lemma extractStudentsByPatterns_numbers lines :
  Forall (fun st => (0 <= number st)%Q) (extractStudentsByPatterns lines).
Proof.
  destruct (findStudentSection lines) as [section|] eqn:Hsec.
  - rewrite (extractStudentsByPatterns_closed lines section Hsec).
    apply Forall_forall. intros st Hst.
    apply elem_of_lookup_imap in Hst as (k & e & -> & He). simpl.
    apply list_elem_of_lookup_2 in He. rewrite sortBy_Permutation in He.
    apply list_elem_of_fmap in He as (e' & -> & He'). simpl.
    destruct (extractStudentInfoFromSection_ids section) as [Hds _].
    rewrite Forall_forall in Hds. destruct (Hds e' He') as [_ Hdigits].
    by apply Qnonneg_inject, digitsValue_nonneg.
  - unfold extractStudentsByPatterns. rewrite Hsec. constructor.
Qed.

Lemma leadingNumber_digits line digits :
  leadingNumber line = Some digits -> forallb isDigit digits = true.
Proof.
  unfold leadingNumber.
  destruct (span_of isDigit (span_of isSpace line).2) as [ds r] eqn:E.
  apply span_of_spec in E as (_ & Hds & _).
  destruct r as [|c r]; [done|]. destruct (_ && _); [|done]. by intros [= <-].
Qed.

Lemma extractBasicStudentData_numbers lines :
  Forall (fun st => (0 <= number st)%Q) (extractBasicStudentData lines).
Proof.
  unfold extractBasicStudentData. apply Forall_forall. intros st Hst.
  apply list_elem_of_omap in Hst as (o & Ho & Hid). simpl in Hid. subst o.
  apply elem_of_lookup_imap in Ho as (i & line & Hst & _).
  unfold basicStudent in Hst.
  destruct (leadingNumber line) as [digits|] eqn:Hd; [|done].
  apply (inj Some) in Hst. subst st. cbn [number].
  by eapply Qnonneg_inject, digitsValue_nonneg, leadingNumber_digits.
Qed.

End StudentNumbers.

(** X22.  No student the pipeline returns has a negative number, whichever
    strategy produced it. *)
Theorem student_numbers_nonnegative (lines : list (list N)) :
  Forall (fun st => (0 <= number st)%Q) (OCRService.processLines lines).2.
Proof.
  unfold OCRService.processLines.
  destruct (OCRService.tableBased lines) as [[|st students]|] eqn:Ht.
  2: { rewrite (coordinate_table _ _ _ _ _ Ht) by done.
       by eapply tableBased_numbers. }
  all: rewrite coordinate_falls_through by auto; cbn [snd].
  all: destruct (OCRService.extractStudentsByPatterns lines)
         as [|st students] eqn:Hp;
    [rewrite afterTable_basic by done; apply extractBasicStudentData_numbers
    |rewrite afterTable_pattern by (by rewrite Hp); cbn [snd];
     apply extractStudentsByPatterns_numbers].
Qed.

(** ** The header row decides the columns *)

Section HeaderColumns.
Import TableDetectionService.

#[local] Abbreviation idHeader :=
  (fun c : TableCell =>
     includes (toLowerCase (text c)) (js "رقم")
     || includes (toLowerCase (text c)) (js "ر.ت")).
#[local] Abbreviation nameHeader :=
  (fun c : TableCell =>
     includes (toLowerCase (text c)) (js "اسم")
     || includes (toLowerCase (text c)) (js "التلميذ")).
#[local] Abbreviation markHeader :=
  (fun c : TableCell =>
     includes (toLowerCase (text c)) (js "فرض")
     || includes (toLowerCase (text c)) (js "الفرض")
     || includes (toLowerCase (text c)) (js "نقطة")
     || includes (toLowerCase (text c)) (js "الأنشطة")
     || includes (toLowerCase (text c)) (js "نشاط")).

(** The last index of [r] whose cell satisfies [p], or -1. *)
#[local] Abbreviation lastColumn p r :=
  (match last (filter (fun e : nat * TableCell => p e.2 = true) (imap pair r)) with
   | Some e => Z.of_nat e.1
   | None => (-1)%Z
   end).

Lemma headerStep_spec acc colIndex c :
  headerStep acc colIndex c
  = {| idColumn := if idHeader c then Z.of_nat colIndex else idColumn acc;
       nameColumn := if nameHeader c then Z.of_nat colIndex else nameColumn acc;
       marksColumns := if markHeader c then marksColumns acc ++ [colIndex]
                       else marksColumns acc |}.
Proof.
  unfold headerStep. destruct (idHeader c), (nameHeader c), (markHeader c);
    by destruct acc.
Qed.

Lemma imap_pair_snoc {A} (r : list A) (c : A) :
  imap pair (r ++ [c]) = imap pair r ++ [(length r, c)].
Proof. rewrite imap_app. simpl. by rewrite Nat.add_0_r. Qed.

Lemma headerPass_row grid headerRow r :
  grid !! headerRow = Some r ->
  idColumn (headerPass grid headerRow) = lastColumn idHeader r
  /\ nameColumn (headerPass grid headerRow) = lastColumn nameHeader r
  /\ marksColumns (headerPass grid headerRow)
     = map fst (filter (fun e : nat * TableCell => markHeader e.2 = true)
                       (imap pair r)).
Proof.
  intros Hr. unfold headerPass. rewrite Hr. clear Hr.
  induction r as [|c r (IHid & IHname & IHmarks)] using rev_ind; [done|].
  rewrite imap_pair_snoc, foldl_app. cbn [foldl].
  rewrite headerStep_spec. cbn [idColumn nameColumn marksColumns].
  rewrite !filter_app, !filter_cons, !filter_nil. cbn [snd fst].
  rewrite IHid, IHname, IHmarks. split; [|split].
  - destruct (decide (idHeader c = true)) as [->|Hn].
    + by rewrite last_snoc.
    + rewrite app_nil_r. by destruct (idHeader c).
  - destruct (decide (nameHeader c = true)) as [->|Hn].
    + by rewrite last_snoc.
    + rewrite app_nil_r. by destruct (nameHeader c).
  - destruct (decide (markHeader c = true)) as [->|Hn].
    + by rewrite map_app.
    + rewrite app_nil_r. by destruct (markHeader c).
Qed.

Lemma identifyColumns_header grid headerRow r cols :
  identifyColumns grid headerRow = Some cols ->
  grid !! headerRow = Some r ->
  (lastColumn idHeader r <> (-1)%Z -> idColumn cols = lastColumn idHeader r)
  /\ (lastColumn nameHeader r <> (-1)%Z ->
      nameColumn cols = lastColumn nameHeader r)
  /\ (filter (fun e : nat * TableCell => markHeader e.2 = true) (imap pair r)
      <> [] ->
      marksColumns cols
      = map fst (filter (fun e : nat * TableCell => markHeader e.2 = true)
                        (imap pair r))).
Proof.
  intros Hcols Hr.
  destruct (headerPass_row grid headerRow r Hr) as (Hid & Hname & Hmarks).
  pose proof (headerPass_sorted grid headerRow) as Hsorted.
  unfold identifyColumns in Hcols. destruct grid as [|row0 grid0] eqn:Eg; [done|].
  rewrite <- Eg in *. apply (inj Some) in Hcols. subst cols.
  cbn [idColumn nameColumn marksColumns].
  set (pass := headerPass grid headerRow) in *.
  set (width := length row0).
  assert (forall acc,
             acc = pass \/ acc = contentPass grid headerRow width pass ->
             (idColumn pass <> (-1)%Z -> idColumn acc = idColumn pass)
             /\ (nameColumn pass <> (-1)%Z -> nameColumn acc = nameColumn pass)
             /\ (marksColumns pass <> [] -> marksColumns acc = marksColumns pass))
    as Hkeep.
  { intros acc [->| ->]; [done|]. unfold contentPass.
    cbn [idColumn nameColumn marksColumns]. split; [|split].
    - intros Hne. apply Z.eqb_neq in Hne. by rewrite Hne.
    - intros Hne. apply Z.eqb_neq in Hne. by rewrite Hne.
    - intros Hne. rewrite bool_decide_eq_false_2; [done|].
      intros H0. apply Hne. by apply length_zero_iff_nil. }
  match goal with
  | |- context [sortBy Nat.leb (marksColumns ?a)] => set (acc := a)
  end.
  destruct (Hkeep acc) as (Kid & Kname & Kmarks).
  { unfold acc. destruct (_ || _); auto. }
  assert (filter (fun e : nat * TableCell => markHeader e.2 = true) (imap pair r)
          <> [] -> marksColumns pass <> []) as Hsome.
  { rewrite Hmarks. intros Hne H0. apply Hne. by apply fmap_nil_inv in H0. }
  clearbody acc. rewrite <- Hid, <- Hname, <- Hmarks.
  split; [|split].
  - intros Hne. rewrite (Kid Hne). apply Z.eqb_neq in Hne. by rewrite Hne.
  - intros Hne. rewrite (Kname Hne). apply Z.eqb_neq in Hne. by rewrite Hne.
  - intros Hne. apply Hsome in Hne.
    rewrite (Kmarks Hne), (sortBy_leb_sorted _ Hsorted).
    rewrite bool_decide_eq_false_2; [done|].
    intros H0. apply Hne. by apply length_zero_iff_nil.
Qed.

End HeaderColumns.

(** X23.  The header row has the last word.  In the structure of
    [detectTable], when a cell of the header row holds a keyword of the
    identifier (رقم, ر.ت), the identifier column is the last such cell;
    when one holds a keyword of the name (اسم, التلميذ), the name column
    is the last such cell; and when some hold a keyword of a mark (فرض,
    الفرض, نقطة, الأنشطة, نشاط), the mark columns are exactly those cells,
    in order, whatever the rows below contain. *)
Theorem detectTable_header_keywords (lines : list (list N))
    (ts : TableDetectionService.TableStructure)
    (r : list TableDetectionService.TableCell) :
  let has (keywords : list (list N)) (c : TableDetectionService.TableCell) :=
    existsb (fun k => includes (toLowerCase (TableDetectionService.text c)) k)
            keywords in
  let columns keywords :=
    map fst (filter (fun e : nat * TableDetectionService.TableCell =>
                       has keywords e.2 = true) (imap pair r)) in
  TableDetectionService.detectTable lines = Some ts ->
  TableDetectionService.cells ts !! TableDetectionService.headerRow ts = Some r ->
  (forall j, last (columns [js "رقم"; js "ر.ت"]) = Some j ->
             TableDetectionService.studentIdColumn ts = Z.of_nat j)
  /\ (forall j, last (columns [js "اسم"; js "التلميذ"]) = Some j ->
                TableDetectionService.studentNameColumn ts = Z.of_nat j)
  /\ (columns [js "فرض"; js "الفرض"; js "نقطة"; js "الأنشطة"; js "نشاط"] <> [] ->
      TableDetectionService.markColumns ts
      = columns [js "فرض"; js "الفرض"; js "نقطة"; js "الأنشطة"; js "نشاط"]).
Proof.
  intros has columns Hts Hr.
  apply detectTable_fields in Hts as (row0 & grid & cols & _ & Hcols & ->).
  cbn [TableDetectionService.cells TableDetectionService.headerRow
       TableDetectionService.studentIdColumn
       TableDetectionService.studentNameColumn
       TableDetectionService.markColumns] in *.
  destruct (identifyColumns_header _ _ r cols Hcols Hr) as (Hid & Hname & Hmarks).
  assert (forall keywords (p : TableDetectionService.TableCell -> bool),
             (forall c, has keywords c = p c) ->
             columns keywords
             = map fst (filter (fun e : nat * TableDetectionService.TableCell =>
                                  p e.2 = true) (imap pair r))) as Hsame.
  { intros keywords p Hp. unfold columns. f_equal.
    apply list_filter_iff. intros e. by rewrite Hp. }
  assert (forall (l : list (nat * TableDetectionService.TableCell)) j,
             last (map fst l) = Some j ->
             match last l with
             | Some e => Z.of_nat e.1
             | None => (-1)%Z
             end = Z.of_nat j) as Hlast.
  { intros l j. rewrite fmap_last. destruct (last l); [|done].
    simpl. by intros [= ->]. }
  split; [|split].
  - intros j Hj.
    rewrite (Hsame _ (fun c =>
               includes (toLowerCase (TableDetectionService.text c)) (js "رقم")
               || includes (toLowerCase (TableDetectionService.text c))
                    (js "ر.ت"))) in Hj
      by (intros c; unfold has; cbn [existsb]; by rewrite orb_false_r).
    apply Hlast in Hj. rewrite Hid; [done|]. rewrite Hj. lia.
  - intros j Hj.
    rewrite (Hsame _ (fun c =>
               includes (toLowerCase (TableDetectionService.text c)) (js "اسم")
               || includes (toLowerCase (TableDetectionService.text c))
                    (js "التلميذ"))) in Hj
      by (intros c; unfold has; cbn [existsb]; by rewrite orb_false_r).
    apply Hlast in Hj. rewrite Hname; [done|]. rewrite Hj. lia.
  - rewrite (Hsame _ (fun c =>
               includes (toLowerCase (TableDetectionService.text c)) (js "فرض")
               || includes (toLowerCase (TableDetectionService.text c))
                    (js "الفرض")
               || includes (toLowerCase (TableDetectionService.text c))
                    (js "نقطة")
               || includes (toLowerCase (TableDetectionService.text c))
                    (js "الأنشطة")
               || includes (toLowerCase (TableDetectionService.text c))
                    (js "نشاط")))
      by (intros c; unfold has; cbn [existsb];
          by rewrite orb_false_r, !orb_assoc).
    intros Hne. apply Hmarks. intros Hnil. by rewrite Hnil in Hne.
Qed.

Lemma detectTable_header_keywords_witness :
  exists ts r,
    TableDetectionService.detectTable
      [js "اسم التلميذ  رقم التلميذ  الفرض"; js "أحمد  1  12.50"] = Some ts
    /\ TableDetectionService.cells ts !! TableDetectionService.headerRow ts
       = Some r
    /\ TableDetectionService.studentIdColumn ts = 1%Z
    /\ TableDetectionService.studentNameColumn ts = 1%Z.
Proof.
  eexists _, _. split; [vm_compute; reflexivity|].
  split; [vm_compute; reflexivity|].
  match goal with
  | |- TableDetectionService.studentIdColumn ?ts = _ /\ _ =>
      pose proof (fun r =>
                    detectTable_header_keywords
                      [js "اسم التلميذ  رقم التلميذ  الفرض"; js "أحمد  1  12.50"]
                      ts r eq_refl) as H
  end.
  cbv zeta in H.
  match type of H with
  | forall r, ?c !! ?h = Some r -> _ =>
      let row := eval vm_compute in (c !! h) in
      match row with
      | Some ?r0 =>
          destruct (H r0) as (Hid & Hname & _); [vm_compute; reflexivity|]
      end
  end.
  split; [apply (Hid 1); vm_compute; reflexivity
         |apply (Hname 1); vm_compute; reflexivity].
Defined.

(** ** When a cell or a name matches *)

Section MatchRules.
Import ExcelService.

Lemma ratio_above_threshold (len d : nat) :
  0 < len ->
  (7 # 10 < (inject_Z (Z.of_nat len) - inject_Z (Z.of_nat d))
            / inject_Z (Z.of_nat len))%Q
  <-> 10 * d < 3 * len.
Proof.
  intros Hlen. destruct len as [|n]; [lia|].
  change (Z.of_nat (S n)) with (Z.pos (Pos.of_succ_nat n)).
  unfold Qlt, Qdiv, Qminus, Qplus, Qopp, Qmult, Qinv, inject_Z.
  cbn [Qnum Qden]. rewrite !Pos.mul_1_r, !Z.mul_1_r, ?Pos.mul_1_l.
  pose proof (Zpos_P_of_succ_nat n). lia.
Qed.

Lemma compareNames_ordered s1 s2 longer shorter :
  (longer = s1 /\ shorter = s2) \/ (longer = s2 /\ shorter = s1) ->
  length shorter <= length longer ->
  compareNames s1 s2 = Some true
  <-> s1 = s2 \/ is_substring shorter longer
      \/ 10 * lev s1 s2 < 3 * length longer.
Proof.
  intros Hwhich Hlen. unfold compareNames.
  destruct (calculateSimilarity_score s1 s2 longer shorter Hwhich Hlen)
    as (q & -> & Heq & Hsub & Hlev).
  simpl.
  assert (lev longer shorter = lev s1 s2) as Hsame.
  { destruct Hwhich as [[-> ->]|[-> ->]]; [done|apply lev_sym]. }
  assert (Some (negb (Qle_bool q (7 # 10))) = Some true <-> (7 # 10 < q)%Q)
    as ->.
  { rewrite <- above_threshold. split; [by intros [= ->]|by intros ->]. }
  destruct (decide (s1 = s2)) as [He|Hne].
  { rewrite (Heq He). split; [by left|done]. }
  destruct (is_substring_dec shorter longer) as [Hs|Hs].
  { rewrite (Hsub Hne Hs). split; [by right; left|done]. }
  rewrite (Hlev Hne Hs), Hsame.
  assert (0 < length longer) as Hpos.
  { destruct longer as [|c longer]; [|simpl; lia].
    destruct shorter; [|simpl in Hlen; lia].
    destruct Hs. by exists [], []. }
  rewrite (ratio_above_threshold _ _ Hpos). split; [by right; right|].
  intros [?|[?|?]]; done.
Qed.

Lemma substring_length (p s : list N) : is_substring p s -> length p <= length s.
Proof. intros (a & b & ->). rewrite !length_app. lia. Qed.

End MatchRules.

(** X24.  [compareNames] in terms of the strings: two names match exactly
    when they are equal, or one occurs in the other, or their edit distance
    is less than three tenths of the length of the longer one. *)
Theorem compareNames_rule (s1 s2 : list N) :
  ExcelService.compareNames s1 s2 = Some true
  <-> s1 = s2 \/ is_substring s1 s2 \/ is_substring s2 s1
      \/ 10 * lev s1 s2 < 3 * Nat.max (length s1) (length s2).
Proof.
  destruct (le_ge_dec (length s2) (length s1)) as [Hle|Hge].
  - rewrite (compareNames_ordered s1 s2 s1 s2) by auto.
    rewrite Nat.max_l by done. split.
    + intros [?|[?|?]]; auto.
    + intros [?|[Hs|[?|?]]]; auto.
      pose proof (substring_length _ _ Hs) as Hlen.
      left. apply is_substring_same_length; [lia|done].
  - rewrite (compareNames_ordered s1 s2 s2 s1) by auto.
    rewrite Nat.max_r by lia. split.
    + intros [?|[?|?]]; auto.
    + intros [?|[?|[Hs|?]]]; auto.
      pose proof (substring_length _ _ Hs) as Hlen.
      left. symmetry. apply is_substring_same_length; [lia|done].
Qed.

(** X25.  A filled cell without any digit matches every student number: if
    row [i] below the header has, in the number column, a non-empty cell
    whose text holds no digit, [findStudentRowByNumber] returns a row from
    1 to [i] whatever the number looked for. *)
Theorem findStudentRowByNumber_digitless_cell
    (numColumn : Z) (studentNum : list N)
    (values : list (list ExcelService.CellValue)) (i : nat)
    (row : list ExcelService.CellValue) (cell : ExcelService.CellValue) :
  1 <= i -> values !! i = Some row ->
  ExcelService.at_column row numColumn = Some cell ->
  ExcelService.truthy (Some cell) = true ->
  ExcelService.digitsOnly (ExcelService.toString cell) = [] ->
  (1 <= ExcelService.findStudentRowByNumber numColumn studentNum values
   <= Z.of_nat i)%Z.
Proof.
  intros Hi Hrow Hcell Htruthy Hdigits.
  assert (idAcceptedRow numColumn studentNum row) as Hacc.
  { exists cell. split; [done|]. split; [done|].
    right. rewrite Hdigits. apply suffix_nil. }
  destruct (findStudentRowByNumber_FirstMatch numColumn studentNum values)
    as [[_ Hnone]|(k & row' & -> & Hk & _ & _ & Hbefore)].
  - destruct (Hnone i row Hi Hrow Hacc).
  - split; [lia|]. destruct (decide (k <= i)) as [|Hgt]; [lia|].
    destruct (Hbefore i row); [lia|done|done].
Qed.

Lemma findStudentRowByNumber_digitless_cell_witness :
  let values := [[ExcelService.VStr (js "Massar")];
                 [ExcelService.VStr (js "رقم التلميذ")];
                 [ExcelService.VStr (js "G1234567")]] in
  (1 <= ExcelService.findStudentRowByNumber 0 (js "1234567") values
   <= Z.of_nat 1)%Z.
Proof.
  intros values.
  apply (findStudentRowByNumber_digitless_cell 0 (js "1234567") values 1
           [ExcelService.VStr (js "رقم التلميذ")]
           (ExcelService.VStr (js "رقم التلميذ")));
    [lia|reflexivity|reflexivity|reflexivity|vm_compute; reflexivity].
Defined.
